(** * Smart Resume Reviewer: the analysis-normalization pipeline

    A shallow embedding of the text normalizer and PDF validator
    ([src/lib/pdf-parser.ts]), of the role catalog ([types/resume.ts]) and of
    the analyzer ([lib/resume-analyzer.ts]: response normalizer, role-insight
    enricher, quick score, analysis requester), followed by the properties the
    specification states about them.  The section extractor and the PDF
    parser of [src/lib/pdf-parser.ts] and the two routes
    ([app/api/parse-pdf/route.ts], [app/api/analyze-resume/route.ts]) follow
    the analyzer, with further properties read off the code.

    Conventions.
    - A JavaScript string is a sequence of UTF-16 code units.  A Rocq [string]
      is read here as a sequence of code units in the range U+0000..U+00FF, so
      the embedding covers the texts written in that range; every literal of
      the source (regular expressions, keywords, catalog) lies inside it.
    - A JavaScript number is a double.  The finite ones are rationals and the
      analyzer only compares them, so a number is a [JsNum]: [NaN], the two
      infinities, or a rational.  Negative zero is not distinguished.
    - A thrown exception is an explicit [Throw] result. *)

From Stdlib Require Import Bool Arith List String Ascii ZArith NArith QArith Qminmax Lia.
From Stdlib Require Strings.Byte.
Import ListNotations.

Close Scope Q_scope.
Local Open Scope string_scope.
Local Open Scope bool_scope.

(** ** JavaScript strings and the regular-expression primitives used *)

Module Js.

Definition code (c : ascii) : N := N_of_ascii c.

Definition between (lo hi : N) (c : ascii) : bool :=
(N.leb lo (code c) && N.leb (code c) hi)%bool.

Definition LF : ascii := ascii_of_N 10.
Definition CR : ascii := ascii_of_N 13.
Definition TAB : ascii := ascii_of_N 9.
Definition SPACE : ascii := ascii_of_N 32.

Definition isLF (c : ascii) : bool := N.eqb (code c) 10.
Definition isCR (c : ascii) : bool := N.eqb (code c) 13.

(** [\d] *)
Definition isDigit (c : ascii) : bool := between 48 57 c.
(** [[a-z]] and [[A-Z]] *)
Definition isLower (c : ascii) : bool := between 97 122 c.
Definition isUpper (c : ascii) : bool := between 65 90 c.
(** [\w] is [[A-Za-z0-9_]] *)
Definition isWord (c : ascii) : bool :=
isLower c || isUpper c || isDigit c || N.eqb (code c) 95.
(** [\s]: TAB, LF, VT, FF, CR, SPACE and NBSP are the white space and line
terminator code units below U+0100. *)
Definition isSpace (c : ascii) : bool :=
between 9 13 c || N.eqb (code c) 32 || N.eqb (code c) 160.
(** the line terminators, which [^] and [$] see under the [m] flag *)
Definition isLineTerminator (c : ascii) : bool := isLF c || isCR c.
(** [[ \t]] *)
Definition isBlank (c : ascii) : bool := N.eqb (code c) 32 || N.eqb (code c) 9.
(** [[\x20-\x7E\n]] *)
Definition isPrintable (c : ascii) : bool := between 32 126 c || isLF c.

(** [String.prototype.toLowerCase] on U+0000..U+00FF: the letters A-Z and
the Latin-1 capitals U+00C0..U+00DE (U+00D7, the multiplication sign,
apart) move up by 32. *)
Definition lowerChar (c : ascii) : ascii :=
if isUpper c || (between 192 222 c && negb (N.eqb (code c) 215))
then ascii_of_N (code c + 32) else c.

Fixpoint toLowerCase (s : string) : string :=
match s with
| EmptyString => EmptyString
| String c r => String (lowerChar c) (toLowerCase r)
end.

Fixpoint startsWith (s p : string) {struct p} : bool :=
match p, s with
| EmptyString, _ => true
| String a p', String b s' => Ascii.eqb a b && startsWith s' p'
| String _ _, EmptyString => false
end.

(** [s.includes(p)] *)
Fixpoint includes (s p : string) : bool :=
startsWith s p ||
match s with
| EmptyString => false
| String _ r => includes r p
end.

Fixpoint spanLen (p : ascii -> bool) (s : string) : nat :=
match s with
| String c r => if p c then S (spanLen p r) else 0
| EmptyString => 0
end.

Fixpoint trimStart (s : string) : string :=
match s with
| String c r => if isSpace c then trimStart r else s
| EmptyString => EmptyString
end.

Fixpoint trimEnd (s : string) : string :=
match s with
| String c r =>
  match trimEnd r with
  | EmptyString => if isSpace c then EmptyString else String c EmptyString
  | t => String c t
  end
| EmptyString => EmptyString
end.

(** [s.trim()] *)
Definition trim (s : string) : string := trimEnd (trimStart s).

(** the first [n] units of [s], and [s] without them *)
Fixpoint takeUnits (n : nat) (s : string) : string :=
match n, s with
| S k, String c r => String c (takeUnits k r)
| _, _ => EmptyString
end.

Fixpoint dropUnits (n : nat) (s : string) : string :=
match n, s with
| S k, String _ r => dropUnits k r
| _, _ => s
end.

(** the last unit of [s], or [prev] when [s] is empty *)
Fixpoint lastUnit (prev : option ascii) (s : string) : option ascii :=
match s with
| String c r => lastUnit (Some c) r
| EmptyString => prev
end.

(** [parts.join(sep)] on an array of strings *)
Fixpoint join (sep : string) (parts : list string) : string :=
match parts with
| [] => EmptyString
| [p] => p
| p :: rest => p ++ sep ++ join sep rest
end.

(** *** Global regular expressions

A regular expression is embedded as a matcher: given the code unit
before the position ([None] at the start of the input) and the input
from the position on, it returns the length of the match the
backtracking engine finds there, if any. *)
Definition matcher : Type := option ascii -> string -> option nat.

Section Scan.
Variable m : matcher.

(** [s.replace(/re/g, template)]: matches are taken left to right, each
search resuming where the previous match ended, one unit further
after an empty match.  [skip] counts the units of the current match
still to be consumed; [tpl] builds the replacement from the matched
text. *)
Variable tpl : string -> string.

Fixpoint replaceFrom (prev : option ascii) (skip : nat) (s : string) : string :=
match skip with
| S k =>
match s with
| String c r => replaceFrom (Some c) k r
| EmptyString => EmptyString
end
| O =>
match m prev s with
| Some (S k) =>
  tpl (takeUnits (S k) s) ++
  match s with
  | String c r => replaceFrom (Some c) k r
  | EmptyString => EmptyString
  end
| Some O =>
  tpl EmptyString ++
  match s with
  | String c r => String c (replaceFrom (Some c) 0 r)
  | EmptyString => EmptyString
  end
| None =>
  match s with
  | String c r => String c (replaceFrom (Some c) 0 r)
  | EmptyString => EmptyString
  end
end
end.

Definition replaceAll (s : string) : string := replaceFrom None 0 s.

(** the number of matches of a global regular expression, as
[(s.match(/re/g) || []).length] counts them *)
Fixpoint countFrom (prev : option ascii) (skip : nat) (s : string) : nat :=
match skip with
| S k =>
match s with
| String c r => countFrom (Some c) k r
| EmptyString => 0
end
| O =>
match m prev s with
| Some (S k) =>
  S match s with
    | String c r => countFrom (Some c) k r
    | EmptyString => 0
    end
| Some O =>
  S match s with
    | String c r => countFrom (Some c) 0 r
    | EmptyString => 0
    end
| None =>
  match s with
  | String c r => countFrom (Some c) 0 r
  | EmptyString => 0
  end
end
end.

Definition countAll (s : string) : nat := countFrom None 0 s.

(** [/re/.test(s)]: some position matches *)
Fixpoint testFrom (prev : option ascii) (s : string) : bool :=
match m prev s with
| Some _ => true
| None =>
match s with
| String c r => testFrom (Some c) r
| EmptyString => false
end
end.

Definition test (s : string) : bool := testFrom None s.
End Scan.

(** a literal pattern *)
Definition literal (p : string) : matcher :=
fun _ s => if startsWith s p then Some (String.length p) else None.

(** one code unit of a class *)
Definition oneOf (p : ascii -> bool) : matcher :=
fun _ s => match s with
         | String c _ => if p c then Some 1 else None
         | EmptyString => None
         end.

(** [c{n,}] for a class [c]: greedy, the whole run when it has [n] units *)
Definition atLeast (n : nat) (p : ascii -> bool) : matcher :=
fun _ s => let k := spanLen p s in if Nat.leb n k then Some k else None.

(** two adjacent units [(a)(b)] of the given classes *)
Definition adjacent (p q : ascii -> bool) : matcher :=
fun _ s => match s with
         | String a (String b _) => if p a && q b then Some 2 else None
         | _ => None
         end.

(** the template ['$1 $2'] for a two-unit match *)
Definition spaced (matched : string) : string :=
match matched with
| String a r => String a (String SPACE r)
| EmptyString => EmptyString
end.

Definition const (r : string) : string -> string := fun _ => r.

(** [\s+] *)
Definition spaces : matcher := atLeast 1 isSpace.

(** ['\n'] and ['\n\n'] *)
Definition NL : string := String LF EmptyString.
Definition NLNL : string := String LF (String LF EmptyString).

End Js.

(** ** [src/lib/pdf-parser.ts] *)

Module PdfParser.
Import Js.

Definition atLineStart (prev : option ascii) : bool :=
match prev with
| None => true
| Some c => isLineTerminator c
end.

(** The longest prefix of digits and white space that ends where [$]
holds under the [m] flag: at the end of the input or before a line
terminator. *)
Fixpoint numericToLineEnd (s : string) : option nat :=
match s with
| EmptyString => Some 0
| String c r =>
  let here := if isLineTerminator c then Some 0 else None in
  if isDigit c || isSpace c
  then match numericToLineEnd r with
       | Some k => Some (S k)
       | None => here
       end
  else here
end.

(** [/^\s*[\d\s]*\s*$/gm].  Every string the three starred classes match is
a run of digits and white space, every such run is matched by the
middle one alone, and the greedy search tries the longer ends first:
from a line start the match is the longest such run that stops at a
line end. *)
Definition numberLine : matcher :=
fun prev s => if atLineStart prev then numericToLineEnd s else None.

(** The longest prefix [\s*\n]: white space up to and including its last
line feed. *)
Fixpoint spaceToLF (s : string) : option nat :=
match s with
| EmptyString => None
| String c r =>
  if isSpace c
  then match spaceToLF r with
       | Some k => Some (S k)
       | None => if isLF c then Some 1 else None
       end
  else None
end.

(** [/\n\s*\n/g] *)
Definition paragraphBreak : matcher :=
fun _ s => match s with
         | String c r =>
             if isLF c
             then match spaceToLF r with
                  | Some k => Some (S k)
                  | None => None
                  end
             else None
         | EmptyString => None
         end.

(** The eleven steps of [cleanExtractedText], in the order of the source. *)
Definition unifyCRLF := replaceAll (literal (String CR (String LF EmptyString))) (const NL).
Definition unifyCR := replaceAll (oneOf isCR) (const NL).
Definition collapseNewlines := replaceAll (atLeast 3 isLF) (const NLNL).
Definition collapseBlanks := replaceAll (atLeast 2 isBlank) (const " ").
Definition dropUnprintable := replaceAll (oneOf (fun c => negb (isPrintable c))) (const "").
Definition dropNumberLines := replaceAll numberLine (const "").
Definition splitCamelCase := replaceAll (adjacent isLower isUpper) spaced.
Definition splitBeforeDigit := replaceAll (adjacent isWord isDigit) spaced.
Definition splitAfterDigit := replaceAll (adjacent isDigit isWord) spaced.
Definition normalizeParagraphs := replaceAll paragraphBreak (const NLNL).

Definition cleanExtractedText (text : string) : string :=
if String.eqb text "" then ""
else
trim
  (normalizeParagraphs
     (splitAfterDigit
        (splitBeforeDigit
           (splitCamelCase
              (dropNumberLines
                 (dropUnprintable
                    (collapseBlanks
                       (collapseNewlines
                          (unifyCR
                             (unifyCRLF text)))))))))).

(** A [Buffer] is a sequence of bytes. *)
Definition Buffer : Type := list Byte.byte.

(** [buffer.toString('ascii', start, stop)]: Node decodes 'ascii' as
latin1 after clearing the high bit of every byte. *)
Definition decodeAscii (b : Byte.byte) : ascii :=
ascii_of_N (N.land (Byte.to_N b) 127).

Definition toStringAscii (buffer : Buffer) (start stop : nat) : string :=
string_of_list_ascii (map decodeAscii (firstn (stop - start) (skipn start buffer))).

(** The three [error] strings of [validatePDFFile]:
['No file content received'],
[`File size (${fileSizeMB.toFixed(2)}MB) exceeds maximum allowed size of ${maxSizeMB}MB`]
(kept as its two numbers) and ['File is not a valid PDF format']. *)
Inductive PdfError : Type :=
| NoFileContent
| FileTooLarge (fileSizeMB maxSizeMB : Q)
| NotPdfFormat.

Record Validation : Type := { valid : bool; error : option PdfError }.

Definition bytesPerMB : positive := 1024 * 1024.

Definition validatePDFFile (buffer : Buffer) (maxSizeMB : Q) : Validation :=
if Nat.eqb (List.length buffer) 0 then
{| valid := false; error := Some NoFileContent |}
else
let fileSizeMB := Qmake (Z.of_nat (List.length buffer)) bytesPerMB in
if negb (Qle_bool fileSizeMB maxSizeMB) then
  {| valid := false; error := Some (FileTooLarge fileSizeMB maxSizeMB) |}
else
  let header := toStringAscii buffer 0 8 in
  if negb (startsWith header "%PDF-") then
    {| valid := false; error := Some NotPdfFormat |}
  else {| valid := true; error := None |}.

(** the default [maxSizeMB = 10] *)
Definition defaultMaxSizeMB : Q := inject_Z 10.

End PdfParser.


(** ** JavaScript values, as [JSON.parse] builds them *)

Module Json.
Import Js.

Inductive JsNum : Type :=
| NaN
| PosInf
| NegInf
| Fin (q : Q).

#[warnings="-register-all"]
Inductive JsValue : Type :=
| JUndefined
| JNull
| JBool (b : bool)
| JNumber (n : JsNum)
| JString (s : string)
| JArray (items : list JsValue)
| JObject (props : list (string * JsValue)).

(** What a [throw] carries: an [Error] built by the program, or the
[TypeError] the engine raises; both have a [message]. *)
Inductive JsError : Type :=
| Error (message : string)
| TypeError (message : string).

Definition messageOf (e : JsError) : string :=
match e with
| Error m => m
| TypeError m => m
end.

Inductive Result (A : Type) : Type :=
| Ok (a : A)
| Throw (e : JsError).
Arguments Ok {A} a.
Arguments Throw {A} e.

Definition bind {A B : Type} (r : Result A) (k : A -> Result B) : Result B :=
match r with
| Ok a => k a
| Throw e => Throw e
end.

Definition num (z : Z) : JsNum := Fin (inject_Z z).

(** [a < b] *)
Definition numLt (a b : JsNum) : bool :=
match a, b with
| NaN, _ | _, NaN => false
| _, NegInf => false
| NegInf, _ => true
| PosInf, _ => false
| Fin _, PosInf => true
| Fin x, Fin y => negb (Qle_bool y x)
end.

(** [Math.min(a, b)] and [Math.max(a, b)] on numbers *)
Definition mathMin (a b : JsNum) : JsNum :=
match a, b with
| NaN, _ | _, NaN => NaN
| _, _ => if numLt b a then b else a
end.

Definition mathMax (a b : JsNum) : JsNum :=
match a, b with
| NaN, _ | _, NaN => NaN
| _, _ => if numLt a b then b else a
end.

(** ToBoolean *)
Definition truthy (v : JsValue) : bool :=
match v with
| JUndefined | JNull => false
| JBool b => b
| JNumber NaN => false
| JNumber (Fin q) => negb (Qeq_bool q 0)
| JNumber _ => true
| JString s => negb (String.eqb s "")
| JArray _ | JObject _ => true
end.

(** [a || b] *)
Definition orElse (a b : JsValue) : JsValue := if truthy a then a else b.

Fixpoint lookup (key : string) (props : list (string * JsValue)) : option JsValue :=
match props with
| [] => None
| (k, v) :: rest => if String.eqb k key then Some v else lookup key rest
end.

(** The value of [v.key] for a value other than [null] and [undefined],
for the keys the analyzer reads: none of them names a property of
[Object.prototype], [Array.prototype] or of the wrappers of the
primitives, so only an object's own properties answer. *)
Definition field (v : JsValue) (key : string) : JsValue :=
match v with
| JObject props =>
  match lookup key props with
  | Some x => x
  | None => JUndefined
  end
| _ => JUndefined
end.

Definition nullish (v : JsValue) : bool :=
match v with
| JUndefined | JNull => true
| _ => false
end.

(** [v.key] *)
Definition member (v : JsValue) (key : string) : Result JsValue :=
match v with
| JNull => Throw (TypeError ("Cannot read properties of null (reading '" ++ key ++ "')"))
| JUndefined => Throw (TypeError ("Cannot read properties of undefined (reading '" ++ key ++ "')"))
| _ => Ok (field v key)
end.

(** [v?.key] *)
Definition optionalMember (v : JsValue) (key : string) : JsValue :=
if nullish v then JUndefined else field v key.

(** [Array.isArray(v) ? v : []] *)
Definition arrayOrEmpty (v : JsValue) : list JsValue :=
match v with
| JArray items => items
| _ => []
end.

Definition notPrimitive : JsError :=
TypeError "Cannot convert object to primitive value".

(** [Array.prototype.join]: [undefined] and [null] elements give the
empty string, the others their ToString. *)
Fixpoint joinWith (toStr : JsValue -> Result string) (sep : string)
(items : list JsValue) : Result string :=
let element x := if nullish x then Ok "" else toStr x in
match items with
| [] => Ok ""
| [x] => element x
| x :: rest =>
  bind (element x) (fun a =>
  bind (joinWith toStr sep rest) (fun b => Ok (a ++ sep ++ b)))
end.

Section Engine.
(** The two numeric conversions of the engine, Number::toString and
StringToNumber, are left to the engine. *)
Variable NumberToString : JsNum -> string.
Variable StringToNumber : string -> JsNum.

(** ToString and ToPrimitive.  A parsed object has only data
properties, so an own [toString] is never callable and the
conversion of such an object throws; every other object answers
with [Object.prototype.toString], an array with its [join]. *)
Fixpoint ToString (v : JsValue) : Result string :=
match v with
| JUndefined => Ok "undefined"
| JNull => Ok "null"
| JBool b => Ok (if b then "true" else "false")
| JNumber n => Ok (NumberToString n)
| JString s => Ok s
| JArray items => joinWith ToString "," items
| JObject props =>
match lookup "toString" props with
| Some _ => Throw notPrimitive
| None => Ok "[object Object]"
end
end.

(** ToNumber *)
Definition ToNumber (v : JsValue) : Result JsNum :=
match v with
| JUndefined => Ok NaN
| JNull => Ok (num 0)
| JBool b => Ok (if b then num 1 else num 0)
| JNumber n => Ok n
| JString s => Ok (StringToNumber s)
| JArray _ | JObject _ => bind (ToString v) (fun s => Ok (StringToNumber s))
end.

(** [Math.max(0, Math.min(hi, v || 0))] *)
Definition clampScore (hi : Z) (v : JsValue) : Result JsNum :=
bind (ToNumber (orElse v (JNumber (num 0)))) (fun n =>
Ok (mathMax (num 0) (mathMin (num hi) n))).
End Engine.

End Json.

(** ** [types/resume.ts] *)

Module Types.
Import Js Json.

Inductive InputType : Type := pdf | text.

Record ResumeInput : Type := {
content : string;
filename : option string;
type : InputType
}.

Record JobRole : Type := {
id : string;
title : string;
category : string;
commonSkills : list string
}.

Record ResumeSection : Type := {
name : string;
score : JsNum;
maxScore : JsNum;
feedback : list string;
suggestions : list string;
sectionStrengths : list string;  (* [strengths] *)
issues : list string
}.

(** [ResumeAnalysis].  TypeScript erases the declared types, so the record
is kept generic in what its text and section entries are at run time:
[Txt] is [string] and [Sec] is [ResumeSection] for a value of the
declared type, and both are [JsValue] for what the response normalizer
hands on without a check. *)
Record KeyFindings (Txt : Type) : Type := {
strengths : list Txt;
majorIssues : list Txt;
missingSkills : list Txt;
atsCompatibility : JsNum;
improvementPriority : list Txt
}.
Arguments strengths {Txt}.
Arguments majorIssues {Txt}.
Arguments missingSkills {Txt}.
Arguments atsCompatibility {Txt}.
Arguments improvementPriority {Txt}.

Record JobAlignment (Txt : Type) : Type := {
matchScore : JsNum;
relevantExperience : list Txt;
skillGaps : list Txt;
recommendations : list Txt
}.
Arguments matchScore {Txt}.
Arguments relevantExperience {Txt}.
Arguments skillGaps {Txt}.
Arguments recommendations {Txt}.

Record ResumeAnalysisOf (Txt Sec : Type) : Type := {
overallScore : JsNum;
maxOverallScore : JsNum;
summary : Txt;
sections : list Sec;
keyFindings : KeyFindings Txt;
jobAlignment : JobAlignment Txt
}.
Arguments overallScore {Txt Sec}.
Arguments maxOverallScore {Txt Sec}.
Arguments summary {Txt Sec}.
Arguments sections {Txt Sec}.
Arguments keyFindings {Txt Sec}.
Arguments jobAlignment {Txt Sec}.

Definition ResumeAnalysis : Type := ResumeAnalysisOf string ResumeSection.

Definition PREDEFINED_JOB_ROLES : list JobRole :=
[ {| id := "data-scientist"; title := "Data Scientist"; category := "Technology";
   commonSkills := ["Python"; "R"; "SQL"; "Machine Learning"; "Statistics";
                    "Data Visualization"; "TensorFlow"; "Pandas"; "Numpy"] |};
{| id := "product-manager"; title := "Product Manager"; category := "Management";
   commonSkills := ["Product Strategy"; "Agile/Scrum"; "User Research"; "Data Analysis";
                    "Stakeholder Management"; "Roadmap Planning"; "A/B Testing"] |};
{| id := "software-engineer"; title := "Software Engineer"; category := "Technology";
   commonSkills := ["Programming"; "JavaScript"; "Python"; "Git"; "APIs";
                    "Database Design"; "Testing"; "System Design"; "DevOps"] |};
{| id := "ux-designer"; title := "UX Designer"; category := "Design";
   commonSkills := ["User Research"; "Wireframing"; "Prototyping"; "Figma";
                    "Adobe Creative Suite"; "Information Architecture"; "Usability Testing"] |};
{| id := "marketing-manager"; title := "Marketing Manager"; category := "Marketing";
   commonSkills := ["Digital Marketing"; "Content Strategy"; "SEO/SEM"; "Social Media";
                    "Analytics"; "Campaign Management"; "Brand Management"] |};
{| id := "business-analyst"; title := "Business Analyst"; category := "Analysis";
   commonSkills := ["Requirements Analysis"; "Process Mapping"; "SQL"; "Data Analysis";
                    "Stakeholder Communication"; "Project Management"; "Documentation"] |};
{| id := "sales-representative"; title := "Sales Representative"; category := "Sales";
   commonSkills := ["Lead Generation"; "Customer Relationship Management"; "Negotiation";
                    "Sales Process"; "CRM Software"; "Communication"; "Cold Calling"] |};
{| id := "project-manager"; title := "Project Manager"; category := "Management";
   commonSkills := ["Project Planning"; "Risk Management"; "Team Leadership"; "Agile/Scrum";
                    "Budget Management"; "Stakeholder Communication"; "Timeline Management"] |} ].

End Types.

(** ** [lib/resume-analyzer.ts] and [lib/openai.ts] *)

Module Analyzer.
Import Js Json Types.

Notation "x <- c ;; k" := (bind c (fun x => k))
(at level 61, c at next level, right associativity).

(** *** Response normalizer *)

Definition DEFAULT_SUMMARY : string := "Unable to generate analysis summary.".

Section Normalizer.
Variable NumberToString : JsNum -> string.
Variable StringToNumber : string -> JsNum.

Definition validateAndStructureAnalysis (rawAnalysis : JsValue)
: Result (ResumeAnalysisOf JsValue JsValue) :=
overall <- member rawAnalysis "overallScore" ;;
overallScore' <- clampScore NumberToString StringToNumber 100 overall ;;
summary' <- member rawAnalysis "summary" ;;
sections' <- member rawAnalysis "sections" ;;
kf <- member rawAnalysis "keyFindings" ;;
ats <- clampScore NumberToString StringToNumber 10 (optionalMember kf "atsCompatibility") ;;
ja <- member rawAnalysis "jobAlignment" ;;
matchScore' <- clampScore NumberToString StringToNumber 10 (optionalMember ja "matchScore") ;;
Ok {| overallScore := overallScore';
maxOverallScore := num 100;
summary := orElse summary' (JString DEFAULT_SUMMARY);
sections := arrayOrEmpty sections';
keyFindings :=
  {| strengths := arrayOrEmpty (optionalMember kf "strengths");
     majorIssues := arrayOrEmpty (optionalMember kf "majorIssues");
     missingSkills := arrayOrEmpty (optionalMember kf "missingSkills");
     atsCompatibility := ats;
     improvementPriority := arrayOrEmpty (optionalMember kf "improvementPriority") |};
jobAlignment :=
  {| matchScore := matchScore';
     relevantExperience := arrayOrEmpty (optionalMember ja "relevantExperience");
     skillGaps := arrayOrEmpty (optionalMember ja "skillGaps");
     recommendations := arrayOrEmpty (optionalMember ja "recommendations") |} |}.
End Normalizer.

(** *** Role-insight enricher *)

(** How the entries of an analysis answer the member accesses the enricher
makes on them. *)
Record Entries (Txt Sec : Type) : Type := {
lowered : string -> Txt -> Result string; (* [x.toLowerCase()], [x] a variable *)
sameAs : Txt -> string -> bool;          (* the test of [array.includes(s)] *)
ofString : string -> Txt;
nameLowered : Sec -> Result string;      (* [section.name.toLowerCase()] *)
feedbackJoined : Sec -> Result string    (* [section.feedback.join(' ')] *)
}.
Arguments lowered {Txt Sec}.
Arguments sameAs {Txt Sec}.
Arguments ofString {Txt Sec}.
Arguments nameLowered {Txt Sec}.
Arguments feedbackJoined {Txt Sec}.

(** entries of the declared types *)
Definition typed : Entries string ResumeSection :=
{| lowered := fun _ s => Ok (toLowerCase s);
 sameAs := String.eqb;
 ofString := fun s => s;
 nameLowered := fun section => Ok (toLowerCase (name section));
 feedbackJoined := fun section => Ok (join " " (feedback section)) |}.

(** Entries as they come out of the response normalizer.  The message
of the [TypeError] for calling a member that is not a function names the
callee as the running program spells it, so it is the engine's to give:
[notAFunction] maps the callee of the source to that message. *)
Definition loweredValue (notAFunction : string -> string) (callee : string) (v : JsValue)
: Result string :=
match v with
| JString s => Ok (toLowerCase s)
| JNull => Throw (TypeError "Cannot read properties of null (reading 'toLowerCase')")
| JUndefined => Throw (TypeError "Cannot read properties of undefined (reading 'toLowerCase')")
| _ => Throw (TypeError (notAFunction (callee ++ ".toLowerCase")))
end.

Definition untyped (NumberToString : JsNum -> string) (notAFunction : string -> string)
: Entries JsValue JsValue :=
{| lowered := loweredValue notAFunction;
 sameAs := fun v s => match v with JString t => String.eqb t s | _ => false end;
 ofString := JString;
 nameLowered := fun section =>
   n <- member section "name" ;; loweredValue notAFunction "section.name" n;
 feedbackJoined := fun section =>
   f <- member section "feedback" ;;
   match f with
   | JArray items => joinWith (ToString NumberToString) " " items
   | JNull => Throw (TypeError "Cannot read properties of null (reading 'join')")
   | JUndefined => Throw (TypeError "Cannot read properties of undefined (reading 'join')")
   | _ => Throw (TypeError (notAFunction "analysis.sections.find(section => section.name.toLowerCase().includes('skill'))?.feedback.join"))
   end |}.

(** [array.some], [array.find] and [array.filter] with a callback that may
throw: the callback runs on the elements in order and stops as the
method does. *)
Fixpoint someM {A : Type} (p : A -> Result bool) (l : list A) : Result bool :=
match l with
| [] => Ok false
| x :: rest => b <- p x ;; if b then Ok true else someM p rest
end.

Fixpoint findM {A : Type} (p : A -> Result bool) (l : list A) : Result (option A) :=
match l with
| [] => Ok None
| x :: rest => b <- p x ;; if b then Ok (Some x) else findM p rest
end.

Fixpoint filterM {A : Type} (p : A -> Result bool) (l : list A) : Result (list A) :=
match l with
| [] => Ok []
| x :: rest =>
  b <- p x ;;
  kept <- filterM p rest ;;
  Ok (if b then x :: kept else kept)
end.

(** [Array.from(new Set(l))]: the first occurrence of each string, in order *)
Fixpoint uniq (l : list string) : list string :=
match l with
| [] => []
| x :: rest => x :: filter (fun y => negb (String.eqb y x)) (uniq rest)
end.

(** [jobRole.toLowerCase().replace(/\s+/g, '-')] *)
Definition slug (jobRole : string) : string :=
replaceAll spaces (const "-") (toLowerCase jobRole).

Definition matchesRole (jobRole : string) (role : JobRole) : bool :=
String.eqb (toLowerCase (title role)) (toLowerCase jobRole) ||
String.eqb (id role) (slug jobRole).

(** [PREDEFINED_JOB_ROLES.find(...)] *)
Definition findRole (jobRole : string) : option JobRole :=
find (matchesRole jobRole) PREDEFINED_JOB_ROLES.

Section Enricher.
Context {Txt Sec : Type}.
Variable entries : Entries Txt Sec.

Definition withMissingSkills (analysis : ResumeAnalysisOf Txt Sec) (l : list Txt)
: ResumeAnalysisOf Txt Sec :=
let kf := keyFindings analysis in
{| overallScore := overallScore analysis;
maxOverallScore := maxOverallScore analysis;
summary := summary analysis;
sections := sections analysis;
keyFindings :=
{| strengths := strengths kf;
  majorIssues := majorIssues kf;
  missingSkills := l;
  atsCompatibility := atsCompatibility kf;
  improvementPriority := improvementPriority kf |};
jobAlignment := jobAlignment analysis |}.

Definition withRecommendations (analysis : ResumeAnalysisOf Txt Sec) (l : list Txt)
: ResumeAnalysisOf Txt Sec :=
let ja := jobAlignment analysis in
{| overallScore := overallScore analysis;
maxOverallScore := maxOverallScore analysis;
summary := summary analysis;
sections := sections analysis;
keyFindings := keyFindings analysis;
jobAlignment :=
{| matchScore := matchScore ja;
  relevantExperience := relevantExperience ja;
  skillGaps := skillGaps ja;
  recommendations := l |} |}.

(** [list.some(x => x.toLowerCase().includes(word))] on text entries, for
the variable [x] of the source *)
Definition someMentions (x word : string) (l : list Txt) : Result bool :=
someM (fun entry => t <- lowered entries x entry ;; Ok (includes t word)) l.

Definition generateRoleSpecificRecommendations (role : JobRole)
(analysis : ResumeAnalysisOf Txt Sec) : Result (list string) :=
let c := toLowerCase (category role) in
recommendations' <-
(if String.eqb c "technology" then
Ok ((if numLt (overallScore analysis) (num 70)
    then [("Consider adding more specific technical projects that demonstrate "
            ++ join ", " (firstn 3 (commonSkills role)) ++ " experience")%string]
    else [])
   ++ ["Ensure your technical skills section includes both the technologies you used and the context/projects where you applied them"])%list
else if String.eqb c "management" then
b <- someMentions "skill" "leadership" (missingSkills (keyFindings analysis)) ;;
Ok ((if b
    then ["Add specific examples of team leadership, project management, and stakeholder communication achievements"]
    else [])
   ++ ["Quantify your management impact with team sizes, budget responsibilities, and measurable outcomes"])%list
else if String.eqb c "design" then
Ok ("Include a portfolio link and mention specific design tools, methodologies, and user research experience"
   :: (if numLt (overallScore analysis) (num 75)
       then ["Highlight user-centered design processes and measurable improvements to user experience"]
       else []))
else if String.eqb c "marketing" then
b <- someM (fun section => n <- nameLowered entries section ;; Ok (includes n "project"))
          (sections analysis) ;;
Ok ("Include specific metrics for campaigns, growth rates, and ROI to demonstrate marketing impact"
   :: (if negb b
       then ["Add a projects section showcasing successful marketing campaigns and their measurable results"]
       else []))
else if String.eqb c "sales" then
Ok ["Quantify sales achievements with specific numbers, percentages, and quota attainment records";
   "Highlight relationship-building skills and experience with CRM systems and sales processes"]
else if String.eqb c "analysis" then
b <- someMentions "skill" "sql" (missingSkills (keyFindings analysis)) ;;
Ok ("Emphasize analytical methodologies, data sources, and business impact of your analytical work"
   :: (if b
       then ["Consider adding SQL, Excel, or other data analysis tools to strengthen your technical profile"]
       else []))
else Ok []) ;;
Ok (firstn 3 (uniq recommendations')).

(** the catalog's spelling of a lower-cased skill:
[commonSkills.find(cs => cs.toLowerCase() === skill) || skill] *)
Definition catalogSpelling (role : JobRole) (skill : string) : string :=
match find (fun cs => String.eqb (toLowerCase cs) skill) (commonSkills role) with
| Some cs => if String.eqb cs "" then skill else cs
| None => skill
end.

Definition enhanceAnalysisWithJobInsights (analysis : ResumeAnalysisOf Txt Sec)
(jobRole : string) : Result (ResumeAnalysisOf Txt Sec) :=
match findRole jobRole with
| Some predefinedRole =>
let commonSkills' := map toLowerCase (commonSkills predefinedRole) in
found <- findM (fun section => n <- nameLowered entries section ;; Ok (includes n "skill"))
             (sections analysis) ;;
resumeText <-
match found with
| Some section => t <- feedbackJoined entries section ;; Ok (toLowerCase t)
| None => Ok ""
end ;;
let present := missingSkills (keyFindings analysis) in
missingCommonSkills <-
filterM (fun skill =>
           if includes resumeText (toLowerCase skill) then Ok false
           else b <- someMentions "missing" (toLowerCase skill) present ;; Ok (negb b))
        commonSkills' ;;
let analysis' :=
if Nat.ltb 0 (List.length missingCommonSkills) then
  let newMissingSkills :=
    filter (fun skill => negb (existsb (fun x => sameAs entries x skill) present))
           (map (catalogSpelling predefinedRole) missingCommonSkills) in
  withMissingSkills analysis (present ++ map (ofString entries) newMissingSkills)%list
else analysis in
roleSpecificRecommendations <-
generateRoleSpecificRecommendations predefinedRole analysis' ;;
Ok (withRecommendations analysis'
    (recommendations (jobAlignment analysis')
       ++ map (ofString entries) roleSpecificRecommendations)%list)
| None => Ok analysis
end.
End Enricher.

(** *** Quick score *)

Definition isPhoneSeparator (c : ascii) : bool :=
Ascii.eqb c "-"%char || Ascii.eqb c "."%char.

(** [\d{n}]: the input after [n] digits *)
Fixpoint digits (n : nat) (s : string) : option string :=
match n with
| O => Some s
| S k =>
  match s with
  | String c r => if isDigit c then digits k r else None
  | EmptyString => None
  end
end.

(** [[-.]?]: a separator is taken when there is one (without it the next
[\d] would have to match the separator) *)
Definition optionalSeparator (s : string) : string :=
match s with
| String c r => if isPhoneSeparator c then r else s
| EmptyString => s
end.

(** [/\d{3}[-.]?\d{3}[-.]?\d{4}/] *)
Definition phoneNumber : matcher :=
fun _ s =>
match digits 3 s with
| Some r1 =>
    match digits 3 (optionalSeparator r1) with
    | Some r2 =>
        match digits 4 (optionalSeparator r2) with
        | Some r3 => Some (String.length s - String.length r3)
        | None => None
        end
    | None => None
    end
| None => None
end.

(** [\b] between the unit before the position and the input after it *)
Definition wordBoundary (prev : option ascii) (s : string) : bool :=
xorb (match prev with Some c => isWord c | None => false end)
   (match s with String c _ => isWord c | EmptyString => false end).

(** the alternatives of a group followed by [\b], tried in order *)
Fixpoint firstAlternative (alternatives : list string) (prev : option ascii) (s : string)
: option nat :=
match alternatives with
| [] => None
| t :: rest =>
  if startsWith s t && wordBoundary (lastUnit prev t) (dropUnits (String.length t) s)
  then Some (String.length t)
  else firstAlternative rest prev s
end.

Definition technicalTerms : list string :=
["javascript"; "python"; "java"; "sql"; "excel"; "project management"; "leadership"].

(** [/\b(javascript|python|java|sql|excel|project management|leadership)\b/g] *)
Definition technicalTerm : matcher :=
fun prev s => if wordBoundary prev s then firstAlternative technicalTerms prev s else None.

Definition experienceKeywords : list string :=
["experience"; "worked"; "managed"; "led"; "developed"; "created"; "achieved"].

(** [s.split(/\s+/).length]: one piece more than there are runs of white space *)
Definition splitLength (s : string) : nat := S (countAll spaces s).

Local Open Scope Z_scope.

Definition generateQuickScore (resumeContent : string) : Z :=
let content := toLowerCase resumeContent in
let wordCount := Z.of_nat (splitLength resumeContent) in
let score := 0 in
let score := if 150 <? wordCount then score + 10 else score in
let score := if 300 <? wordCount then score + 10 else score in
let score := if 500 <? wordCount then score + 10 else score in
let score := if includes content "@" || includes content "email" then score + 10 else score in
let score := if test phoneNumber content then score + 10 else score in
let experienceMatches :=
Z.of_nat (List.length (filter (fun keyword => includes content keyword) experienceKeywords)) in
let score := score + Z.min 15 (experienceMatches * 2) in
let score := if includes content "education" || includes content "degree"
              || includes content "university" then score + 5 else score in
let score := if includes content "bachelor" || includes content "master"
              || includes content "phd" then score + 5 else score in
let score := if includes content "skills" || includes content "technical"
           then score + 5 else score in
let skillsCount := Z.of_nat (countAll technicalTerm content) in
let score := score + Z.min 5 skillsCount in
Z.min 100 score.

Local Close Scope Z_scope.

(** *** Analysis requester *)

(** The requests sent to the external scoring service, oldest first:
each is the pair of the system and the user instruction. *)
Definition Trace : Type := list (string * string).

(** An [async] computation: from the requests sent so far to its outcome
and the requests sent when it settles. *)
Definition Async (A : Type) : Type := Trace -> Result A * Trace.

Definition resolve {A : Type} (a : A) : Async A := fun tr => (Ok a, tr).
Definition reject {A : Type} (e : JsError) : Async A := fun tr => (Throw e, tr).
Definition settle {A : Type} (r : Result A) : Async A := fun tr => (r, tr).

Definition await {A B : Type} (c : Async A) (k : A -> Async B) : Async B :=
fun tr =>
match c tr with
| (Ok a, tr') => k a tr'
| (Throw e, tr') => (Throw e, tr')
end.

(** [try { c } catch (error) { handler error }] *)
Definition tryCatch {A : Type} (c : Async A) (handler : JsError -> Async A) : Async A :=
fun tr =>
match c tr with
| (Ok a, tr') => (Ok a, tr')
| (Throw e, tr') => handler e tr'
end.

Notation "x <~ c ;; k" := (await c (fun x => k))
(at level 61, c at next level, right associativity).

Section Requester.
Variable NumberToString : JsNum -> string.
Variable StringToNumber : string -> JsNum.
(** [process.env.OPENAI_API_KEY] *)
Variable OPENAI_API_KEY : option string.
(** the system prompt, and the fixed tail of the user prompt (from
[**Instructions:**] on: the task and the JSON schema asked for) *)
Variable RESUME_ANALYSIS_SYSTEM_PROMPT : string.
Variable ANALYSIS_INSTRUCTIONS : string.
(** The external service: what [openai.chat.completions.create] answers
to a system and a user instruction, read at
[choices[0]?.message?.content]. *)
Variable chatCompletion : string -> string -> Result (option string).
Variable JSON_parse : string -> Result JsValue.
(** the message of the [TypeError] for calling the named member, which is
not a function *)
Variable notAFunction : string -> string.

Definition createResumeAnalysisPrompt (resumeContent jobRole : string)
(jobDescription : option string) : string :=
let jobContext :=
match jobDescription with
| Some d =>
if String.eqb d ""
then "**Target Job Role:** " ++ jobRole ++ NLNL
else "**Target Job Description:**" ++ NL ++ d ++ NLNL
| None => "**Target Job Role:** " ++ jobRole ++ NLNL
end in
jobContext ++ "**Resume Content:**" ++ NL ++ resumeContent ++ NLNL ++ ANALYSIS_INSTRUCTIONS.

Definition validateOpenAIKey : bool :=
match OPENAI_API_KEY with
| Some apiKey =>
Nat.ltb 0 (String.length apiKey) && negb (String.eqb apiKey "your-openai-api-key-here")
| None => false
end.

(** the one place where the external service is invoked *)
Definition request (systemPrompt prompt : string) : Async (option string) :=
fun tr => (chatCompletion systemPrompt prompt, (tr ++ [(systemPrompt, prompt)])%list).

Definition callOpenAI (prompt : string) : Async JsValue :=
tryCatch
(if negb validateOpenAIKey then
reject (Error "OpenAI API key is not configured. Please set OPENAI_API_KEY environment variable.")
else
response <~ request RESUME_ANALYSIS_SYSTEM_PROMPT prompt ;;
match response with
| Some r =>
   if String.eqb r "" then reject (Error "No response received from OpenAI API")
   else settle (JSON_parse r)
| None => reject (Error "No response received from OpenAI API")
end)
(fun error => reject error).

Definition analyzeResume (resumeInput : ResumeInput) (jobRole : string)
(jobDescription : option string) : Async (ResumeAnalysisOf JsValue JsValue) :=
tryCatch
(if String.eqb (content resumeInput) ""
|| Nat.ltb (String.length (trim (content resumeInput))) 100 then
reject (Error "Resume content is too short or empty. Please provide a complete resume.")
else if String.eqb jobRole "" || Nat.eqb (String.length (trim jobRole)) 0 then
reject (Error "Job role is required for targeted analysis.")
else
let prompt := createResumeAnalysisPrompt (content resumeInput) jobRole jobDescription in
rawAnalysis <~ callOpenAI prompt ;;
analysis <~ settle (validateAndStructureAnalysis NumberToString StringToNumber rawAnalysis) ;;
enhancedAnalysis <~
 settle (enhanceAnalysisWithJobInsights (untyped NumberToString notAFunction) analysis jobRole) ;;
resolve enhancedAnalysis)
(fun error => reject (Error ("Failed to analyze resume: " ++ messageOf error))).
End Requester.

(** The status the route [POST /api/analyze-resume] answers with when
[analyzeResume] rejects with an error of this message. *)
Definition statusCodeOf (message : string) : nat :=
if includes message "API key" then 503
else if includes message "too short" || includes message "required" then 400
else if includes message "timeout" || includes message "rate limit" then 429
else 500.

End Analyzer.

(** ** [lib/pdf-parser.ts]: the sections of a resume *)

Module Sections.
Import Js Json PdfParser.

(** [text.split('\n')] *)
Fixpoint splitLines (s : string) : list string :=
match s with
| EmptyString => [EmptyString]
| String c r =>
  if isLF c then EmptyString :: splitLines r
  else match splitLines r with
       | l :: ls => String c l :: ls
       | [] => [String c EmptyString]
       end
end.

(** The header patterns have the form [/^(a|b|...)[\s:]*$/im], every
alternative a sequence of words, of [\s+] and of optional letters. *)
Inductive Token : Type :=
| Word (w : string)     (* lower-case letters, matched under the [i] flag *)
| Spaces                (* [\s+] *)
| Maybe (p : ascii).    (* [p?] *)

Definition Pattern : Type := list (list Token).

(** Under the [i] flag a code unit of U+0000..U+00FF matches a lower-case
ASCII letter of the pattern when it is that letter or its capital. *)
Definition sameLetter (c p : ascii) : bool := Ascii.eqb (lowerChar c) p.

(** the input after the word [w], if it starts with it *)
Fixpoint afterWord (w s : string) {struct w} : option string :=
match w, s with
| EmptyString, _ => Some s
| String p w', String c s' => if sameLetter c p then afterWord w' s' else None
| String _ _, EmptyString => None
end.

(** the inputs [\s+] may leave, the greedy choice first *)
Fixpoint afterSpaces (s : string) : list string :=
match s with
| String c r => if isSpace c then (afterSpaces r ++ [r])%list else []
| EmptyString => []
end.

(** the inputs a token may leave, in the order the backtracking engine
tries them *)
Definition afterToken (t : Token) (s : string) : list string :=
match t with
| Word w =>
  match afterWord w s with
  | Some r => [r]
  | None => []
  end
| Spaces => afterSpaces s
| Maybe p =>
  match s with
  | String c r => if sameLetter c p then [r; s] else [s]
  | EmptyString => [s]
  end
end.

Fixpoint afterTokens (tokens : list Token) (s : string) : list string :=
match tokens with
| [] => [s]
| t :: rest => flat_map (afterTokens rest) (afterToken t s)
end.

(** [[\s:]*$] under the [m] flag: colons and white space up to the end of
the input or to a line terminator *)
Fixpoint toLineEnd (s : string) : bool :=
match s with
| EmptyString => true
| String c r => isLineTerminator c || ((isSpace c || Ascii.eqb c ":") && toLineEnd r)
end.

(** the pattern matches at this position: [^] holds, an alternative
matches and the rest of the line is colons and white space *)
Definition headerAt (alternatives : Pattern) (prev : option ascii) (s : string) : bool :=
atLineStart prev &&
existsb (fun tokens => existsb toLineEnd (afterTokens tokens s)) alternatives.

(** [pattern.test(s)]: the pattern matches at some position *)
Fixpoint testPatternFrom (alternatives : Pattern) (prev : option ascii) (s : string) : bool :=
headerAt alternatives prev s ||
match s with
| String c r => testPatternFrom alternatives (Some c) r
| EmptyString => false
end.

Definition testPattern (alternatives : Pattern) (s : string) : bool :=
testPatternFrom alternatives None s.

Definition sectionPatterns : list (string * Pattern) :=
[ ("contact",
 [ [Word "contact"];
   [Word "personal"; Spaces; Word "information"];
   [Word "contact"; Spaces; Word "information"] ]);
("summary",
 [ [Word "summary"];
   [Word "professional"; Spaces; Word "summary"];
   [Word "profile"];
   [Word "objective"];
   [Word "career"; Spaces; Word "objective"] ]);
("experience",
 [ [Word "experience"];
   [Word "work"; Spaces; Word "experience"];
   [Word "professional"; Spaces; Word "experience"];
   [Word "employment"] ]);
("education",
 [ [Word "education"];
   [Word "academic"; Spaces; Word "background"];
   [Word "educational"; Spaces; Word "background"] ]);
("skills",
 [ [Word "skills"];
   [Word "technical"; Spaces; Word "skills"];
   [Word "core"; Spaces; Word "competencies"];
   [Word "expertise"] ]);
("projects",
 [ [Word "projects"];
   [Word "personal"; Spaces; Word "projects"];
   [Word "key"; Spaces; Word "projects"];
   [Word "project"; Spaces; Word "experience"] ]);
("certifications",
 [ [Word "certification"; Maybe "s"];
   [Word "license"; Maybe "s"];
   [Word "professional"; Spaces; Word "certification"; Maybe "s"] ]) ].

(** the section a header line opens: the first pattern that matches it *)
Definition headerOf (trimmedLine : string) : option string :=
option_map fst (find (fun entry => testPattern (snd entry) trimmedLine) sectionPatterns).

(** [sectionContent]: the lines of each section, in the order of its keys *)
Definition Content : Type := list (string * list string).

Definition emptyContent : Content :=
[ ("contact", []); ("summary", []); ("experience", []); ("education", []);
("skills", []); ("projects", []); ("certifications", []); ("other", []) ].

(** [sectionContent[key].push(line)] *)
Fixpoint push (key line : string) (content : Content) : Result Content :=
match content with
| [] => Throw (TypeError "Cannot read properties of undefined (reading 'push')")
| (k, v) :: rest =>
  if String.eqb k key then Ok ((k, (v ++ [line])%list) :: rest)
  else bind (push key line rest) (fun rest' => Ok ((k, v) :: rest'))
end.

(** the loop over the lines *)
Fixpoint collect (lines : list string) (currentSection : string) (content : Content)
: Result Content :=
match lines with
| [] => Ok content
| line :: rest =>
  let trimmedLine := trim line in
  if String.eqb trimmedLine "" then collect rest currentSection content
  else
    match headerOf trimmedLine with
    | Some sectionName => collect rest sectionName content
    | None =>
        bind (push currentSection trimmedLine content) (fun content' =>
        collect rest currentSection content')
    end
end.

Definition extractResumeSections (text : string) : Result (list (string * string)) :=
bind (collect (splitLines text) "other" emptyContent) (fun sectionContent =>
Ok (map (fun entry => (fst entry, trim (join NL (snd entry)))) sectionContent)).

End Sections.

(** ** [lib/pdf-parser.ts]: parsing, and the route [POST /api/parse-pdf] *)

Module Parser.
Import Js Json PdfParser.

(** What a call into a library may throw: an [Error], which has a
message, or any other value. *)
Inductive Thrown : Type :=
| AnError (message : string)
| NotAnError.

Inductive Outcome (A : Type) : Type :=
| Returned (a : A)
| Raised (t : Thrown).
Arguments Returned {A} a.
Arguments Raised {A} t.

Definition andThen {A B : Type} (o : Outcome A) (k : A -> Outcome B) : Outcome B :=
match o with
| Returned a => k a
| Raised t => Raised t
end.

(** [try { o } catch (error) { handler error }] *)
Definition catching {A : Type} (o : Outcome A) (handler : Thrown -> Outcome A) : Outcome A :=
match o with
| Returned a => Returned a
| Raised t => handler t
end.

(** what [pdf-parse] answers: the fields [parsePDFBuffer] reads *)
Record PdfData : Type := {
dataText : string;
numpages : JsNum;
info : JsValue
}.

Record Metadata : Type := {
pages : JsNum;
metadataInfo : JsValue
}.

Record PDFParseResult : Type := {
success : bool;
text : option string;
parseError : option string;   (* [error] *)
metadata : option Metadata
}.

Definition failed (message : string) : PDFParseResult :=
{| success := false; text := None; parseError := Some message; metadata := None |}.

(** the message [parsePDFBuffer] answers a thrown value with *)
Definition errorMessageOf (error : Thrown) : string :=
match error with
| AnError message =>
  if includes message "Invalid PDF" then
    "Invalid PDF file format. Please ensure the file is a valid PDF."
  else if includes message "password" then
    "Password-protected PDFs are not supported. Please upload an unprotected PDF."
  else if includes message "corrupted" then
    "PDF file appears to be corrupted. Please try uploading a different file."
  else "Failed to parse PDF file"
| NotAnError => "Failed to parse PDF file"
end.

Section Parsing.
(** The library [pdf-parse]: the outcome of importing it, and what its
default export answers on a buffer. *)
Variable pdfParseModule : Outcome (Buffer -> Outcome PdfData).

Definition parsePDFBuffer (buffer : Buffer) : Outcome PDFParseResult :=
catching
(andThen pdfParseModule (fun pdfParse =>
if Nat.eqb (List.length buffer) 0 then
Returned (failed "Empty or invalid PDF buffer provided")
else
andThen (pdfParse buffer) (fun data =>
if String.eqb (dataText data) ""
  || Nat.eqb (String.length (trim (dataText data))) 0 then
 Returned (failed "No text content found in PDF. This might be a scanned document or image-based PDF.")
else
 Returned {| success := true;
             text := Some (trim (dataText data));
             parseError := None;
             metadata := Some {| pages := numpages data;
                                 metadataInfo := info data |} |})))
(fun error => Returned (failed (errorMessageOf error))).

(** *** The route *)

(** the units after the last comma of the first line, if it has one: what
[.*,] leaves, greedy *)
Fixpoint afterLastComma (s : string) : option string :=
match s with
| EmptyString => None
| String c r =>
if isLineTerminator c then None
else match afterLastComma r with
   | Some t => Some t
   | None => if Ascii.eqb c "," then Some r else None
   end
end.

(** [fileData.replace(/^data:.*,/, '')] *)
Definition stripDataPrefix (fileData : string) : string :=
if startsWith fileData "data:" then
match afterLastComma (dropUnits 5 fileData) with
| Some rest => rest
| None => fileData
end
else fileData.

(** the [error] of a response: a message, or the error of the validation *)
Inductive RouteError : Type :=
| Message (message : string)
| Invalid (error : PdfError).

Inductive ResponseBody : Type :=
| Succeeded (cleanedText : string) (filename : JsValue) (metadata : option Metadata)
| Refused (error : option RouteError).

Record Response : Type := { status : nat; body : ResponseBody }.

Definition refuse (status : nat) (error : RouteError) : Response :=
{| status := status; body := Refused (Some error) |}.

(** [Buffer.from(s, 'base64')], and the message of the [TypeError] the
engine raises when the members of [null] or [undefined] are taken
apart *)
Variable fromBase64 : string -> Buffer.
Variable destructuringMessage : JsValue -> string.

(** [POST]: [requestJson] is what [request.json()] settles to; the import of
the program's own module [@/lib/pdf-parser] is taken to succeed *)
Definition POST (requestJson : Outcome JsValue) : Outcome Response :=
catching
(andThen requestJson (fun json =>
if nullish json then Raised (AnError (destructuringMessage json))
else
let fileData := field json "fileData" in
let filename := field json "filename" in
if negb (truthy fileData) then
 Returned (refuse 400 (Message "No file data provided"))
else
 match fileData with
 | JString data =>
     let buffer := fromBase64 (stripDataPrefix data) in
     let validation := validatePDFFile buffer (inject_Z 10) in
     if negb (valid validation) then
       Returned {| status := 400;
                   body := Refused (option_map Invalid (error validation)) |}
     else
       andThen (parsePDFBuffer buffer) (fun parseResult =>
       if negb (success parseResult) then
         Returned {| status := 400;
                     body := Refused (option_map Message (parseError parseResult)) |}
       else
         let cleanedText :=
           cleanExtractedText (match text parseResult with
                               | Some t => if String.eqb t "" then "" else t
                               | None => ""
                               end) in
         if String.eqb cleanedText "" || Nat.ltb (String.length cleanedText) 50 then
           Returned (refuse 400 (Message "Extracted text is too short or empty. Please ensure your PDF contains readable text content."))
         else
           Returned {| status := 200;
                       body := Succeeded cleanedText
                                 (orElse filename (JString "resume.pdf"))
                                 (metadata parseResult) |})
 | _ => Returned (refuse 400 (Message "Invalid file data format"))
 end))
(fun error =>
Returned (refuse 500 (Message (match error with
                            | AnError message => message
                            | NotAnError => "Failed to process PDF file"
                            end)))).
End Parsing.

End Parser.

(** ** The route [POST /api/analyze-resume] *)

Module AnalyzeRoute.
Import Js Json Types Analyzer Parser.

(** the body of a response: [AnalysisResponse] *)
Inductive AnalysisBody : Type :=
| Analyzed (analysis : ResumeAnalysisOf JsValue JsValue) (processingTime : JsNum)
| Rejected (error : string) (processingTime : option JsNum).

Record AnalysisResponse : Type := { statusCode : nat; answer : AnalysisBody }.

(** the message the [catch] block answers an [Error] of this message with *)
Definition errorMessageFor (message : string) : string :=
if includes message "API key" then
"AI analysis service is temporarily unavailable. Please try again later."
else if includes message "too short" || includes message "required" then message
else if includes message "timeout" || includes message "rate limit" then
"Service is busy. Please try again in a few minutes."
else message.

Section Route.
Variable NumberToString : JsNum -> string.
Variable StringToNumber : string -> JsNum.
Variable OPENAI_API_KEY : option string.
Variable RESUME_ANALYSIS_SYSTEM_PROMPT : string.
Variable ANALYSIS_INSTRUCTIONS : string.
Variable chatCompletion : string -> string -> Result (option string).
Variable JSON_parse : string -> Result JsValue.
(** The messages of the [TypeError]s of the engine that name a piece of
the program: taking apart the members of [null] or [undefined], and
calling a member that is not a function. *)
Variable destructuringMessage : JsValue -> string.
Variable notAFunction : string -> string.
(** [Date.now() - startTime] *)
Variable processingTime : JsNum.
(** What the nested request to [/api/parse-pdf] settles to: it throws, its
response is not [ok] ([None]), or the body of the response is read. *)
Variable reparse : Outcome (option JsValue).

(** a handler step: from the requests sent to the scoring service so far
to an outcome and the requests sent after it *)
Definition Step (A : Type) : Type := Trace -> Outcome A * Trace.

Definition answered (status : nat) (error : string) : Step AnalysisResponse :=
fun sent => (Returned {| statusCode := status; answer := Rejected error None |}, sent).

Definition thrown {A : Type} (message : string) : Step A :=
fun sent => (Raised (AnError message), sent).

(** the text the analysis runs on: the trimmed content, or what the nested
request extracted from a PDF that was handed in unparsed *)
Definition finalResumeContent (resume : JsValue) (content : string) : JsValue :=
let resumeContent := trim content in
match field resume "type" with
| JString kind =>
if String.eqb kind "pdf" && Nat.ltb 1000 (String.length content)
 && negb (includes content NL) then
match reparse with
| Returned (Some parseResult) =>
    if nullish parseResult then JString resumeContent
    else if truthy (field parseResult "success") then field parseResult "text"
    else JString resumeContent
| _ => JString resumeContent
end
else JString resumeContent
| _ => JString resumeContent
end.

(** [structuredResume]; the analysis reads its [content] only *)
Definition structuredResume (resume : JsValue) (content : string) : ResumeInput :=
{| content := content;
filename := match field resume "filename" with
         | JString name => Some name
         | _ => None
         end;
type := match field resume "type" with
     | JString kind => if String.eqb kind "pdf" then pdf else Types.text
     | _ => Types.text
     end |}.

(** [analyzeResume] as the route awaits it *)
Definition analyze (resumeInput : ResumeInput) (jobRole : string)
(jobDescription : option string) : Step (ResumeAnalysisOf JsValue JsValue) :=
fun sent =>
match analyzeResume NumberToString StringToNumber OPENAI_API_KEY
    RESUME_ANALYSIS_SYSTEM_PROMPT ANALYSIS_INSTRUCTIONS chatCompletion JSON_parse
    notAFunction resumeInput jobRole jobDescription sent with
| (Ok analysis, sent') => (Returned analysis, sent')
| (Throw e, sent') => (Raised (AnError (messageOf e)), sent')
end.

(** the [try] block *)
Definition attempt (requestJson : Outcome JsValue) : Step AnalysisResponse :=
if negb (validateOpenAIKey OPENAI_API_KEY) then
answered 503 "AI analysis service is not configured. Please contact the administrator."
else
match requestJson with
| Raised t => fun sent => (Raised t, sent)
| Returned json =>
if nullish json then thrown (destructuringMessage json)
else
let resume := field json "resume" in
let jobRole := field json "jobRole" in
let jobDescription := field json "jobDescription" in
if negb (truthy resume) || negb (truthy (field resume "content")) then
  answered 400 "Resume content is required"
else if negb (truthy jobRole) then answered 400 "Job role is required"
else
  match jobRole with
  | JString role =>
    if Nat.eqb (String.length (trim role)) 0 then answered 400 "Job role is required"
    else
      match field resume "content" with
      | JString content =>
        if Nat.ltb (String.length (trim content)) 100 then
          answered 400 "Resume content is too short. Please provide a complete resume with at least 100 characters."
        else
          match finalResumeContent resume content with
          | JString final =>
            if Z.ltb (generateQuickScore final) 20 then
              answered 400 "Resume content appears to be incomplete or improperly formatted. Please ensure your resume includes contact information, experience, and skills sections."
            else
              let run description : Step AnalysisResponse :=
                fun sent =>
                  match analyze (structuredResume resume final) (trim role) description
                          sent with
                  | (Returned analysis, sent') =>
                      (Returned {| statusCode := 200;
                                   answer := Analyzed analysis processingTime |}, sent')
                  | (Raised t, sent') => (Raised t, sent')
                  end in
              match jobDescription with
              | JUndefined | JNull => run None
              | JString description => run (Some (trim description))
              | _ => thrown (notAFunction "jobDescription?.trim")
              end
          | JUndefined =>
            thrown "Cannot read properties of undefined (reading 'toLowerCase')"
          | JNull => thrown "Cannot read properties of null (reading 'toLowerCase')"
          | _ => thrown (notAFunction "resumeContent.toLowerCase")
          end
      | _ => thrown (notAFunction "resume.content.trim")
      end
  | _ => thrown (notAFunction "jobRole.trim")
  end
end.

(** [POST]: [requestJson] is what [request.json()] settles to *)
Definition POST (requestJson : Outcome JsValue) : Trace -> AnalysisResponse * Trace :=
fun sent =>
match attempt requestJson sent with
| (Returned response, sent') => (response, sent')
| (Raised (AnError message), sent') =>
({| statusCode := statusCodeOf message;
    answer := Rejected (errorMessageFor message) (Some processingTime) |}, sent')
| (Raised NotAnError, sent') =>
({| statusCode := 500;
    answer := Rejected "Failed to analyze resume. Please try again."
                (Some processingTime) |}, sent')
end.
End Route.

End AnalyzeRoute.

(** * Vocabulary of the properties *)

Import Js Json PdfParser Types Analyzer.

(** ** PDF validation *)

(** the five bytes of the marker [%PDF-] *)
Definition pdfMagic : Buffer :=
  [Byte.x25; Byte.x50; Byte.x44; Byte.x46; Byte.x2d].

(** the default ceiling, 10 MB of 1024 * 1024 bytes *)
Definition ceilingBytes : Z := 10 * (1024 * 1024).

Definition size (buffer : Buffer) : Z := Z.of_nat (List.length buffer).

Definition rejected (e : PdfError) : Validation := {| valid := false; error := Some e |}.

Definition accepted : Validation := {| valid := true; error := None |}.

(** ** Payload normalizer *)

(** [undefined], [null], a boolean or a number: the values whose ToNumber
    needs neither StringToNumber nor ToPrimitive *)
Definition isScalar (v : JsValue) : bool :=
  match v with
  | JUndefined | JNull | JBool _ | JNumber _ => true
  | JString _ | JArray _ | JObject _ => false
  end.

Definition inRange (lo hi : Z) (n : JsNum) : Prop :=
  match n with
  | Fin q => (inject_Z lo <= q /\ q <= inject_Z hi)%Q
  | _ => False
  end.

(** a complete section entry whose score is 999 *)
Definition overscoredSection : JsValue :=
  JObject [("name", JString "Skills"); ("score", JNumber (num 999));
           ("maxScore", JNumber (num 10)); ("feedback", JArray []);
           ("suggestions", JArray []); ("strengths", JArray []); ("issues", JArray [])].

Definition overscoredPayload : JsValue :=
  JObject [("overallScore", JNumber (num 150)); ("summary", JString "ok");
           ("sections", JArray [overscoredSection]);
           ("keyFindings", JObject [("atsCompatibility", JNumber (num (-3)))]);
           ("jobAlignment", JObject [("matchScore", JNumber (Fin (15 # 2)))])].

(** an engine whose numeric conversions are never consulted *)
Definition noNumberToString : JsNum -> string := fun _ => "".

Definition noStringToNumber : string -> JsNum := fun _ => NaN.

(** ** Enricher *)

(** The text the enricher searches for skills: the joined, lower-cased
    feedback of the first section whose name contains "skill". *)
Definition skillsText (analysis : ResumeAnalysis) : string :=
  match find (fun section => includes (toLowerCase (name section)) "skill") (sections analysis) with
  | Some section => toLowerCase (join " " (feedback section))
  | None => ""
  end.

(** A catalog skill counts as absent when it occurs, lower-cased, neither in
    [skillsText] nor inside an entry of the missing-skills list. *)
Definition skillAbsent (analysis : ResumeAnalysis) (skill : string) : bool :=
  negb (includes (skillsText analysis) (toLowerCase skill)) &&
  negb (existsb (fun missing => includes (toLowerCase missing) (toLowerCase skill))
                (missingSkills (keyFindings analysis))).

(** Every catalog skill is spelled back from its lower-cased form. *)
Definition spelledBack (role : JobRole) : bool :=
  forallb (fun skill => String.eqb (catalogSpelling role (toLowerCase skill)) skill)
          (commonSkills role).

(** the test of [missingCommonSkills], on a lower-cased skill *)
Definition absentLowered (analysis : ResumeAnalysis) (skill : string) : bool :=
  if includes (skillsText analysis) (toLowerCase skill) then false
  else negb (existsb (fun missing => includes (toLowerCase missing) (toLowerCase skill))
                     (missingSkills (keyFindings analysis))).

(** The enricher on an analysis of the declared type, role found. *)
Definition enriched (analysis : ResumeAnalysis) (role : JobRole) (recs : list string)
  : ResumeAnalysis :=
  withRecommendations
    (withMissingSkills analysis
       (missingSkills (keyFindings analysis) ++ filter (skillAbsent analysis) (commonSkills role)))
    (recommendations (jobAlignment analysis) ++ recs).

Definition knownCategories : list string :=
  ["technology"; "management"; "design"; "marketing"; "sales"; "analysis"].

(** ** Role lookup *)

(** The slug in the words of the specification: every run of white space
    becomes one hyphen. *)
Fixpoint hyphenateRuns (inRun : bool) (s : string) : string :=
  match s with
  | EmptyString => EmptyString
  | String c r =>
      if isSpace c
      then if inRun then hyphenateRuns true r else String "-" (hyphenateRuns true r)
      else String c (hyphenateRuns false r)
  end.

Definition hyphenated (jobRole : string) : string :=
  hyphenateRuns false (toLowerCase jobRole).

Definition dataScientist : JobRole :=
  {| id := "data-scientist"; title := "Data Scientist"; category := "Technology";
     commonSkills := ["Python"; "R"; "SQL"; "Machine Learning"; "Statistics";
                      "Data Visualization"; "TensorFlow"; "Pandas"; "Numpy"] |}.

(** Scenario C: for the title "data scientist" and a skills section that
    speaks of Python and SQL, the catalog skills found in neither place are
    appended ("R" is not: the letter occurs in "Docker"). *)
Definition sampleAnalysis : ResumeAnalysis :=
  {| overallScore := num 62; maxOverallScore := num 100; summary := "Solid profile.";
     sections :=
       [ {| name := "Technical Skills"; score := num 7; maxScore := num 10;
            feedback := ["Lists Python and SQL"; "No tooling depth"];
            suggestions := []; sectionStrengths := []; issues := [] |} ];
     keyFindings :=
       {| strengths := ["Clear layout"]; majorIssues := []; missingSkills := ["Docker"];
          atsCompatibility := num 8; improvementPriority := [] |};
     jobAlignment :=
       {| matchScore := num 6; relevantExperience := []; skillGaps := [];
          recommendations := ["Tailor the summary"] |} |}.

(** ** Quick score *)

(** A text is said to mention a word when its lower-cased form contains it. *)
Definition mentions (resumeContent word : string) : bool :=
  includes (toLowerCase resumeContent) word.

(** the words of the rubric: experience, education, degree, skills and
    technical terms *)
Definition rubricKeywords : list string :=
  (experienceKeywords
     ++ ["education"; "degree"; "university"; "bachelor"; "master"; "phd"; "skills"; "technical"]
     ++ technicalTerms)%list.

(** A text has the format of a template when it has a digit wherever the
    template has one and the template's own character everywhere else. *)
Fixpoint hasFormat (template p : string) : bool :=
  match template, p with
  | EmptyString, EmptyString => true
  | String t template', String c p' =>
      (if isDigit t then isDigit c else Ascii.eqb c t) && hasFormat template' p'
  | _, _ => false
  end.

(** a phone number in the format 555-123-4567 *)
Definition phoneFormatted (p : string) : bool := hasFormat "555-123-4567" p.

Fixpoint repeatWord (word : string) (n : nat) : string :=
  match n with
  | O => ""
  | S O => word
  | S k => word ++ " " ++ repeatWord word k
  end.

Definition fortyWords : string := repeatWord "lorem" 40.

Definition sixHundredWords : string :=
  "Jane Doe jane@example.com 555-123-4567 Experience: managed a team, led releases and developed tools. Bachelor of Science. Skills: Python, SQL "
  ++ repeatWord "lorem" 581.

(** ** Request *)

(** a text of 120 characters with an e-mail address and an experience line *)
Definition shortResume : ResumeInput :=
  {| content := "Jane Doe jane@example.com Experience: five years of backend development at Acme Corp, building data pipelines and tools.";
     filename := None;
     type := text |}.

(** ** Text normalizer: lengths *)

(** a match lies inside the input and its replacement is no longer *)
Definition shrinking (m : matcher) (tpl : string -> string) : Prop :=
  forall prev s k, m prev s = Some k ->
    k <= String.length s /\ String.length (tpl (takeUnits k s)) <= k.

(** the first unit of a text *)
Definition firstUnit (s : string) : option ascii :=
  match s with
  | String c _ => Some c
  | EmptyString => None
  end.

(** the number of places where two word units are adjacent *)
Fixpoint wordJunctions (s : string) : nat :=
  match s with
  | String a r =>
      (match firstUnit r with
       | Some b => if isWord a && isWord b then 1 else 0
       | None => 0
       end) + wordJunctions r
  | EmptyString => 0
  end.

(** The eleven steps, named by the text they produce. *)
Definition unprintableDropped (text : string) : string :=
  dropUnprintable (collapseBlanks (collapseNewlines (unifyCR (unifyCRLF text)))).

Definition wordsSplit (text : string) : string :=
  splitAfterDigit (splitBeforeDigit (splitCamelCase text)).

(** ** Text normalizer: positions *)

(** [everywhere P prev s]: [P] holds at every position of [s], each
    position being given as the unit before it and the text from it on. *)
Fixpoint everywhere (P : option ascii -> string -> Prop) (prev : option ascii) (s : string)
  : Prop :=
  P prev s /\
  match s with
  | String c r => everywhere P (Some c) r
  | EmptyString => True
  end.

Fixpoint allUnits (p : ascii -> bool) (s : string) : bool :=
  match s with
  | String c r => p c && allUnits p r
  | EmptyString => true
  end.

(** at a position the replacement, if any, is the matched text itself *)
Definition stable (m : matcher) (tpl : string -> string) (prev : option ascii) (s : string)
  : Prop :=
  match m prev s with
  | Some k => k <= String.length s /\ tpl (takeUnits k s) = takeUnits k s
  | None => True
  end.

(** at a position nothing is matched *)
Definition silent (m : matcher) (prev : option ascii) (s : string) : Prop := m prev s = None.

(** ** Printable texts *)

Definition printableText (s : string) : bool := allUnits isPrintable s.

(** ** Adjacent units *)

Definition joint (R : ascii -> ascii -> bool) (o x : option ascii) : bool :=
  match o, x with
  | Some a, Some b => R a b
  | _, _ => false
  end.

(** no two adjacent units of [s] are related by [R], nor are [o], the unit
    before [s], and the first unit of [s] *)
Fixpoint noAdjacent (R : ascii -> ascii -> bool) (o : option ascii) (s : string) : bool :=
  match s with
  | String c r => negb (joint R o (Some c)) && noAdjacent R (Some c) r
  | EmptyString => true
  end.

(** the pairs the steps of the normalizer are about *)
Definition blankPair (a b : ascii) : bool := isBlank a && isBlank b.

Definition camelPair (a b : ascii) : bool := isLower a && isUpper b.

Definition isLetter (c : ascii) : bool := isWord c && negb (isDigit c).

Definition digitLetter (a b : ascii) : bool := isDigit a && isLetter b.

Definition letterDigit (a b : ascii) : bool := isLetter a && isDigit b.

Definition digitWord (a b : ascii) : bool := isDigit a && isWord b.

(** whatever may follow [prev] may follow [o] *)
Definition safer (R : ascii -> ascii -> bool) (o prev : option ascii) : Prop :=
  forall c, joint R prev c = false -> joint R o c = false.

(** A replacement is harmless when it holds no related pair, not even
    with the output before it, and what may follow the matched text may
    follow it. *)
Definition harmless (m : matcher) (tpl : string -> string) (R : ascii -> ascii -> bool) : Prop :=
  forall prev s k o,
    m prev s = Some k -> noAdjacent R prev s = true -> safer R o prev ->
    k <= String.length s /\
    noAdjacent R o (tpl (takeUnits k s)) = true /\
    safer R (lastUnit o (tpl (takeUnits k s))) (lastUnit prev (takeUnits k s)).

(** a relation that a given unit never enters *)
Definition avoids (R : ascii -> ascii -> bool) (u : ascii) : Prop :=
  forall c, R c u = false /\ R u c = false.

(** ** Digits *)

Definition holds (p : ascii -> bool) (o : option ascii) : bool :=
  match o with
  | Some c => p c
  | None => false
  end.

(** no two digits are followed by a word unit, the two units [o2], [o1]
    before the text included *)
Fixpoint noDigitDigitWord (o2 o1 : option ascii) (s : string) : bool :=
  match s with
  | String c r =>
      negb (holds isDigit o2 && holds isDigit o1 && isWord c)
      && noDigitDigitWord o1 (Some c) r
  | EmptyString => true
  end.

Definition wordDigit (a b : ascii) : bool := isWord a && isDigit b.

(** ** Lines *)

(** before any line terminator comes a unit that is neither a digit nor
    white space *)
Fixpoint solidAhead (s : string) : bool :=
  match s with
  | String c r =>
      if isLineTerminator c then false
      else if isDigit c || isSpace c then solidAhead r else true
  | EmptyString => false
  end.

(** every line that starts with something else than a line terminator has
    such a unit *)
Fixpoint solidLines (prev : option ascii) (s : string) : bool :=
  match s with
  | String c r =>
      (if atLineStart prev && negb (isLineTerminator c) then solidAhead s else true)
      && solidLines (Some c) r
  | EmptyString => true
  end.

Definition lineEnds (s : string) : bool :=
  match s with
  | String c _ => isLineTerminator c
  | EmptyString => true
  end.

(** ** Paragraph breaks *)

(** every paragraph break is exactly two line feeds *)
Fixpoint normalBreaks (s : string) : bool :=
  match s with
  | String c r =>
      (if isLF c
       then match spaceToLF r with
            | Some k => Nat.eqb k 1
            | None => true
            end
       else true) && normalBreaks r
  | EmptyString => true
  end.

(** ** Trimming *)

Definition startsClean (s : string) : Prop :=
  match firstUnit s with
  | Some c => isSpace c = false
  | None => True
  end.

(** the text made of [prev] and [s] does not end in white space *)
Definition endsCleanAfter (prev : option ascii) (s : string) : Prop :=
  match lastUnit prev s with
  | Some c => isSpace c = false
  | None => True
  end.

Definition endsClean (s : string) : Prop := endsCleanAfter None s.

(** ** Fixed points *)

Definition withPrev (prev : option ascii) (s : string) : string :=
  match prev with
  | Some c => String c s
  | None => s
  end.

(** ** Normalized texts *)

(** the steps of [cleanExtractedText] behind its guard *)
Definition pipeline (text : string) : string :=
  trim (normalizeParagraphs (wordsSplit (dropNumberLines (unprintableDropped text)))).

(** no digit is directly followed by a letter or an underscore *)
Definition digitsApart (s : string) : bool := noAdjacent digitLetter None s.

(** what the normalizer makes of a printable text whose digits are apart *)
Record normalized (s : string) : Prop := {
  normalized_printable : printableText s = true;
  normalized_blanks : noAdjacent blankPair None s = true;
  normalized_camel : noAdjacent camelPair None s = true;
  normalized_letterDigit : noAdjacent letterDigit None s = true;
  normalized_digitWord : noAdjacent digitWord None s = true;
  normalized_breaks : normalBreaks s = true;
  normalized_lines : solidLines None s = true;
  normalized_start : startsClean s;
  normalized_end : endsClean s
}.

Definition samplePrintableText : string :=
  "  Jane  Doe" ++ NL ++ "   " ++ NL ++ NL ++ NL
  ++ "seniorDataScientist at acmeCorp, 2019-21" ++ NL ++ " 42 " ++ NL ++ "python3, 5 years".

(** ** Normalized texts: samples *)

Definition threeLineFeeds : string := String LF (String LF (String LF "")).

(** a text of digits and white space only *)
Definition numericText (s : string) : bool := allUnits (fun c => isDigit c || isSpace c) s.

Definition pageNumbers : string :=
  " 1 " ++ NL ++ String CR (String LF "") ++ String TAB "23" ++ NL ++ "4 5" ++ NL.

Definition widelySpaced : string := "Jane    Doe,  senior   engineer".

(** ** PDF validation under any ceiling *)

(** the bytes of a buffer with their high bit cleared, which is all the
    'ascii' decoding keeps of them *)
Definition sevenBits (buffer : Buffer) : list N :=
  map (fun b => N.land (Byte.to_N b) 127) buffer.

(** the codes of [%PDF-] *)
Definition markerCodes : list N := [37; 80; 68; 70; 45]%N.

(** ** Enricher: samples *)

(** the sample analysis after one enrichment for "Data Scientist" *)
Definition enrichedSample : ResumeAnalysis :=
  enriched sampleAnalysis dataScientist
    ["Consider adding more specific technical projects that demonstrate Python, R, SQL experience";
     "Ensure your technical skills section includes both the technologies you used and the context/projects where you applied them"].

Fixpoint distinct (l : list string) : bool :=
  match l with
  | [] => true
  | x :: rest => negb (existsb (String.eqb x) rest) && distinct rest
  end.

(** ** Catalog and quick score: samples *)

Definition productManager : JobRole :=
  {| id := "product-manager"; title := "Product Manager"; category := "Management";
     commonSkills := ["Product Strategy"; "Agile/Scrum"; "User Research"; "Data Analysis";
                      "Stakeholder Management"; "Roadmap Planning"; "A/B Testing"] |}.

(** a resume with every feature of the rubric and more than 500 words *)
Definition completeResume : string :=
  "jane@example.com 555-123-4567 experience worked managed led developed created achieved education bachelor skills javascript python java sql excel "
  ++ repeatWord "lorem" 500.

(** ** Normalizer and requester: samples *)

(** the five members the normalizer reads off the payload *)
Definition readMembers : list string :=
  ["overallScore"; "summary"; "sections"; "keyFindings"; "jobAlignment"].

(** [defaultAnalysis], as a value of the run-time type *)
Definition defaultAnalysis : ResumeAnalysisOf JsValue JsValue :=
  {| overallScore := num 0;
     maxOverallScore := num 100;
     summary := JString DEFAULT_SUMMARY;
     sections := [];
     keyFindings :=
       {| strengths := []; majorIssues := []; missingSkills := [];
          atsCompatibility := num 0; improvementPriority := [] |};
     jobAlignment :=
       {| matchScore := num 0; relevantExperience := []; skillGaps := [];
          recommendations := [] |} |}.

(** two payloads that differ in members the normalizer does not read *)
Definition barePayload : JsValue :=
  JObject [("overallScore", JNumber (num 70)); ("summary", JString "ok")].

Definition paddedPayload : JsValue :=
  JObject [("model", JString "gpt"); ("overallScore", JNumber (num 70));
           ("summary", JString "ok"); ("usage", JObject [("tokens", JNumber (num 12))])].

(** a service that is never reached, one that times out, and one that
    answers with an empty object *)
Definition noService : string -> string -> Result (option string) :=
  fun _ _ => Ok None.

Definition timedOut : string -> string -> Result (option string) :=
  fun _ _ => Throw (Error "Request timeout after 60000ms").

Definition emptyObject : string -> string -> Result (option string) :=
  fun _ _ => Ok (Some "{}").

Import Sections Parser.

(** ** Section extraction *)

(** the eight keys of the result, in order *)
Definition sectionKeys : list string :=
  ["contact"; "summary"; "experience"; "education"; "skills"; "projects"; "certifications";
   "other"].

(** the lines that count: those of the text, trimmed, the empty ones left
    out *)
Definition trimmedLines (text : string) : list string :=
  filter (fun line => negb (String.eqb line "")) (map trim (splitLines text)).

(** Every line that is not a header, with the section it falls under: the
    one of the last header before it, [currentSection] when there is none. *)
Fixpoint labelled (currentSection : string) (lines : list string) : list (string * string) :=
  match lines with
  | [] => []
  | line :: rest =>
      match headerOf line with
      | Some sectionName => labelled sectionName rest
      | None => (currentSection, line) :: labelled currentSection rest
      end
  end.

Definition linesUnder (key : string) (l : list (string * string)) : list string :=
  map snd (filter (fun entry => String.eqb (fst entry) key) l).

Definition pushed (key line : string) (content : Content) : Content :=
  map (fun entry => (fst entry,
                     if String.eqb (fst entry) key then (snd entry ++ [line])%list
                     else snd entry)) content.

(** a line that is trimmed and not empty *)
Definition solidLine (line : string) : Prop :=
  line <> "" /\ startsClean line /\ endsClean line.

Definition plainNotes : string :=
  "  Jane Doe " ++ NL ++ NL ++ "Skills: Python, SQL" ++ NL ++ "  " ++ NL ++ "Five years at Acme".

(** a resume with headers in several spellings *)
Definition sampleResume : string :=
  " Jane Doe " ++ NL ++ "jane@example.com" ++ NL ++ NL ++ "SUMMARY:" ++ NL ++ "Engineer." ++ NL
  ++ "Work   Experience : " ++ NL ++ "Acme 2019" ++ NL ++ "Skills" ++ NL ++ "Python" ++ NL
  ++ "skills are great" ++ NL ++ "Certification" ++ NL ++ "AWS" ++ NL ++ "licenses:" ++ NL
  ++ "PMP".

(** The capitals A-Z moved to a-z, every other code unit kept: two texts
    with the same image differ in the case of their ASCII letters only. *)
Definition lowerLetter (c : ascii) : ascii :=
  if isUpper c then ascii_of_N (code c + 32) else c.

Fixpoint lowerLetters (s : string) : string :=
  match s with
  | EmptyString => EmptyString
  | String c r => String (lowerLetter c) (lowerLetters r)
  end.

(** ** PDF parsing and its route *)

(** the messages a failed parse carries *)
Definition parseMessages : list string :=
  ["Empty or invalid PDF buffer provided";
   "No text content found in PDF. This might be a scanned document or image-based PDF.";
   "Invalid PDF file format. Please ensure the file is a valid PDF.";
   "Password-protected PDFs are not supported. Please upload an unprotected PDF.";
   "PDF file appears to be corrupted. Please try uploading a different file.";
   "Failed to parse PDF file"].

(** what a successful parse of [data] looks like *)
Definition parsed (data : PdfData) : PDFParseResult :=
  {| success := true;
     text := Some (trim (dataText data));
     parseError := None;
     metadata := Some {| pages := numpages data; metadataInfo := info data |} |}.

(** the text of [data] is not blank *)
Definition hasText (data : PdfData) : bool :=
  negb (Nat.eqb (String.length (trim (dataText data))) 0).

(** a library that answers every buffer with two pages of text *)
Definition twoPages : Outcome (Buffer -> Outcome PdfData) :=
  Returned (fun _ => Returned {| dataText := "  Jane Doe" ++ NL ++ "Engineer  " ++ NL;
                                 numpages := num 2;
                                 info := JNull |}).

(** an upload, and a library that extracts one paragraph from it *)
Definition sampleUpload : JsValue :=
  JObject [("fileData", JString "data:application/pdf;base64,JVBERi0=");
           ("filename", JString "cv.pdf")].

Definition oneParagraph : Outcome (Buffer -> Outcome PdfData) :=
  Returned (fun _ =>
    Returned {| dataText := "  Jane Doe,  seniorEngineer with five years of experience in data pipelines. ";
                numpages := num 1;
                info := JNull |}).

Definition sampleCleaned : string :=
  "Jane Doe, senior Engineer with five years of experience in data pipelines.".

(** ** Analysis route *)

(** the request of a client: a resume with its content and kind, and a role *)
Definition analysisRequest (content kind jobRole : string) : JsValue :=
  JObject [("resume", JObject [("content", JString content); ("type", JString kind)]);
           ("jobRole", JString jobRole)].

(** a request for the complete resume and a role outside the catalog *)
Definition completeRequest : JsValue := analysisRequest completeResume "text" "Astronaut".

(** * Properties *)

(** ** PDF validation *)

Section PdfValidation.
Lemma buffer_empty_iff (buffer : Buffer) :
  Nat.eqb (List.length buffer) 0 = true <-> buffer = [].
Proof.
  destruct buffer; simpl; split; intros H; try reflexivity; discriminate.
Qed.

Lemma within_ceiling_iff (buffer : Buffer) :
  Qle_bool (Qmake (Z.of_nat (List.length buffer)) bytesPerMB) defaultMaxSizeMB = true
  <-> (size buffer <= ceilingBytes)%Z.
Proof.
  rewrite Qle_bool_iff. unfold Qle, defaultMaxSizeMB, bytesPerMB, ceilingBytes, size, inject_Z.
  cbn [Qnum Qden]. split; intros H; lia.
Qed.

(** The header test reads the first five bytes, decoded. *)
Lemma header_test_iff (buffer : Buffer) :
  startsWith (toStringAscii buffer 0 8) "%PDF-" = true
  <-> map decodeAscii (firstn 5 buffer) = list_ascii_of_string "%PDF-".
Proof.
  unfold toStringAscii.
  destruct buffer as [|b1 [|b2 [|b3 [|b4 [|b5 rest]]]]];
    cbn [skipn firstn Nat.sub map string_of_list_ascii startsWith list_ascii_of_string];
    try (rewrite ?andb_false_r; split; intros H; discriminate).
  rewrite !andb_true_iff, !Ascii.eqb_eq. split.
  - intros (H1 & H2 & H3 & H4 & H5 & _). congruence.
  - intros H. injection H as <- <- <- <- <-. repeat split.
Qed.

Lemma magic_decodes (buffer : Buffer) :
  firstn 5 buffer = pdfMagic ->
  map decodeAscii (firstn 5 buffer) = list_ascii_of_string "%PDF-".
Proof. intros ->. reflexivity. Qed.

Lemma validatePDFFile_cases (buffer : Buffer) :
  validatePDFFile buffer defaultMaxSizeMB =
    if Nat.eqb (List.length buffer) 0 then rejected NoFileContent
    else if negb (Z.leb (size buffer) ceilingBytes)
         then rejected (FileTooLarge (Qmake (size buffer) bytesPerMB) defaultMaxSizeMB)
         else if negb (startsWith (toStringAscii buffer 0 8) "%PDF-")
              then rejected NotPdfFormat
              else accepted.
Proof.
  unfold validatePDFFile.
  destruct (Nat.eqb (List.length buffer) 0); [reflexivity|].
  assert (E : Qle_bool (Qmake (Z.of_nat (List.length buffer)) bytesPerMB) defaultMaxSizeMB
              = Z.leb (size buffer) ceilingBytes).
  { apply eq_true_iff_eq. rewrite within_ceiling_iff, Z.leb_le. reflexivity. }
  rewrite E. reflexivity.
Qed.
End PdfValidation.

(** C9, as the code has it: with the default ceiling the checks run in the
    order empty, too large, header.  A buffer is accepted only if it is not
    empty and has at most 10 MB (of 1024 * 1024 bytes), and every such buffer
    that begins with the five bytes [%PDF-] is accepted; an empty buffer is
    rejected for having no content, a longer buffer for being too large
    whatever it begins with, and a buffer within the ceiling whose first five
    bytes do not read [%PDF-] as 7-bit ASCII is rejected for its format. *)
Theorem validatePDFFile_default (buffer : Buffer) :
  let r := validatePDFFile buffer defaultMaxSizeMB in
  (valid r = true ->
     buffer <> [] /\ (size buffer <= ceilingBytes)%Z /\ error r = None) /\
  (buffer <> [] -> (size buffer <= ceilingBytes)%Z -> firstn 5 buffer = pdfMagic ->
     r = accepted) /\
  (buffer = [] -> r = rejected NoFileContent) /\
  ((ceilingBytes < size buffer)%Z ->
     exists mb, r = rejected (FileTooLarge mb defaultMaxSizeMB)) /\
  (buffer <> [] -> (size buffer <= ceilingBytes)%Z ->
     map decodeAscii (firstn 5 buffer) <> list_ascii_of_string "%PDF-" ->
     r = rejected NotPdfFormat).
Proof.
  intros r. subst r. rewrite validatePDFFile_cases.
  destruct (Nat.eqb (List.length buffer) 0) eqn:E0.
  - apply buffer_empty_iff in E0. subst buffer.
    repeat split; try discriminate; try congruence.
  - assert (Hne : buffer <> []) by (intros ->; discriminate).
    destruct (Z.leb (size buffer) ceilingBytes) eqn:E1; cbn [negb].
    + apply Z.leb_le in E1.
      destruct (startsWith (toStringAscii buffer 0 8) "%PDF-") eqn:E2; cbn [negb].
      * apply header_test_iff in E2.
        repeat split; try assumption; try reflexivity; try congruence; intros; try lia.
      * assert (E2' : map decodeAscii (firstn 5 buffer) <> list_ascii_of_string "%PDF-").
        { intros H. apply header_test_iff in H. congruence. }
        repeat split; try discriminate; try congruence; intros; try lia.
        exfalso. apply E2'. apply magic_decodes. assumption.
    + apply Z.leb_gt in E1.
      repeat split; try discriminate; try congruence; intros; try lia.
      eexists. reflexivity.
Qed.

(** The ordered checks at work: the bare five-byte marker is accepted, a
    two-byte text is rejected for its format. *)
Lemma validatePDFFile_default_witness :
  validatePDFFile pdfMagic defaultMaxSizeMB = accepted /\
  validatePDFFile [Byte.x68; Byte.x69] defaultMaxSizeMB = rejected NotPdfFormat.
Proof.
  split.
  - apply (validatePDFFile_default pdfMagic);
      [discriminate | unfold ceilingBytes, size; simpl; lia | reflexivity].
  - apply (validatePDFFile_default [Byte.x68; Byte.x69]);
      [discriminate | unfold ceilingBytes, size; simpl; lia | discriminate].
Defined.

(** C9 as stated fails: the empty buffer does not start with [%PDF-] and is
    rejected, but for having no content, not for its format. *)
Lemma validatePDFFile_empty_not_format_error :
  firstn 5 (@nil Byte.byte) <> pdfMagic /\
  validatePDFFile [] defaultMaxSizeMB = rejected NoFileContent /\
  error (validatePDFFile [] defaultMaxSizeMB) <> Some NotPdfFormat.
Proof.
  repeat split; discriminate.
Qed.

(** Decoding as 'ascii' clears the high bit: a header whose first byte is
    0xA5 reads [%PDF-] too. *)
Example validatePDFFile_high_bit_header :
  validatePDFFile [Byte.xa5; Byte.x50; Byte.x44; Byte.x46; Byte.x2d] defaultMaxSizeMB
  = accepted.
Proof. reflexivity. Qed.

(** ** Response normalizer *)

Section NormalizerFacts.
Variable NumberToString : JsNum -> string.
Variable StringToNumber : string -> JsNum.

Local Abbreviation validate := (validateAndStructureAnalysis NumberToString StringToNumber).
Local Abbreviation clamp := (clampScore NumberToString StringToNumber).

Lemma Qle_bool_false (x y : Q) : Qle_bool x y = false -> (y <= x)%Q.
Proof.
  intros H. apply Qlt_le_weak. apply Qnot_le_lt. intros L.
  apply Qle_bool_iff in L. congruence.
Qed.

Lemma clamp_number_inRange (hi : Z) (n : JsNum) :
  (0 <= hi)%Z -> n <> NaN ->
  inRange 0 hi (mathMax (num 0) (mathMin (num hi) n)).
Proof.
  intros Hhi Hn. unfold num.
  assert (H0 : (inject_Z 0 <= inject_Z hi)%Q) by (rewrite <- Zle_Qle; exact Hhi).
  destruct n as [| | |q]; [congruence| | |]; cbn.
  - destruct (Qle_bool (inject_Z hi) (inject_Z 0)) eqn:E; cbn.
    + apply Qle_bool_iff in E. split; [apply Qle_refl | exact H0].
    + split; [exact H0 | apply Qle_refl].
  - split; [apply Qle_refl | exact H0].
  - destruct (Qle_bool (inject_Z hi) q) eqn:E; cbn.
    + destruct (Qle_bool (inject_Z hi) (inject_Z 0)) eqn:E'; cbn.
      * apply Qle_bool_iff in E'. split; [apply Qle_refl | exact H0].
      * split; [exact H0 | apply Qle_refl].
    + apply Qle_bool_false in E.
      destruct (Qle_bool q (inject_Z 0)) eqn:E'; cbn.
      * split; [apply Qle_refl | exact H0].
      * apply Qle_bool_false in E'. split; assumption.
Qed.

Lemma toNumber_scalar (v : JsValue) :
  isScalar v = true ->
  exists n, ToNumber NumberToString StringToNumber (orElse v (JNumber (num 0))) = Ok n
            /\ n <> NaN.
Proof.
  intros Hv. unfold orElse.
  destruct v as [| |b|n|s|l|ps]; try discriminate.
  - exists (num 0). split; [reflexivity | discriminate].
  - exists (num 0). split; [reflexivity | discriminate].
  - destruct b; [exists (num 1) | exists (num 0)]; (split; [reflexivity | discriminate]).
  - destruct n as [| | |q].
    + exists (num 0). split; [reflexivity | discriminate].
    + exists PosInf. split; [reflexivity | discriminate].
    + exists NegInf. split; [reflexivity | discriminate].
    + cbn [truthy]. destruct (negb (Qeq_bool q 0));
        [exists (Fin q) | exists (num 0)]; (split; [reflexivity | discriminate]).
Qed.

Lemma clamp_scalar (hi : Z) (v : JsValue) :
  (0 <= hi)%Z -> isScalar v = true ->
  exists n, clamp hi v = Ok n /\ inRange 0 hi n.
Proof.
  intros Hhi Hv. unfold clampScore.
  destruct (toNumber_scalar v Hv) as (n & -> & Hn). cbn [bind].
  eexists. split; [reflexivity|]. apply clamp_number_inRange; assumption.
Qed.

Lemma member_not_nullish (v : JsValue) (key : string) :
  nullish v = false -> member v key = Ok (field v key).
Proof. destruct v; cbn; intros H; try reflexivity; discriminate. Qed.

(** C2, as the code has it: when the payload is neither [null] nor
    [undefined] and each of its three score fields is absent, [null], a
    boolean or a number, the normalizer returns an analysis whose
    [overallScore] is in [0,100] and whose [atsCompatibility] and
    [matchScore] are in [0,10]; the [sections] array is handed on as
    received, its entries and their scores untouched. *)
Theorem validateAndStructureAnalysis_clamps (rawAnalysis : JsValue) :
  nullish rawAnalysis = false ->
  isScalar (field rawAnalysis "overallScore") = true ->
  isScalar (optionalMember (field rawAnalysis "keyFindings") "atsCompatibility") = true ->
  isScalar (optionalMember (field rawAnalysis "jobAlignment") "matchScore") = true ->
  exists analysis,
    validate rawAnalysis = Ok analysis /\
    inRange 0 100 (overallScore analysis) /\
    inRange 0 10 (atsCompatibility (keyFindings analysis)) /\
    inRange 0 10 (matchScore (jobAlignment analysis)) /\
    sections analysis = arrayOrEmpty (field rawAnalysis "sections").
Proof.
  intros Hraw H1 H2 H3. unfold validateAndStructureAnalysis.
  rewrite !(member_not_nullish _ _ Hraw). cbn [bind].
  destruct (clamp_scalar 100 _ ltac:(lia) H1) as (n1 & -> & R1).
  destruct (clamp_scalar 10 _ ltac:(lia) H2) as (n2 & -> & R2).
  destruct (clamp_scalar 10 _ ltac:(lia) H3) as (n3 & -> & R3).
  cbn [bind]. eexists. split; [reflexivity|]. cbn. auto.
Qed.

(** C1 fails on the code: reading [overallScore] off a [null] payload
    throws, and so does the numeric conversion of a score that is an object
    with a [toString] entry of its own. *)
Theorem validateAndStructureAnalysis_throws :
  validate JNull
    = Throw (TypeError "Cannot read properties of null (reading 'overallScore')") /\
  validate (JObject [("overallScore", JObject [("toString", JNumber (num 0))])])
    = Throw notPrimitive.
Proof. split; reflexivity. Qed.
End NormalizerFacts.

Lemma validateAndStructureAnalysis_clamps_witness :
  exists analysis,
    validateAndStructureAnalysis noNumberToString noStringToNumber overscoredPayload
      = Ok analysis /\
    inRange 0 100 (overallScore analysis) /\
    inRange 0 10 (atsCompatibility (keyFindings analysis)) /\
    inRange 0 10 (matchScore (jobAlignment analysis)) /\
    sections analysis = arrayOrEmpty (field overscoredPayload "sections").
Proof.
  apply (validateAndStructureAnalysis_clamps noNumberToString noStringToNumber overscoredPayload);
    reflexivity.
Defined.

(** C2 as stated fails: whatever the engine's conversions, the payload above
    is normalized to an analysis that still holds the section scored 999. *)
Lemma validateAndStructureAnalysis_keeps_section_scores :
  exists section,
    (forall NumberToString StringToNumber,
       exists analysis,
         validateAndStructureAnalysis NumberToString StringToNumber overscoredPayload
           = Ok analysis /\
         In section (sections analysis)) /\
    field section "score" = JNumber (num 999) /\
    ~ inRange 0 10 (num 999).
Proof.
  exists overscoredSection. split; [|split].
  - intros N2S S2N. eexists. split; [reflexivity|]. cbn. left. reflexivity.
  - reflexivity.
  - cbn. intros [_ H]. revert H. unfold Qle. cbn. lia.
Qed.

(** ** Role-insight enricher *)

Lemma someM_pure {A : Type} (f : A -> Result bool) (p : A -> bool) (l : list A) :
  (forall x, f x = Ok (p x)) -> someM f l = Ok (existsb p l).
Proof.
  intros H. induction l as [|x l IH]; cbn; [reflexivity|].
  rewrite H. cbn. destruct (p x); [reflexivity | exact IH].
Qed.

Lemma findM_pure {A : Type} (f : A -> Result bool) (p : A -> bool) (l : list A) :
  (forall x, f x = Ok (p x)) -> findM f l = Ok (find p l).
Proof.
  intros H. induction l as [|x l IH]; cbn; [reflexivity|].
  rewrite H. cbn. destruct (p x); [reflexivity | exact IH].
Qed.

Lemma filterM_pure {A : Type} (f : A -> Result bool) (p : A -> bool) (l : list A) :
  (forall x, f x = Ok (p x)) -> filterM f l = Ok (filter p l).
Proof.
  intros H. induction l as [|x l IH]; cbn; [reflexivity|].
  rewrite H, IH. cbn. destruct (p x); reflexivity.
Qed.

Lemma lowerChar_idempotent (c : ascii) : lowerChar (lowerChar c) = lowerChar c.
Proof.
  destruct c as [[] [] [] [] [] [] [] []]; reflexivity.
Qed.

Lemma toLowerCase_idempotent (s : string) : toLowerCase (toLowerCase s) = toLowerCase s.
Proof.
  induction s as [|c s IH]; cbn; [reflexivity|].
  rewrite lowerChar_idempotent, IH. reflexivity.
Qed.

Lemma startsWith_refl (s : string) : startsWith s s = true.
Proof.
  induction s as [|c s IH]; cbn; [reflexivity|].
  rewrite Ascii.eqb_refl. exact IH.
Qed.

Lemma includes_refl (s : string) : includes s s = true.
Proof.
  destruct s; cbn; [reflexivity|].
  rewrite Ascii.eqb_refl, startsWith_refl. reflexivity.
Qed.

Lemma catalog_spelledBack (role : JobRole) :
  In role PREDEFINED_JOB_ROLES -> spelledBack role = true.
Proof.
  assert (H : forallb spelledBack PREDEFINED_JOB_ROLES = true) by (vm_compute; reflexivity).
  rewrite forallb_forall in H. apply H.
Qed.

Lemma findRole_in_catalog (jobRole : string) (role : JobRole) :
  findRole jobRole = Some role ->
  In role PREDEFINED_JOB_ROLES /\ matchesRole jobRole role = true.
Proof. apply find_some. Qed.

Section TypedEnricher.
Variable analysis : ResumeAnalysis.

Let present := missingSkills (keyFindings analysis).

Lemma absentLowered_lower (skill : string) :
  absentLowered analysis (toLowerCase skill) = skillAbsent analysis skill.
Proof.
  unfold absentLowered, skillAbsent. rewrite toLowerCase_idempotent.
  destruct (includes (skillsText analysis) (toLowerCase skill)); reflexivity.
Qed.

Lemma spelled_filter (role : JobRole) (skills : list string) :
  (forall skill, In skill skills -> catalogSpelling role (toLowerCase skill) = skill) ->
  map (catalogSpelling role) (filter (absentLowered analysis) (map toLowerCase skills))
  = filter (skillAbsent analysis) skills.
Proof.
  induction skills as [|s skills IH]; intros H; cbn; [reflexivity|].
  rewrite absentLowered_lower.
  destruct (skillAbsent analysis s); cbn.
  - rewrite (H s (or_introl eq_refl)). f_equal. apply IH. intros; apply H; right; assumption.
  - apply IH. intros; apply H; right; assumption.
Qed.

Lemma absent_not_present (skills : list string) :
  filter (fun skill => negb (existsb (fun x => String.eqb x skill) present))
         (filter (skillAbsent analysis) skills)
  = filter (skillAbsent analysis) skills.
Proof.
  induction skills as [|s skills IH]; cbn; [reflexivity|].
  destruct (skillAbsent analysis s) eqn:E; cbn; [|exact IH].
  assert (N : existsb (fun x => String.eqb x s) present = false).
  { destruct (existsb (fun x => String.eqb x s) present) eqn:X; [|reflexivity].
    apply existsb_exists in X. destruct X as (x & Hx & Hxs).
    apply String.eqb_eq in Hxs. subst x.
    unfold skillAbsent in E. apply andb_prop in E. destruct E as [_ E].
    apply negb_true_iff in E.
    assert (T : existsb (fun missing => includes (toLowerCase missing) (toLowerCase s)) present = true).
    { apply existsb_exists. exists s. split; [exact Hx | apply includes_refl]. }
    fold present in E. congruence. }
  rewrite N. cbn. f_equal. exact IH.
Qed.

Lemma withMissingSkills_same (a : ResumeAnalysis) :
  withMissingSkills a (missingSkills (keyFindings a)) = a.
Proof. destruct a as [? ? ? ? [] ?]. reflexivity. Qed.
End TypedEnricher.

Lemma someMentions_typed (variable word : string) (l : list string) :
  someMentions typed variable word l = Ok (existsb (fun x => includes (toLowerCase x) word) l).
Proof. apply someM_pure. reflexivity. Qed.

Lemma someSection_typed (word : string) (l : list ResumeSection) :
  someM (fun section => n <- nameLowered typed section ;; Ok (includes n word)) l
  = Ok (existsb (fun section => includes (toLowerCase (name section)) word) l).
Proof. apply someM_pure. reflexivity. Qed.

Lemma uniq_NoDup (l : list string) : NoDup (uniq l).
Proof.
  induction l as [|x l IH]; cbn; constructor.
  - intros H. apply filter_In in H. destruct H as [_ H].
    rewrite String.eqb_refl in H. discriminate.
  - apply NoDup_filter. exact IH.
Qed.

Lemma firstn_NoDup (n : nat) (l : list string) : NoDup l -> NoDup (firstn n l).
Proof.
  revert l. induction n as [|n IH]; intros l H; [constructor|].
  destruct l as [|x l]; [constructor|]. inversion H as [|? ? N D]; subst.
  cbn. constructor; [|apply IH; exact D].
  intros X. apply N. rewrite <- (firstn_skipn n l). apply in_or_app. left. exact X.
Qed.

Lemma uniq_first_three (l : list string) :
  l <> [] -> 1 <= List.length (firstn 3 (uniq l)) <= 3 /\ NoDup (firstn 3 (uniq l)).
Proof.
  intros H. split; [split|].
  - destruct l as [|x l]; [congruence|]. cbn. lia.
  - apply firstn_le_length.
  - apply firstn_NoDup, uniq_NoDup.
Qed.

(** On an analysis of the declared type a role of one of the six known
    categories yields one to three distinct recommendations, without
    throwing. *)
Lemma generate_typed_category (role : JobRole) (analysis : ResumeAnalysis) :
  In (toLowerCase (category role)) knownCategories ->
  exists recs,
    generateRoleSpecificRecommendations typed role analysis = Ok recs /\
    1 <= List.length recs <= 3 /\ NoDup recs.
Proof.
  intros H. unfold generateRoleSpecificRecommendations.
  rewrite !someMentions_typed, !someSection_typed.
  generalize dependent (toLowerCase (category role)). intros c H.
  cbn in H.
  repeat (destruct H as [<- | H]); try contradiction;
    cbn [String.eqb Ascii.eqb Bool.eqb andb bind];
    (eexists; split; [reflexivity | apply uniq_first_three]).
  - destruct (numLt (overallScore analysis) (num 70)); discriminate.
  - destruct (existsb _ _); discriminate.
  - discriminate.
  - discriminate.
  - discriminate.
  - discriminate.
Qed.

Lemma catalog_categories (role : JobRole) :
  In role PREDEFINED_JOB_ROLES -> In (toLowerCase (category role)) knownCategories.
Proof.
  intros H.
  assert (A : forallb (fun r => existsb (String.eqb (toLowerCase (category r))) knownCategories)
                PREDEFINED_JOB_ROLES = true) by (vm_compute; reflexivity).
  rewrite forallb_forall in A. specialize (A role H).
  apply existsb_exists in A. destruct A as (c & Hc & E).
  apply String.eqb_eq in E. rewrite E. exact Hc.
Qed.

Lemma enhance_typed_none (analysis : ResumeAnalysis) (jobRole : string) :
  findRole jobRole = None ->
  enhanceAnalysisWithJobInsights typed analysis jobRole = Ok analysis.
Proof. intros H. unfold enhanceAnalysisWithJobInsights. rewrite H. reflexivity. Qed.

Lemma enhance_typed_found (analysis : ResumeAnalysis) (jobRole : string) (role : JobRole) :
  findRole jobRole = Some role ->
  exists recs,
    enhanceAnalysisWithJobInsights typed analysis jobRole = Ok (enriched analysis role recs) /\
    1 <= List.length recs <= 3 /\ NoDup recs.
Proof.
  intros H. unfold enhanceAnalysisWithJobInsights. rewrite H.
  destruct (findRole_in_catalog _ _ H) as [Hin _].
  rewrite (findM_pure _ (fun section => includes (toLowerCase (name section)) "skill"))
    by reflexivity.
  cbn [bind].
  assert (T : match find (fun section => includes (toLowerCase (name section)) "skill")
                         (sections analysis) with
              | Some section => t <- feedbackJoined typed section ;; Ok (toLowerCase t)
              | None => Ok ""
              end = Ok (skillsText analysis)).
  { unfold skillsText. destruct (find _ (sections analysis)); reflexivity. }
  rewrite T. cbn [bind].
  rewrite (filterM_pure _ (absentLowered analysis)).
  2:{ intros skill. unfold absentLowered.
      destruct (includes (skillsText analysis) (toLowerCase skill)); [reflexivity|].
      rewrite someMentions_typed. reflexivity. }
  cbn [bind].
  set (mc := filter (absentLowered analysis) (map toLowerCase (commonSkills role))).
  assert (S : map (catalogSpelling role) mc = filter (skillAbsent analysis) (commonSkills role)).
  { apply spelled_filter. intros skill Hs.
    pose proof (catalog_spelledBack role Hin) as B. unfold spelledBack in B.
    rewrite forallb_forall in B. apply String.eqb_eq. apply B. exact Hs. }
  assert (A : (if Nat.ltb 0 (List.length mc)
               then withMissingSkills analysis
                      (missingSkills (keyFindings analysis) ++
                       map (ofString typed)
                         (filter (fun skill => negb (existsb (fun x => sameAs typed x skill)
                                                        (missingSkills (keyFindings analysis))))
                                 (map (catalogSpelling role) mc)))
               else analysis)
              = withMissingSkills analysis
                  (missingSkills (keyFindings analysis)
                     ++ filter (skillAbsent analysis) (commonSkills role))).
  { rewrite S. cbn [ofString sameAs typed]. rewrite map_id.
    rewrite absent_not_present.
    destruct mc as [|x mc'] eqn:E; cbn [List.length Nat.ltb Nat.leb]; [|reflexivity].
    rewrite <- S. cbn [map]. rewrite app_nil_r. symmetry. apply withMissingSkills_same. }
  rewrite A.
  destruct (generate_typed_category role
              (withMissingSkills analysis
                 (missingSkills (keyFindings analysis)
                    ++ filter (skillAbsent analysis) (commonSkills role)))
              (catalog_categories role Hin)) as (recs & G & L).
  rewrite G. cbn [bind]. exists recs. split; [|exact L].
  cbn [ofString typed]. rewrite map_id. reflexivity.
Qed.

(** C5: on every analysis and every job-role title the enricher returns an
    analysis whose overall score is not lower than the input's and in which
    every entry of every list field of the input is still present. *)
Theorem enhanceAnalysisWithJobInsights_monotone (analysis : ResumeAnalysis) (jobRole : string) :
  exists analysis',
    enhanceAnalysisWithJobInsights typed analysis jobRole = Ok analysis' /\
    numLt (overallScore analysis') (overallScore analysis) = false /\
    (forall x, In x (sections analysis) -> In x (sections analysis')) /\
    (forall x, In x (strengths (keyFindings analysis)) ->
               In x (strengths (keyFindings analysis'))) /\
    (forall x, In x (majorIssues (keyFindings analysis)) ->
               In x (majorIssues (keyFindings analysis'))) /\
    (forall x, In x (missingSkills (keyFindings analysis)) ->
               In x (missingSkills (keyFindings analysis'))) /\
    (forall x, In x (improvementPriority (keyFindings analysis)) ->
               In x (improvementPriority (keyFindings analysis'))) /\
    (forall x, In x (relevantExperience (jobAlignment analysis)) ->
               In x (relevantExperience (jobAlignment analysis'))) /\
    (forall x, In x (skillGaps (jobAlignment analysis)) ->
               In x (skillGaps (jobAlignment analysis'))) /\
    (forall x, In x (recommendations (jobAlignment analysis)) ->
               In x (recommendations (jobAlignment analysis'))).
Proof.
  assert (R : forall n, numLt n n = false).
  { intros [| | |q]; cbn; try reflexivity.
    apply negb_false_iff. apply Qle_bool_iff. apply Qle_refl. }
  destruct (findRole jobRole) as [role|] eqn:F.
  - destruct (enhance_typed_found analysis jobRole role F) as (recs & E & _).
    eexists. split; [exact E|].
    cbn. split; [apply R|].
    repeat split; intros x Hx; try assumption; apply in_or_app; left; assumption.
  - exists analysis. split; [apply enhance_typed_none; exact F|].
    split; [apply R|]. repeat split; intros x Hx; assumption.
Qed.

(** C10: when the title matches a catalog entry, the enricher appends at
    least one and at most three recommendations, no two of them equal, so
    the list grows. *)
Theorem enhanceAnalysisWithJobInsights_recommends (analysis : ResumeAnalysis)
    (jobRole : string) (role : JobRole) :
  findRole jobRole = Some role ->
  exists analysis' recs,
    enhanceAnalysisWithJobInsights typed analysis jobRole = Ok analysis' /\
    recommendations (jobAlignment analysis')
      = (recommendations (jobAlignment analysis) ++ recs)%list /\
    1 <= List.length recs <= 3 /\ NoDup recs /\
    List.length (recommendations (jobAlignment analysis))
      < List.length (recommendations (jobAlignment analysis')).
Proof.
  intros F. destruct (enhance_typed_found analysis jobRole role F) as (recs & E & L & N).
  exists (enriched analysis role recs), recs.
  split; [exact E|]. split; [reflexivity|]. split; [exact L|]. split; [exact N|].
  cbn. rewrite length_app. lia.
Qed.

(** *** The catalog lookup *)

Lemma spaces_cons (prev : option ascii) (c : ascii) (r : string) :
  spaces prev (String c r) = if isSpace c then Some (S (spanLen isSpace r)) else None.
Proof. unfold spaces, atLeast. cbn. destruct (isSpace c); reflexivity. Qed.

Lemma replace_spaces_hyphenates (s : string) (prev : option ascii) :
  replaceFrom spaces (const "-") prev 0 s = hyphenateRuns false s /\
  replaceFrom spaces (const "-") prev (spanLen isSpace s) s = hyphenateRuns true s.
Proof.
  revert prev. induction s as [|c r IH]; intros prev; [split; reflexivity|].
  destruct (IH (Some c)) as [IH0 IH1].
  cbn [spanLen hyphenateRuns replaceFrom]. rewrite spaces_cons.
  destruct (isSpace c) eqn:E.
  - cbn [replaceFrom]. rewrite IH1. split; reflexivity.
  - cbn [replaceFrom]. rewrite IH0. split; reflexivity.
Qed.

Lemma slug_hyphenated (jobRole : string) : slug jobRole = hyphenated jobRole.
Proof. apply replace_spaces_hyphenates. Qed.

(** C6: the role is the first catalog entry whose title equals the given
    title up to case or whose id is the hyphenated lower-cased title; without
    such an entry the analysis is returned unchanged; with one, the catalog
    skills that occur neither in the skills text nor inside an entry of the
    missing-skills list are appended to that list, in catalog order and
    spelling.  The title "data scientist" finds the entry [data-scientist]. *)
Theorem enhanceAnalysisWithJobInsights_lookup (analysis : ResumeAnalysis) (jobRole : string) :
  (forall role, findRole jobRole = Some role ->
     In role PREDEFINED_JOB_ROLES /\
     (toLowerCase (title role) = toLowerCase jobRole \/ id role = hyphenated jobRole)) /\
  (findRole jobRole = None <->
     forall role, In role PREDEFINED_JOB_ROLES ->
       toLowerCase (title role) <> toLowerCase jobRole /\ id role <> hyphenated jobRole) /\
  (findRole jobRole = None ->
     enhanceAnalysisWithJobInsights typed analysis jobRole = Ok analysis) /\
  (forall role, findRole jobRole = Some role ->
     exists analysis',
       enhanceAnalysisWithJobInsights typed analysis jobRole = Ok analysis' /\
       missingSkills (keyFindings analysis')
       = (missingSkills (keyFindings analysis)
            ++ filter (skillAbsent analysis) (commonSkills role))%list) /\
  findRole "data scientist" = Some dataScientist.
Proof.
  assert (M : forall role, matchesRole jobRole role = true <->
                (toLowerCase (title role) = toLowerCase jobRole \/ id role = hyphenated jobRole)).
  { intros role. unfold matchesRole. rewrite orb_true_iff, !String.eqb_eq, slug_hyphenated.
    reflexivity. }
  split; [|split; [|split; [|split]]].
  - intros role F. destruct (findRole_in_catalog _ _ F) as [Hin Hm].
    split; [exact Hin | apply M; exact Hm].
  - split.
    + intros F role Hin.
      pose proof (find_none _ _ F role Hin) as N.
      split; intros E; (assert (T : matchesRole jobRole role = true) by (apply M; auto));
        congruence.
    + intros H. unfold findRole.
      destruct (find (matchesRole jobRole) PREDEFINED_JOB_ROLES) as [role|] eqn:F; [|reflexivity].
      apply find_some in F. destruct F as [Hin Hm]. apply M in Hm.
      destruct (H role Hin) as [H1 H2]. destruct Hm; contradiction.
  - apply enhance_typed_none.
  - intros role F. destruct (enhance_typed_found analysis jobRole role F) as (recs & E & _).
    eexists. split; [exact E | reflexivity].
  - reflexivity.
Qed.

Example enhance_data_scientist :
  exists analysis',
    enhanceAnalysisWithJobInsights typed sampleAnalysis "data scientist" = Ok analysis' /\
    missingSkills (keyFindings analysis')
    = ["Docker"; "Machine Learning"; "Statistics"; "Data Visualization"; "TensorFlow";
       "Pandas"; "Numpy"] /\
    List.length (recommendations (jobAlignment analysis')) = 3.
Proof. eexists. split; [vm_compute; reflexivity | split; reflexivity]. Qed.

Lemma enhanceAnalysisWithJobInsights_recommends_witness :
  exists analysis' recs,
    enhanceAnalysisWithJobInsights typed sampleAnalysis "Data Scientist" = Ok analysis' /\
    recommendations (jobAlignment analysis')
      = (recommendations (jobAlignment sampleAnalysis) ++ recs)%list /\
    1 <= List.length recs <= 3 /\ NoDup recs /\
    List.length (recommendations (jobAlignment sampleAnalysis))
      < List.length (recommendations (jobAlignment analysis')).
Proof.
  apply (enhanceAnalysisWithJobInsights_recommends sampleAnalysis "Data Scientist" dataScientist).
  reflexivity.
Defined.

(** ** Quick score *)

Lemma startsWith_cons_inv (s p : string) (a : ascii) :
  startsWith s (String a p) = true -> exists s', s = String a s' /\ startsWith s' p = true.
Proof.
  destruct s as [|b s']; cbn; [discriminate|].
  intros H. apply andb_prop in H. destruct H as [E H].
  apply Ascii.eqb_eq in E. subst b. exists s'. split; [reflexivity | exact H].
Qed.

Lemma startsWith_append (s p q : string) :
  startsWith s (p ++ q) = true -> startsWith s p = true.
Proof.
  revert s. induction p as [|a p IH]; intros s H; [reflexivity|].
  cbn in H. destruct s as [|b s']; [discriminate|].
  apply andb_prop in H. destruct H as [E H]. cbn. rewrite E. cbn. apply IH. exact H.
Qed.

Lemma includes_append (s p q : string) :
  includes s (p ++ q) = true -> includes s p = true.
Proof.
  induction s as [|c s IH]; cbn; intros H.
  - rewrite orb_false_r in *. apply (startsWith_append "" p q). exact H.
  - apply orb_prop in H. destruct H as [H|H].
    + apply (startsWith_append (String c s) p q) in H. cbn in H. rewrite H. reflexivity.
    + rewrite (IH H). apply orb_true_r.
Qed.

Lemma startsWith_toLowerCase (s p : string) :
  startsWith s p = true -> startsWith (toLowerCase s) (toLowerCase p) = true.
Proof.
  revert s. induction p as [|a p IH]; intros s H; [reflexivity|].
  destruct (startsWith_cons_inv _ _ _ H) as (s' & -> & H').
  cbn. rewrite Ascii.eqb_refl. cbn. apply IH. exact H'.
Qed.

Lemma includes_toLowerCase (s p : string) :
  includes s p = true -> includes (toLowerCase s) (toLowerCase p) = true.
Proof.
  induction s as [|c s IH]; intros H.
  - cbn in H. rewrite orb_false_r in H. apply startsWith_toLowerCase in H.
    cbn in *. rewrite H. reflexivity.
  - cbn [includes] in H. apply orb_prop in H. destruct H as [H|H].
    + apply startsWith_toLowerCase in H. cbn [toLowerCase includes] in *. rewrite H. reflexivity.
    + cbn [toLowerCase includes]. rewrite (IH H). apply orb_true_r.
Qed.

Lemma includes_tail (c : ascii) (s p : string) :
  includes (String c s) p = false -> includes s p = false.
Proof. cbn [includes]. intros H. apply orb_false_elim in H. apply H. Qed.

Lemma includes_startsWith (s p : string) :
  startsWith s p = true -> includes s p = true.
Proof. intros H. destruct s; cbn [includes]; rewrite H; reflexivity. Qed.

Lemma firstAlternative_some (alternatives : list string) (prev : option ascii) (s : string) (k : nat) :
  firstAlternative alternatives prev s = Some k ->
  exists t, In t alternatives /\ startsWith s t = true.
Proof.
  induction alternatives as [|t rest IH]; cbn; [discriminate|].
  destruct (startsWith s t) eqn:E; cbn.
  - intros _. exists t. split; [left; reflexivity | exact E].
  - intros H. destruct (IH H) as (t' & Hin & Hs). exists t'. split; [right; exact Hin | exact Hs].
Qed.

Lemma technicalTerm_none (prev : option ascii) (s : string) :
  (forall t, In t technicalTerms -> includes s t = false) ->
  technicalTerm prev s = None.
Proof.
  intros H. unfold technicalTerm. destruct (wordBoundary prev s); [|reflexivity].
  destruct (firstAlternative technicalTerms prev s) as [k|] eqn:E; [|reflexivity].
  destruct (firstAlternative_some _ _ _ _ E) as (t & Hin & Hs).
  apply includes_startsWith in Hs. rewrite (H t Hin) in Hs. discriminate.
Qed.

Lemma countFrom_none (m : matcher) (prev : option ascii) (s : string) :
  (forall prev' n, m prev' (dropUnits n s) = None) ->
  countFrom m prev 0 s = 0.
Proof.
  revert prev. induction s as [|c s IH]; intros prev H; cbn.
  - pose proof (H prev 0) as H0. cbn in H0. rewrite H0. reflexivity.
  - pose proof (H prev 0) as H0. cbn in H0. rewrite H0.
    apply IH. intros prev' n. apply (H prev' (S n)).
Qed.

Lemma includes_dropUnits (n : nat) (s p : string) :
  includes s p = false -> includes (dropUnits n s) p = false.
Proof.
  revert s. induction n as [|n IH]; intros s H; [destruct s; exact H|].
  destruct s as [|c s]; [exact H|]. cbn [dropUnits]. apply IH.
  apply (includes_tail c). exact H.
Qed.

Lemma technicalTerms_absent (s : string) :
  (forall t, In t technicalTerms -> includes s t = false) ->
  countAll technicalTerm s = 0.
Proof.
  intros H. apply countFrom_none. intros prev n. apply technicalTerm_none.
  intros t Hin. apply includes_dropUnits. apply H. exact Hin.
Qed.

Lemma isDigit_lowerChar (c : ascii) : isDigit c = true -> lowerChar c = c.
Proof.
  destruct c as [[] [] [] [] [] [] [] []]; intros H; try discriminate H; reflexivity.
Qed.

Lemma hasFormat_toLowerCase (template p : string) :
  toLowerCase template = template ->
  hasFormat template p = true -> toLowerCase p = p.
Proof.
  revert p. induction template as [|t template IH]; intros [|c p] L H;
    try discriminate H; [reflexivity|].
  cbn [hasFormat] in H. apply andb_prop in H. destruct H as [Hc H].
  cbn [toLowerCase] in L. injection L as Lt L.
  cbn [toLowerCase]. rewrite (IH p L H). f_equal.
  destruct (isDigit t); [apply isDigit_lowerChar; exact Hc|].
  apply Ascii.eqb_eq in Hc. subst c. exact Lt.
Qed.

(** the pattern matches where a number of the format starts *)
Lemma phoneNumber_formatted (prev : option ascii) (s p : string) :
  phoneFormatted p = true -> startsWith s p = true -> exists k, phoneNumber prev s = Some k.
Proof.
  unfold phoneFormatted. intros F H.
  repeat (destruct p as [|? p]; [discriminate F|];
          cbn [hasFormat isDigit between code] in F;
          apply andb_prop in F; destruct F as [? F]).
  destruct p; [|discriminate F].
  repeat match goal with
         | E : (if isDigit ?t then _ else _) = true |- _ =>
             let v := eval vm_compute in (isDigit t) in
             change (isDigit t) with v in E; cbv iota in E
         end.
  repeat match goal with
         | E : Ascii.eqb _ _ = true |- _ => apply Ascii.eqb_eq in E; subst
         end.
  repeat (apply startsWith_cons_inv in H; destruct H as (? & -> & H)).
  unfold phoneNumber.
  repeat first [ progress cbn [digits optionalSeparator]
               | progress change (isPhoneSeparator "-"%char) with true
               | match goal with
                 | E : isDigit ?c = true |- context [isDigit ?c] => rewrite E
                 end ].
  eexists. reflexivity.
Qed.

Lemma test_phoneNumber_formatted (s p : string) :
  phoneFormatted p = true -> includes s p = true -> test phoneNumber s = true.
Proof.
  intros F. unfold test. generalize (@None ascii).
  induction s as [|c s IH]; intros prev H.
  - cbn [includes] in H. rewrite orb_false_r in H.
    destruct (phoneNumber_formatted prev _ _ F H) as (k & E).
    cbn [testFrom]. rewrite E. reflexivity.
  - cbn [includes] in H. apply orb_prop in H. destruct H as [H|H].
    + destruct (phoneNumber_formatted prev _ _ F H) as (k & E).
      cbn [testFrom]. rewrite E. reflexivity.
    + cbn [testFrom]. destruct (phoneNumber prev (String c s)); [reflexivity|].
      apply IH. exact H.
Qed.

Section QuickScore.
Local Open Scope Z_scope.

(** The score is a sum of bounded terms. *)
Lemma quickScore_range (resumeContent : string) :
  0 <= generateQuickScore resumeContent <= 100.
Proof.
  unfold generateQuickScore. cbv zeta.
  pose proof (Nat2Z.is_nonneg (List.length
    (filter (fun keyword => includes (toLowerCase resumeContent) keyword) experienceKeywords)))
    as Hm.
  pose proof (Nat2Z.is_nonneg (countAll technicalTerm (toLowerCase resumeContent))) as Hs.
  revert Hm Hs.
  generalize (Z.of_nat (List.length
    (filter (fun keyword => includes (toLowerCase resumeContent) keyword) experienceKeywords))).
  generalize (Z.of_nat (countAll technicalTerm (toLowerCase resumeContent))).
  intros skills matches Hm Hs.
  repeat match goal with
         | |- context [if ?b then _ else _] => destruct b
         end; lia.
Qed.
End QuickScore.

Section QuickScoreBoundaries.
Local Open Scope Z_scope.

Lemma quickScore_plain (resumeContent : string) :
  (splitLength resumeContent <= 150)%nat ->
  mentions resumeContent "@" = false ->
  mentions resumeContent "email" = false ->
  test phoneNumber (toLowerCase resumeContent) = false ->
  (forall word, In word rubricKeywords -> mentions resumeContent word = false) ->
  generateQuickScore resumeContent = 0.
Proof.
  intros Hw Hat Hmail Hphone Hk. unfold mentions in *.
  assert (K : forall word, existsb (String.eqb word) rubricKeywords = true ->
                           includes (toLowerCase resumeContent) word = false).
  { intros word H. apply Hk. apply existsb_exists in H. destruct H as (x & Hx & E).
    apply String.eqb_eq in E. subst x. exact Hx. }
  unfold generateQuickScore. cbv zeta.
  rewrite technicalTerms_absent.
  2:{ intros t Ht. apply Hk. unfold rubricKeywords. apply in_or_app. right.
      apply in_or_app. right. exact Ht. }
  rewrite Hat, Hmail, Hphone.
  cbn [experienceKeywords filter].
  rewrite !K by reflexivity.
  destruct (150 <? Z.of_nat (splitLength resumeContent)) eqn:E1; [apply Z.ltb_lt in E1; lia|].
  destruct (300 <? Z.of_nat (splitLength resumeContent)) eqn:E2; [apply Z.ltb_lt in E2; lia|].
  destruct (500 <? Z.of_nat (splitLength resumeContent)) eqn:E3; [apply Z.ltb_lt in E3; lia|].
  reflexivity.
Qed.

Lemma quickScore_full (resumeContent phone : string) :
  (500 < splitLength resumeContent)%nat ->
  includes resumeContent "@" = true ->
  phoneFormatted phone = true ->
  includes resumeContent phone = true ->
  (4 <= List.length (filter (mentions resumeContent) experienceKeywords))%nat ->
  includes resumeContent "Bachelor of Science" = true ->
  includes resumeContent "Skills: Python, SQL" = true ->
  68 <= generateQuickScore resumeContent.
Proof.
  intros Hw Hat Hformat Hphone Hexp Hdeg Hskills.
  apply includes_toLowerCase in Hat, Hphone, Hdeg, Hskills.
  rewrite (hasFormat_toLowerCase "555-123-4567" phone eq_refl Hformat) in Hphone.
  apply (test_phoneNumber_formatted _ phone Hformat) in Hphone.
  apply (includes_append _ "bachelor" " of science") in Hdeg.
  apply (includes_append _ "skills" ": python, sql") in Hskills.
  change (toLowerCase "@") with "@" in Hat.
  unfold generateQuickScore. cbv zeta.
  rewrite Hat, Hphone, Hdeg, Hskills.
  unfold mentions in Hexp.
  pose proof (Nat2Z.is_nonneg (countAll technicalTerm (toLowerCase resumeContent))) as Hs.
  revert Hexp Hs.
  generalize (List.length
    (filter (fun keyword => includes (toLowerCase resumeContent) keyword) experienceKeywords)).
  generalize (Z.of_nat (countAll technicalTerm (toLowerCase resumeContent))).
  intros skills matches Hm Hs.
  destruct (150 <? Z.of_nat (splitLength resumeContent)) eqn:E1; [|apply Z.ltb_ge in E1; lia].
  destruct (300 <? Z.of_nat (splitLength resumeContent)) eqn:E2; [|apply Z.ltb_ge in E2; lia].
  destruct (500 <? Z.of_nat (splitLength resumeContent)) eqn:E3; [|apply Z.ltb_ge in E3; lia].
  cbn [orb].
  repeat match goal with
         | |- context [if ?b then _ else _] => destruct b
         end; lia.
Qed.
End QuickScoreBoundaries.

(** C7: the quick score is always in [0,100]; a 40-word text that mentions
    neither "@" nor "email", holds no phone-shaped digit group and none of
    the rubric's keywords scores less than 20 (it scores 0); a 600-word text
    with an "@", a phone number in the format 555-123-4567 (any ten digits,
    grouped three, three and four by hyphens), four of the seven experience
    keywords, "Bachelor of Science" and "Skills: Python, SQL" scores at
    least 60. *)
Theorem generateQuickScore_boundaries :
  (forall resumeContent, (0 <= generateQuickScore resumeContent <= 100)%Z) /\
  (forall resumeContent,
     splitLength resumeContent = 40 ->
     mentions resumeContent "@" = false ->
     mentions resumeContent "email" = false ->
     test phoneNumber (toLowerCase resumeContent) = false ->
     (forall word, In word rubricKeywords -> mentions resumeContent word = false) ->
     (generateQuickScore resumeContent < 20)%Z) /\
  (forall resumeContent phone,
     splitLength resumeContent = 600 ->
     includes resumeContent "@" = true ->
     phoneFormatted phone = true ->
     includes resumeContent phone = true ->
     4 <= List.length (filter (mentions resumeContent) experienceKeywords) ->
     includes resumeContent "Bachelor of Science" = true ->
     includes resumeContent "Skills: Python, SQL" = true ->
     (60 <= generateQuickScore resumeContent)%Z).
Proof.
  split; [exact quickScore_range|]. split.
  - intros t Hw Hat Hmail Hphone Hk.
    rewrite (quickScore_plain t); [lia | rewrite Hw; repeat constructor | assumption ..].
  - intros t phone Hw Hat Hformat Hphone Hexp Hdeg Hskills.
    pose proof (quickScore_full t phone) as H.
    assert (500 < splitLength t) by (rewrite Hw; repeat constructor).
    specialize (H ltac:(assumption) Hat Hformat Hphone Hexp Hdeg Hskills). lia.
Qed.

Lemma generateQuickScore_boundaries_witness :
  (generateQuickScore fortyWords < 20)%Z /\ (60 <= generateQuickScore sixHundredWords)%Z.
Proof.
  split.
  - apply (proj1 (proj2 generateQuickScore_boundaries) fortyWords);
      try (vm_compute; reflexivity).
    intros word H. unfold rubricKeywords in H. cbn in H.
    repeat (destruct H as [<- | H]; [vm_compute; reflexivity|]). contradiction.
  - apply (proj2 (proj2 generateQuickScore_boundaries) sixHundredWords "555-123-4567");
      vm_compute; reflexivity.
Defined.

(** ** Analysis requester *)

Section RequesterFacts.
Variable NumberToString : JsNum -> string.
Variable StringToNumber : string -> JsNum.
Variable OPENAI_API_KEY : option string.
Variable RESUME_ANALYSIS_SYSTEM_PROMPT : string.
Variable ANALYSIS_INSTRUCTIONS : string.
Variable chatCompletion : string -> string -> Result (option string).
Variable JSON_parse : string -> Result JsValue.
Variable notAFunction : string -> string.

Local Abbreviation analyze :=
  (analyzeResume NumberToString StringToNumber OPENAI_API_KEY RESUME_ANALYSIS_SYSTEM_PROMPT
     ANALYSIS_INSTRUCTIONS chatCompletion JSON_parse notAFunction).

(** C8: when the trimmed resume text has fewer than 100 characters or the
    job role is empty after trimming, [analyzeResume] rejects with an error
    that the route answers with status 400 (invalid input), and the
    requests sent to the external service are the same after as before:
    none was made. *)
Theorem analyzeResume_fails_fast (resumeInput : ResumeInput) (jobRole : string)
    (jobDescription : option string) (sent : Trace) :
  String.length (trim (content resumeInput)) < 100 \/ String.length (trim jobRole) = 0 ->
  exists message,
    analyze resumeInput jobRole jobDescription sent = (Throw (Error message), sent) /\
    statusCodeOf message = 400.
Proof.
  intros H. unfold analyzeResume, tryCatch.
  destruct (String.eqb (content resumeInput) ""
            || Nat.ltb (String.length (trim (content resumeInput))) 100) eqn:E1.
  - eexists. split; [reflexivity | vm_compute; reflexivity].
  - apply orb_false_elim in E1. destruct E1 as [_ E1]. apply Nat.ltb_ge in E1.
    destruct H as [H|H]; [lia|].
    rewrite H. cbn [Nat.eqb]. rewrite orb_true_r.
    eexists. split; [reflexivity | vm_compute; reflexivity].
Qed.
End RequesterFacts.

Lemma analyzeResume_fails_fast_witness :
  String.length (content shortResume) = 120 /\
  exists message,
    analyzeResume (fun _ => "") (fun _ => NaN) (Some "sk-test") "" ""
      (fun _ _ => Ok (Some "{}")) (fun _ => Ok (JObject [])) (fun _ => "") shortResume "" None []
    = (Throw (Error message), []) /\
    statusCodeOf message = 400.
Proof.
  split; [reflexivity|].
  apply (analyzeResume_fails_fast (fun _ => "") (fun _ => NaN) (Some "sk-test") "" ""
           (fun _ _ => Ok (Some "{}")) (fun _ => Ok (JObject [])) (fun _ => "") shortResume "" None []).
  right. reflexivity.
Defined.

(** With a valid text and role the service is called once. *)
Example analyzeResume_calls_service :
  snd (analyzeResume (fun _ => "") (fun _ => NaN) (Some "sk-test") "system" "instructions"
         (fun _ _ => Ok (Some "{}")) (fun _ => Ok (JObject [])) (fun _ => "") shortResume "Data Scientist"
         None [])
  = [("system",
      createResumeAnalysisPrompt "instructions" (content shortResume) "Data Scientist" None)].
Proof. reflexivity. Qed.

(** ** Text normalizer: lengths *)

Section ReplaceLength.
Variable m : matcher.
Variable tpl : string -> string.

Lemma length_append (a b : string) :
  String.length (a ++ b) = String.length a + String.length b.
Proof. induction a as [|c a IH]; cbn; [reflexivity | rewrite IH; reflexivity]. Qed.

Lemma replaceFrom_length (prev : option ascii) (skip : nat) (s : string) :
  shrinking m tpl ->
  String.length (replaceFrom m tpl prev skip s) <= String.length s - skip.
Proof.
  intros Hm. revert prev skip.
  induction s as [|c r IH]; intros prev skip.
  - destruct skip; cbn; [|lia].
    destruct (m prev "") as [[|k]|] eqn:E; cbn.
    + destruct (Hm _ _ _ E) as [_ H]. cbn in H. rewrite length_append. cbn. lia.
    + destruct (Hm _ _ _ E) as [H _]. cbn in H. lia.
    + lia.
  - destruct skip as [|skip]; cbn [replaceFrom].
    + destruct (m prev (String c r)) as [[|k]|] eqn:E.
      * destruct (Hm _ _ _ E) as [_ H]. cbn in H. rewrite length_append.
        cbn [String.length]. specialize (IH (Some c) 0). lia.
      * destruct (Hm _ _ _ E) as [H1 H2]. rewrite length_append.
        cbn [String.length] in *. specialize (IH (Some c) k). lia.
      * cbn [String.length]. specialize (IH (Some c) 0). lia.
    + cbn [String.length]. specialize (IH (Some c) skip). lia.
Qed.

Lemma replaceAll_length (s : string) :
  shrinking m tpl -> String.length (replaceAll m tpl s) <= String.length s.
Proof. intros H. unfold replaceAll. pose proof (replaceFrom_length None 0 s H). lia. Qed.
End ReplaceLength.

Lemma startsWith_length (s p : string) :
  startsWith s p = true -> String.length p <= String.length s.
Proof.
  revert s. induction p as [|a p IH]; intros s H; cbn; [lia|].
  destruct s as [|b s]; cbn in H; [discriminate|].
  apply andb_prop in H. destruct H as [_ H]. apply IH in H. cbn. lia.
Qed.

Lemma spanLen_length (p : ascii -> bool) (s : string) : spanLen p s <= String.length s.
Proof.
  induction s as [|c s IH]; cbn; [lia|]. destruct (p c); cbn; lia.
Qed.

Lemma numericToLineEnd_length (s : string) (k : nat) :
  numericToLineEnd s = Some k -> k <= String.length s.
Proof.
  revert k. induction s as [|c s IH]; cbn; intros k H.
  - injection H as <-. lia.
  - destruct (isDigit c || isSpace c).
    + destruct (numericToLineEnd s) as [j|].
      * injection H as <-. specialize (IH j eq_refl). lia.
      * destruct (isLineTerminator c); [injection H as <-; lia | discriminate].
    + destruct (isLineTerminator c); [injection H as <-; lia | discriminate].
Qed.

Lemma spaceToLF_length (s : string) (k : nat) :
  spaceToLF s = Some k -> 1 <= k <= String.length s.
Proof.
  revert k. induction s as [|c s IH]; cbn; intros k H; [discriminate|].
  destruct (isSpace c); [|discriminate].
  destruct (spaceToLF s) as [j|].
  - injection H as <-. specialize (IH j eq_refl). lia.
  - destruct (isLF c); [injection H as <-; lia | discriminate].
Qed.

Lemma shrinking_literal (p r : string) :
  String.length r <= String.length p -> shrinking (literal p) (const r).
Proof.
  intros H prev s k E. unfold literal in E.
  destruct (startsWith s p) eqn:S; [|discriminate]. injection E as <-.
  split; [apply startsWith_length; exact S | exact H].
Qed.

Lemma shrinking_oneOf (p : ascii -> bool) (r : string) :
  String.length r <= 1 -> shrinking (oneOf p) (const r).
Proof.
  intros H prev s k E. unfold oneOf in E.
  destruct s as [|c s]; [discriminate|]. destruct (p c); [|discriminate].
  injection E as <-. split; [cbn; lia | exact H].
Qed.

Lemma shrinking_atLeast (n : nat) (p : ascii -> bool) (r : string) :
  String.length r <= n -> shrinking (atLeast n p) (const r).
Proof.
  intros H prev s k E. unfold atLeast in E.
  destruct (Nat.leb n (spanLen p s)) eqn:L; [|discriminate]. injection E as <-.
  apply Nat.leb_le in L. split; [apply spanLen_length | unfold const; lia].
Qed.

Lemma shrinking_numberLine : shrinking numberLine (const "").
Proof.
  intros prev s k E. unfold numberLine in E.
  destruct (atLineStart prev); [|discriminate].
  split; [apply numericToLineEnd_length; exact E | cbn; lia].
Qed.

Lemma shrinking_paragraphBreak : shrinking paragraphBreak (const NLNL).
Proof.
  intros prev s k E. unfold paragraphBreak in E.
  destruct s as [|c s]; [discriminate|]. destruct (isLF c); [|discriminate].
  destruct (spaceToLF s) as [j|] eqn:J; [|discriminate]. injection E as <-.
  apply spaceToLF_length in J. cbn. lia.
Qed.

Lemma trimStart_length (s : string) : String.length (trimStart s) <= String.length s.
Proof.
  induction s as [|c s IH]; cbn; [lia|]. destruct (isSpace c); cbn; lia.
Qed.

Lemma trimEnd_length (s : string) : String.length (trimEnd s) <= String.length s.
Proof.
  induction s as [|c s IH]; cbn; [lia|].
  destruct (trimEnd s); [destruct (isSpace c)|]; cbn in *; lia.
Qed.

Lemma trim_length (s : string) : String.length (trim s) <= String.length s.
Proof.
  unfold trim. pose proof (trimEnd_length (trimStart s)). pose proof (trimStart_length s). lia.
Qed.

(** *** The three steps that insert a space *)

Section Splitting.
Variables p q : ascii -> bool.
Hypothesis p_word : forall c, p c = true -> isWord c = true.
Hypothesis q_word : forall c, q c = true -> isWord c = true.

Local Abbreviation split := (replaceFrom (adjacent p q) spaced).

Lemma split_match (prev : option ascii) (a b : ascii) (r : string) :
  p a && q b = true ->
  split prev 0 (String a (String b r))
  = String a (String SPACE (String b (split (Some b) 0 r))).
Proof. intros H. cbn. rewrite H. reflexivity. Qed.

Lemma split_pass (prev : option ascii) (a : ascii) (r : string) :
  adjacent p q prev (String a r) = None ->
  split prev 0 (String a r) = String a (split (Some a) 0 r).
Proof. intros H. cbn [replaceFrom]. rewrite H. reflexivity. Qed.

Lemma adjacent_cases (prev : option ascii) (s : string) :
  (exists a b r, s = String a (String b r) /\ p a && q b = true) \/
  adjacent p q prev s = None.
Proof.
  destruct s as [|a [|b r]]; [right; reflexivity | right; reflexivity |].
  cbn. destruct (p a && q b) eqn:E; [left; exists a, b, r; auto | right; reflexivity].
Qed.

Lemma split_facts (n : nat) (s : string) (prev : option ascii) :
  String.length s <= n ->
  firstUnit (split prev 0 s) = firstUnit s /\
  String.length (split prev 0 s) + wordJunctions (split prev 0 s)
  = String.length s + wordJunctions s.
Proof.
  revert s prev. induction n as [|n IH]; intros s prev Hn.
  - destruct s; [|cbn in Hn; lia]. cbn. split; reflexivity.
  - destruct (adjacent_cases prev s) as [(a & b & r & -> & E) | E].
    + rewrite (split_match prev a b r E).
      cbn [String.length] in Hn.
      destruct (IH r (Some b) ltac:(lia)) as [F L].
      split; [reflexivity|].
      cbn [String.length wordJunctions firstUnit]. rewrite F.
      apply andb_prop in E. destruct E as [Ea Eb].
      rewrite (p_word _ Ea), (q_word _ Eb).
      replace (isWord SPACE) with false by reflexivity.
      rewrite andb_false_r. cbn [andb]. lia.
    + destruct s as [|a r]; [cbn; split; reflexivity|].
      rewrite (split_pass prev a r E).
      cbn [String.length] in Hn.
      destruct (IH r (Some a) ltac:(lia)) as [F L].
      split; [reflexivity|].
      cbn [String.length wordJunctions firstUnit]. rewrite F. lia.
Qed.

Lemma split_potential (s : string) :
  String.length (replaceAll (adjacent p q) spaced s)
    + wordJunctions (replaceAll (adjacent p q) spaced s)
  = String.length s + wordJunctions s.
Proof. apply (split_facts (String.length s) s None). lia. Qed.
End Splitting.

Lemma wordJunctions_bound (s : string) : String.length s + wordJunctions s <= 2 * String.length s - 1.
Proof.
  induction s as [|a r IH]; cbn [String.length wordJunctions]; [lia|].
  destruct r as [|b r']; [cbn; lia|].
  cbn [firstUnit]. cbn [String.length] in *.
  destruct (isWord a && isWord b); lia.
Qed.

Lemma isLower_word (c : ascii) : isLower c = true -> isWord c = true.
Proof. unfold isWord. intros ->. reflexivity. Qed.

Lemma isUpper_word (c : ascii) : isUpper c = true -> isWord c = true.
Proof. unfold isWord. intros ->. rewrite orb_true_r. reflexivity. Qed.

Lemma isDigit_word (c : ascii) : isDigit c = true -> isWord c = true.
Proof. unfold isWord. intros ->. rewrite orb_true_r. reflexivity. Qed.

Lemma cleanExtractedText_steps (text : string) :
  cleanExtractedText text
  = if String.eqb text "" then ""
    else trim (normalizeParagraphs (wordsSplit (dropNumberLines (unprintableDropped text)))).
Proof. reflexivity. Qed.

Lemma dropNumberLines_length (text : string) :
  String.length (dropNumberLines (unprintableDropped text)) <= String.length text.
Proof.
  unfold unprintableDropped, dropNumberLines, dropUnprintable, collapseBlanks, collapseNewlines,
    unifyCR, unifyCRLF.
  eapply Nat.le_trans; [apply replaceAll_length, shrinking_numberLine|].
  eapply Nat.le_trans; [apply replaceAll_length, shrinking_oneOf; cbn; lia|].
  eapply Nat.le_trans; [apply replaceAll_length, shrinking_atLeast; cbn; lia|].
  eapply Nat.le_trans; [apply replaceAll_length, shrinking_atLeast; cbn; lia|].
  eapply Nat.le_trans; [apply replaceAll_length, shrinking_oneOf; cbn; lia|].
  apply replaceAll_length, shrinking_literal. cbn. lia.
Qed.

Lemma wordsSplit_length (text : string) :
  String.length (wordsSplit text) <= 2 * String.length text - 1.
Proof.
  unfold wordsSplit, splitAfterDigit, splitBeforeDigit, splitCamelCase.
  pose proof (split_potential isLower isUpper isLower_word isUpper_word text) as H1.
  pose proof (split_potential isWord isDigit (fun _ H => H) isDigit_word
                (replaceAll (adjacent isLower isUpper) spaced text)) as H2.
  pose proof (split_potential isDigit isWord isDigit_word (fun _ H => H)
                (replaceAll (adjacent isWord isDigit) spaced
                   (replaceAll (adjacent isLower isUpper) spaced text))) as H3.
  pose proof (wordJunctions_bound text). lia.
Qed.

(** C4, as the code has it: the normalizer only ever lengthens a text by
    the single spaces of its word-splitting step, one at most between two
    adjacent characters, so the result has at most [2 * length - 1]
    characters. *)
Theorem cleanExtractedText_length (text : string) :
  String.length (cleanExtractedText text) <= 2 * String.length text - 1.
Proof.
  rewrite cleanExtractedText_steps.
  destruct (String.eqb text ""); [cbn; lia|].
  eapply Nat.le_trans; [apply trim_length|].
  eapply Nat.le_trans; [apply replaceAll_length, shrinking_paragraphBreak|].
  eapply Nat.le_trans; [apply wordsSplit_length|].
  pose proof (dropNumberLines_length text). lia.
Qed.

(** C4 as stated fails: the two characters of "aB" become three. *)
Lemma cleanExtractedText_lengthens :
  cleanExtractedText "aB" = "a B" /\
  String.length "aB" < String.length (cleanExtractedText "aB").
Proof. split; [reflexivity | cbn; lia]. Qed.

(** The bound is reached: "a1" becomes "a 1". *)
Example cleanExtractedText_length_tight :
  String.length (cleanExtractedText "a1") = 2 * String.length "a1" - 1.
Proof. reflexivity. Qed.

(** ** Text normalizer: idempotence *)

(** *** Positions of a text *)

Lemma everywhere_impl (P Q : option ascii -> string -> Prop) (prev : option ascii) (s : string) :
  (forall p x, P p x -> Q p x) -> everywhere P prev s -> everywhere Q prev s.
Proof.
  intros H. revert prev. induction s as [|c r IH]; intros prev; cbn.
  - intros [H0 _]. split; [apply H; exact H0 | exact I].
  - intros [H0 H1]. split; [apply H; exact H0 | apply IH; exact H1].
Qed.

Lemma allUnits_append (p : ascii -> bool) (a b : string) :
  allUnits p (a ++ b) = allUnits p a && allUnits p b.
Proof.
  induction a as [|c a IH]; cbn; [reflexivity|]. rewrite IH. apply andb_assoc.
Qed.

Lemma allUnits_takeUnits (p : ascii -> bool) (n : nat) (s : string) :
  allUnits p s = true -> allUnits p (takeUnits n s) = true.
Proof.
  revert s. induction n as [|n IH]; intros s H; [destruct s; reflexivity|].
  destruct s as [|c r]; [reflexivity|]. cbn in *.
  apply andb_prop in H. destruct H as [H1 H2]. rewrite H1. cbn. apply IH. exact H2.
Qed.

Lemma allUnits_everywhere (p : ascii -> bool) (P : option ascii -> string -> Prop)
    (prev : option ascii) (s : string) :
  (forall q x, allUnits p x = true -> P q x) ->
  allUnits p s = true -> everywhere P prev s.
Proof.
  intros H. revert prev. induction s as [|c r IH]; intros prev A.
  - split; [apply H; exact A | exact I].
  - split; [apply H; exact A|]. cbn in A. apply andb_prop in A. apply IH. apply A.
Qed.

Lemma take_drop (n : nat) (s : string) : takeUnits n s ++ dropUnits n s = s.
Proof.
  revert s. induction n as [|n IH]; intros s; [destruct s; reflexivity|].
  destruct s as [|c r]; [reflexivity|]. cbn. rewrite IH. reflexivity.
Qed.

(** *** The replace driver *)

Section ReplaceFacts.
Variable m : matcher.
Variable tpl : string -> string.

Lemma silent_stable (prev : option ascii) (s : string) : silent m prev s -> stable m tpl prev s.
Proof. unfold silent, stable. intros ->. exact I. Qed.

Lemma replaceFrom_stable (s : string) (prev : option ascii) (skip : nat) :
  everywhere (stable m tpl) prev s -> replaceFrom m tpl prev skip s = dropUnits skip s.
Proof.
  revert prev skip. induction s as [|c r IH]; intros prev skip H.
  - destruct skip; [|reflexivity]. cbn. destruct H as [H _]. unfold stable in H.
    destruct (m prev "") as [[|k]|]; cbn in *.
    + destruct H as [_ ->]. reflexivity.
    + destruct H as [H _]. lia.
    + reflexivity.
  - destruct H as [H0 H1]. destruct skip as [|skip]; cbn [replaceFrom dropUnits].
    + unfold stable in H0. destruct (m prev (String c r)) as [[|k]|].
      * destruct H0 as [_ E]. cbn in E. rewrite E. cbn.
        rewrite (IH _ 0 H1). destruct r; reflexivity.
      * destruct H0 as [_ E]. rewrite E, (IH _ k H1). cbn. rewrite take_drop. reflexivity.
      * rewrite (IH _ 0 H1). destruct r; reflexivity.
    + apply IH. exact H1.
Qed.

Lemma replaceAll_stable (s : string) : everywhere (stable m tpl) None s -> replaceAll m tpl s = s.
Proof. intros H. unfold replaceAll. rewrite (replaceFrom_stable s None 0 H). destruct s; reflexivity. Qed.

(** Skipping [k] units resumes the search behind them. *)
Lemma replaceFrom_skip (k : nat) (s : string) (prev : option ascii) :
  k <= String.length s ->
  replaceFrom m tpl prev k s
  = replaceFrom m tpl (lastUnit prev (takeUnits k s)) 0 (dropUnits k s).
Proof.
  revert s prev. induction k as [|k IH]; intros s prev H.
  - destruct s; reflexivity.
  - destruct s as [|c r]; [cbn in H; lia|]. cbn [replaceFrom takeUnits dropUnits lastUnit].
    apply IH. cbn in H. lia.
Qed.

Lemma replaceFrom_match (prev : option ascii) (s : string) (k : nat) :
  m prev s = Some (S k) -> S k <= String.length s ->
  replaceFrom m tpl prev 0 s
  = tpl (takeUnits (S k) s)
      ++ replaceFrom m tpl (lastUnit prev (takeUnits (S k) s)) 0 (dropUnits (S k) s).
Proof.
  intros E H. destruct s as [|c r]; [cbn in H; lia|].
  cbn [replaceFrom]. rewrite E. f_equal.
  cbn [takeUnits dropUnits lastUnit]. apply replaceFrom_skip. cbn in H. lia.
Qed.

Lemma replaceFrom_pass (prev : option ascii) (c : ascii) (r : string) :
  m prev (String c r) = None \/ (m prev (String c r) = Some 0 /\ tpl "" = "") ->
  replaceFrom m tpl prev 0 (String c r) = String c (replaceFrom m tpl (Some c) 0 r).
Proof.
  intros [E | [E T]]; cbn [replaceFrom]; rewrite E; [reflexivity|]. rewrite T. reflexivity.
Qed.

(** The units of the output satisfy what those of the input and of the
    replacements do. *)
Lemma replaceFrom_allUnits (p : ascii -> bool) (s : string) (prev : option ascii) (skip : nat) :
  (forall w, allUnits p w = true -> allUnits p (tpl w) = true) ->
  allUnits p s = true -> allUnits p (replaceFrom m tpl prev skip s) = true.
Proof.
  intros T. revert prev skip. induction s as [|c r IH]; intros prev skip A.
  - destruct skip; [|reflexivity]. cbn.
    destruct (m prev "") as [[|k]|]; [| |reflexivity];
      rewrite allUnits_append, T by reflexivity; reflexivity.
  - pose proof A as A'. cbn in A. apply andb_prop in A. destruct A as [A0 A1].
    destruct skip as [|skip]; cbn [replaceFrom]; [|apply IH; exact A1].
    destruct (m prev (String c r)) as [[|k]|].
    + rewrite allUnits_append, T by reflexivity. cbn. rewrite A0. apply IH. exact A1.
    + rewrite allUnits_append, T by (apply allUnits_takeUnits; exact A').
      apply IH. exact A1.
    + cbn. rewrite A0. apply IH. exact A1.
Qed.
End ReplaceFacts.

(** *** Printable texts

    A printable text is made of printable ASCII characters and line feeds:
    what the fifth step of the normalizer keeps. *)

Lemma printable_facts (c : ascii) :
  isPrintable c = true ->
  isCR c = false /\ isLineTerminator c = isLF c /\ isSpace c = (isBlank c || isLF c) /\
  (isBlank c = true -> c = SPACE).
Proof.
  destruct c as [[] [] [] [] [] [] [] []]; cbn; intros H; try discriminate H;
    repeat split; intros; try reflexivity; try discriminate.
Qed.

Lemma printableText_cons (c : ascii) (r : string) :
  printableText (String c r) = true -> isPrintable c = true /\ printableText r = true.
Proof. unfold printableText. cbn. apply andb_prop. Qed.

Section PrintableTexts.
Variable s : string.
Hypothesis printable : printableText s = true.

Lemma unifyCRLF_printable : unifyCRLF s = s.
Proof.
  apply replaceAll_stable. apply (allUnits_everywhere isPrintable); [|exact printable].
  intros q x A. apply silent_stable. unfold silent, literal.
  destruct x as [|c r]; [reflexivity|]. apply printableText_cons in A. destruct A as [A _].
  apply printable_facts in A. destruct A as (A & _).
  cbn. destruct c as [[] [] [] [] [] [] [] []]; try reflexivity; discriminate A.
Qed.

Lemma unifyCR_printable : unifyCR s = s.
Proof.
  apply replaceAll_stable. apply (allUnits_everywhere isPrintable); [|exact printable].
  intros q x A. apply silent_stable. unfold silent, oneOf.
  destruct x as [|c r]; [reflexivity|]. apply printableText_cons in A. destruct A as [A _].
  apply printable_facts in A. destruct A as (-> & _). reflexivity.
Qed.

Lemma dropUnprintable_printable : dropUnprintable s = s.
Proof.
  apply replaceAll_stable. apply (allUnits_everywhere isPrintable); [|exact printable].
  intros q x A. apply silent_stable. unfold silent, oneOf.
  destruct x as [|c r]; [reflexivity|]. apply printableText_cons in A. destruct A as [-> _].
  reflexivity.
Qed.

(** Every step yields a printable text again. *)
Lemma replaceAll_printable (m : matcher) (tpl : string -> string) :
  (forall w, printableText w = true -> printableText (tpl w) = true) ->
  printableText (replaceAll m tpl s) = true.
Proof. intros T. apply replaceFrom_allUnits; assumption. Qed.

Lemma spaced_printable (w : string) :
  printableText w = true -> printableText (spaced w) = true.
Proof.
  destruct w as [|a w]; intros A; [reflexivity|].
  apply printableText_cons in A. destruct A as [A0 A1].
  unfold printableText in *. cbn. rewrite A0, A1. reflexivity.
Qed.

Lemma collapseNewlines_printable : printableText (collapseNewlines s) = true.
Proof. apply replaceAll_printable. reflexivity. Qed.

Lemma collapseBlanks_printable : printableText (collapseBlanks s) = true.
Proof. apply replaceAll_printable. reflexivity. Qed.

Lemma dropNumberLines_printable : printableText (dropNumberLines s) = true.
Proof. apply replaceAll_printable. reflexivity. Qed.

Lemma splitCamelCase_printable : printableText (splitCamelCase s) = true.
Proof. apply replaceAll_printable, spaced_printable. Qed.

Lemma splitBeforeDigit_printable : printableText (splitBeforeDigit s) = true.
Proof. apply replaceAll_printable, spaced_printable. Qed.

Lemma splitAfterDigit_printable : printableText (splitAfterDigit s) = true.
Proof. apply replaceAll_printable, spaced_printable. Qed.

Lemma normalizeParagraphs_printable : printableText (normalizeParagraphs s) = true.
Proof. apply replaceAll_printable. reflexivity. Qed.

Lemma trimStart_printable : printableText (trimStart s) = true.
Proof.
  revert printable. clear. induction s as [|c r IH]; intros A; [reflexivity|].
  cbn. destruct (isSpace c); [|exact A]. apply IH. apply printableText_cons in A. apply A.
Qed.

Lemma trimEnd_printable : printableText (trimEnd s) = true.
Proof.
  revert printable. clear. induction s as [|c r IH]; intros A; [reflexivity|].
  apply printableText_cons in A. destruct A as [A0 A1]. specialize (IH A1).
  cbn. destruct (trimEnd r) eqn:E.
  - destruct (isSpace c); [reflexivity|]. unfold printableText. cbn. rewrite A0. reflexivity.
  - unfold printableText in *. cbn in *. rewrite A0. exact IH.
Qed.
End PrintableTexts.

Lemma trim_printable (s : string) : printableText s = true -> printableText (trim s) = true.
Proof. intros A. unfold trim. apply trimEnd_printable, trimStart_printable, A. Qed.

(** *** Adjacent units *)

Lemma noAdjacent_cons (R : ascii -> ascii -> bool) (o : option ascii) (c : ascii) (r : string) :
  noAdjacent R o (String c r) = true <->
  joint R o (Some c) = false /\ noAdjacent R (Some c) r = true.
Proof. cbn. rewrite andb_true_iff, negb_true_iff. reflexivity. Qed.

Lemma noAdjacent_append (R : ascii -> ascii -> bool) (a b : string) (o : option ascii) :
  noAdjacent R o (a ++ b) = noAdjacent R o a && noAdjacent R (lastUnit o a) b.
Proof.
  revert o. induction a as [|c a IH]; intros o; [reflexivity|].
  cbn [append noAdjacent lastUnit]. rewrite IH. apply andb_assoc.
Qed.

Lemma noAdjacent_weaken (R : ascii -> ascii -> bool) (o : option ascii) (s : string) :
  noAdjacent R o s = true -> noAdjacent R None s = true.
Proof.
  destruct s as [|c r]; [reflexivity|]. intros H. apply noAdjacent_cons in H.
  apply noAdjacent_cons. split; [reflexivity | apply H].
Qed.

Lemma noAdjacent_drop (R : ascii -> ascii -> bool) (k : nat) (s : string) (o : option ascii) :
  noAdjacent R o s = true ->
  noAdjacent R (lastUnit o (takeUnits k s)) (dropUnits k s) = true.
Proof.
  revert s o. induction k as [|k IH]; intros s o H; [destruct s; exact H|].
  destruct s as [|c r]; [exact H|]. cbn [takeUnits dropUnits lastUnit].
  apply IH. apply noAdjacent_cons in H. apply H.
Qed.

Lemma firstUnit_drop_span (p : ascii -> bool) (s : string) :
  match firstUnit (dropUnits (spanLen p s) s) with
  | Some c => p c = false
  | None => True
  end.
Proof.
  induction s as [|c r IH]; cbn; [exact I|].
  destruct (p c) eqn:E; cbn; [exact IH | exact E].
Qed.

Lemma length_dropUnits (k : nat) (s : string) :
  String.length (dropUnits k s) = String.length s - k.
Proof.
  revert s. induction k as [|k IH]; intros s; [destruct s; cbn; lia|].
  destruct s as [|c r]; [reflexivity|]. cbn. apply IH.
Qed.

(** *** Steps that keep a relation out *)

Section KeptApart.
Variable m : matcher.
Variable tpl : string -> string.
Variable R : ascii -> ascii -> bool.

Lemma replaceFrom_noAdjacent (n : nat) (s : string) (prev o : option ascii) :
  harmless m tpl R ->
  String.length s <= n ->
  noAdjacent R prev s = true -> safer R o prev ->
  noAdjacent R o (replaceFrom m tpl prev 0 s) = true.
Proof.
  intros G. revert s prev o. induction n as [|n IH]; intros s prev o Hn A O.
  - destruct s; [|cbn in Hn; lia]. cbn.
    destruct (m prev "") as [k|] eqn:E; [|reflexivity].
    destruct (G _ _ _ o E A O) as (B & T & _).
    cbn in B. assert (k = 0) by lia. subst k. cbn in T.
    rewrite noAdjacent_append, T. reflexivity.
  - destruct (m prev s) as [[|k]|] eqn:E.
    + destruct (G _ _ _ o E A O) as (_ & T & F).
      assert (T0 : takeUnits 0 s = "") by (destruct s; reflexivity). rewrite T0 in T, F.
      cbn [lastUnit] in F.
      destruct s as [|c r]; [cbn; rewrite E, noAdjacent_append, T; reflexivity|].
      cbn [replaceFrom]. rewrite E, noAdjacent_append, T. cbn [andb].
      apply noAdjacent_cons in A. destruct A as [A0 A1].
      apply noAdjacent_cons. split; [apply F; exact A0|].
      apply IH; [cbn in Hn; lia | exact A1 | intros x H; exact H].
    + destruct (G _ _ _ o E A O) as (B & T & F).
      rewrite (replaceFrom_match _ _ prev s k E B), noAdjacent_append, T. cbn [andb].
      apply IH; [rewrite length_dropUnits; lia | apply noAdjacent_drop; exact A | exact F].
    + destruct s as [|c r]; [cbn; rewrite E; reflexivity|].
      rewrite replaceFrom_pass by (left; exact E).
      apply noAdjacent_cons in A. destruct A as [A0 A1].
      apply noAdjacent_cons. split; [apply O; exact A0|].
      apply IH; [cbn in Hn; lia | exact A1 | intros x H; exact H].
Qed.

Lemma replaceAll_noAdjacent (s : string) :
  harmless m tpl R -> noAdjacent R None s = true -> noAdjacent R None (replaceAll m tpl s) = true.
Proof.
  intros G A. apply (replaceFrom_noAdjacent (String.length s)); auto.
  intros x H. exact H.
Qed.
End KeptApart.

Lemma safer_avoided (R : ascii -> ascii -> bool) (u : ascii) (prev : option ascii) :
  avoids R u -> safer R (Some u) prev.
Proof. intros H [c|] _; [apply H | reflexivity]. Qed.

(** Replacing a run by avoided units is harmless. *)
Lemma harmless_atLeast (R : ascii -> ascii -> bool) (n : nat) (p : ascii -> bool) (u : ascii)
    (r : string) :
  avoids R u -> allUnits (Ascii.eqb u) r = true ->
  harmless (atLeast n p) (const (String u r)) R.
Proof.
  intros H U prev s k o E A O. unfold atLeast in E.
  destruct (Nat.leb n (spanLen p s)); [|discriminate]. injection E as <-.
  split; [apply spanLen_length|]. unfold const.
  assert (X : noAdjacent R (Some u) r = true /\ lastUnit (Some u) r = Some u).
  { clear -H U. induction r as [|c r' IH]; [split; reflexivity|].
    cbn in U. apply andb_prop in U. destruct U as [U0 U1]. apply Ascii.eqb_eq in U0. subst c.
    destruct (IH U1) as [I1 I2]. split; [|exact I2].
    apply noAdjacent_cons. split; [apply H | exact I1]. }
  destruct X as [X1 X2]. split.
  - apply noAdjacent_cons. split; [destruct o; [apply H | reflexivity] | exact X1].
  - cbn [lastUnit]. rewrite X2. apply safer_avoided. exact H.
Qed.

(** Cutting out what starts at a line start is harmless for a relation
    that no line terminator opens. *)
Lemma harmless_numberLine (R : ascii -> ascii -> bool) :
  (forall a c, isLineTerminator a = true -> R a c = false) ->
  harmless numberLine (const "") R.
Proof.
  intros H prev s k o E A O. unfold numberLine in E.
  destruct (atLineStart prev) eqn:L; [|discriminate].
  split; [apply numericToLineEnd_length; exact E|]. split; [reflexivity|].
  unfold const. cbn [lastUnit]. intros x _. apply O.
  destruct prev as [a|]; [|reflexivity]. destruct x as [c|]; [|reflexivity].
  apply H. exact L.
Qed.

(** Putting a space between two units is harmless when neither is related
    to the space. *)
Lemma harmless_adjacent (R : ascii -> ascii -> bool) (p q : ascii -> bool) :
  (forall a b, p a && q b = true -> R a SPACE = false /\ R SPACE b = false) ->
  harmless (adjacent p q) spaced R.
Proof.
  intros H prev s k o E A O. unfold adjacent in E.
  destruct s as [|a [|b r]]; try discriminate.
  destruct (p a && q b) eqn:P; [|discriminate]. injection E as <-.
  destruct (H a b P) as [H1 H2].
  split; [cbn; lia|]. cbn [takeUnits spaced lastUnit]. split.
  - apply noAdjacent_cons in A. destruct A as [A0 _].
    apply noAdjacent_cons. split; [apply O; exact A0|].
    apply noAdjacent_cons. split; [exact H1|].
    apply noAdjacent_cons. split; [exact H2 | reflexivity].
  - intros c J. exact J.
Qed.

(** A paragraph break starts and ends with a line feed. *)
Lemma harmless_paragraphBreak (R : ascii -> ascii -> bool) :
  avoids R LF -> harmless paragraphBreak (const NLNL) R.
Proof.
  intros H prev s k o E A O. unfold paragraphBreak in E.
  destruct s as [|c r]; [discriminate|]. destruct (isLF c); [|discriminate].
  destruct (spaceToLF r) as [j|] eqn:J; [|discriminate]. injection E as <-.
  split; [apply spaceToLF_length in J; cbn; lia|]. unfold const, NLNL. split.
  - apply noAdjacent_cons. split; [destruct o; [apply H | reflexivity]|].
    apply noAdjacent_cons. split; [apply H | reflexivity].
  - cbn [lastUnit]. apply safer_avoided. exact H.
Qed.

(** *** What each step establishes *)

(** Collapsing blanks leaves no two adjacent blanks. *)
Lemma collapseBlanks_noAdjacent (n : nat) (s : string) (prev o : option ascii) :
  String.length s <= n ->
  joint blankPair o (firstUnit s) = false ->
  noAdjacent blankPair o (replaceFrom (atLeast 2 isBlank) (const " ") prev 0 s) = true.
Proof.
  revert s prev o. induction n as [|n IH]; intros s prev o Hn J.
  - destruct s; [reflexivity | cbn in Hn; lia].
  - destruct (atLeast 2 isBlank prev s) as [k|] eqn:E.
    + unfold atLeast in E. destruct (Nat.leb 2 (spanLen isBlank s)) eqn:L; [|discriminate].
      injection E as <-. apply Nat.leb_le in L.
      destruct (spanLen isBlank s) as [|k] eqn:K; [lia|].
      assert (E : atLeast 2 isBlank prev s = Some (S k)).
      { unfold atLeast. rewrite K. apply Nat.leb_le in L. rewrite L. reflexivity. }
      pose proof (spanLen_length isBlank s) as B. rewrite K in B.
      rewrite (replaceFrom_match _ _ prev s k E B).
      unfold const at 1. cbn [append].
      apply noAdjacent_cons. split.
      * destruct s as [|c r]; [cbn in K; discriminate|]. cbn in K.
        destruct (isBlank c) eqn:C; [|discriminate]. destruct o as [a|]; [|reflexivity].
        cbn in *. unfold blankPair in *. rewrite C, andb_true_r in J.
        rewrite J. reflexivity.
      * apply IH.
        -- rewrite length_dropUnits. lia.
        -- pose proof (firstUnit_drop_span isBlank s) as F. rewrite K in F.
           destruct (firstUnit (dropUnits (S k) s)) as [c|]; [|reflexivity].
           cbn. unfold blankPair. rewrite F. first [reflexivity | apply andb_false_r].
    + destruct s as [|c r]; [reflexivity|].
      rewrite replaceFrom_pass by (left; exact E).
      apply noAdjacent_cons. split; [exact J|].
      apply IH; [cbn in Hn; lia|].
      unfold atLeast in E. cbn [spanLen] in E.
      destruct r as [|b r']; [reflexivity|]. cbn. unfold blankPair.
      destruct (isBlank c); [|reflexivity]. cbn [spanLen] in E.
      destruct (isBlank b); [cbn in E; discriminate | reflexivity].
Qed.

Lemma upper_not_lower (c : ascii) : isUpper c = true -> isLower c = false.
Proof. destruct c as [[] [] [] [] [] [] [] []]; cbn; intros H; try discriminate H; reflexivity. Qed.

(** Splitting camel case leaves no lower-case letter before an upper-case one. *)
Lemma splitCamelCase_noAdjacent_camel (n : nat) (s : string) (prev : option ascii) :
  String.length s <= n ->
  joint camelPair prev (firstUnit s) = false ->
  noAdjacent camelPair prev (replaceFrom (adjacent isLower isUpper) spaced prev 0 s) = true.
Proof.
  revert s prev. induction n as [|n IH]; intros s prev Hn J.
  - destruct s; [reflexivity | cbn in Hn; lia].
  - destruct (adjacent_cases isLower isUpper prev s) as [(a & b & r & -> & E) | E].
    + rewrite (split_match isLower isUpper prev a b r E).
      apply andb_prop in E. destruct E as [Ea Eb].
      apply noAdjacent_cons. split; [exact J|].
      apply noAdjacent_cons. split; [cbn; unfold camelPair; first [reflexivity | apply andb_false_r]|].
      apply noAdjacent_cons. split; [reflexivity|].
      apply IH; [cbn in Hn; lia|].
      destruct (firstUnit r); [|reflexivity]. cbn. unfold camelPair.
      rewrite (upper_not_lower b Eb). reflexivity.
    + destruct s as [|a r]; [reflexivity|].
      rewrite (split_pass isLower isUpper prev a r E).
      apply noAdjacent_cons. split; [exact J|].
      apply IH; [cbn in Hn; lia|].
      destruct r as [|b r']; [reflexivity|]. cbn in E. cbn. unfold camelPair.
      destruct (isLower a && isUpper b); [discriminate | reflexivity].
Qed.

Lemma digit_not_letter (c : ascii) : isDigit c = true -> isLetter c = false.
Proof. unfold isLetter. intros ->. apply andb_false_r. Qed.

Lemma letter_word (c : ascii) : isLetter c = true -> isWord c = true.
Proof. unfold isLetter. intros H. apply andb_prop in H. apply H. Qed.

(** Splitting before digits leaves no letter before a digit ... *)
Lemma splitBeforeDigit_letterDigit (n : nat) (s : string) (prev : option ascii) :
  String.length s <= n ->
  joint letterDigit prev (firstUnit s) = false ->
  noAdjacent letterDigit prev (replaceFrom (adjacent isWord isDigit) spaced prev 0 s) = true.
Proof.
  revert s prev. induction n as [|n IH]; intros s prev Hn J.
  - destruct s; [reflexivity | cbn in Hn; lia].
  - destruct (adjacent_cases isWord isDigit prev s) as [(a & b & r & -> & E) | E].
    + rewrite (split_match isWord isDigit prev a b r E).
      apply andb_prop in E. destruct E as [Ea Eb].
      apply noAdjacent_cons. split; [exact J|].
      apply noAdjacent_cons. split; [cbn; unfold letterDigit; apply andb_false_r|].
      apply noAdjacent_cons. split; [reflexivity|].
      apply IH; [cbn in Hn; lia|].
      destruct (firstUnit r); [|reflexivity]. cbn. unfold letterDigit.
      rewrite (digit_not_letter b Eb). reflexivity.
    + destruct s as [|a r]; [reflexivity|].
      rewrite (split_pass isWord isDigit prev a r E).
      apply noAdjacent_cons. split; [exact J|].
      apply IH; [cbn in Hn; lia|].
      destruct r as [|b r']; [reflexivity|]. cbn in E. cbn. unfold letterDigit.
      destruct (isLetter a) eqn:La; [|reflexivity].
      rewrite (letter_word a La) in E. cbn in E.
      destruct (isDigit b); [discriminate | reflexivity].
Qed.

(** ... and, where no digit was followed by a letter, no two digits before
    a word unit. *)
Lemma splitBeforeDigit_noDigitDigitWord (n : nat) (s : string) (o2 prev : option ascii) :
  String.length s <= n ->
  noAdjacent digitLetter prev s = true ->
  holds isDigit o2 = false \/ joint wordDigit prev (firstUnit s) = false ->
  noDigitDigitWord o2 prev (replaceFrom (adjacent isWord isDigit) spaced prev 0 s) = true.
Proof.
  revert s o2 prev. induction n as [|n IH]; intros s o2 prev Hn Q V.
  - destruct s; [reflexivity | cbn in Hn; lia].
  - assert (W : forall c r, s = String c r ->
                holds isDigit o2 && holds isDigit prev && isWord c = false).
    { intros c r ->. apply noAdjacent_cons in Q. destruct Q as [Q0 _].
      destruct V as [V | V]; [rewrite V; reflexivity|].
      destruct prev as [p|]; [|cbn; rewrite andb_false_r; reflexivity].
      cbn in *. unfold wordDigit, digitLetter in *.
      destruct (isDigit p) eqn:Dp; [|rewrite andb_false_r; reflexivity].
      assert (Wp : isWord p = true).
      { unfold isWord. rewrite Dp. rewrite orb_true_r. reflexivity. }
      rewrite Wp in V. cbn in V, Q0.
      unfold isLetter in Q0. rewrite V in Q0. cbn in Q0. rewrite andb_true_r in Q0.
      rewrite Q0. apply andb_false_r. }
    destruct (adjacent_cases isWord isDigit prev s) as [(a & b & r & -> & E) | E].
    + rewrite (split_match isWord isDigit prev a b r E).
      cbn [noDigitDigitWord]. rewrite (W a _ eq_refl). cbn [negb andb holds].
      replace (isWord SPACE) with false by reflexivity.
      replace (isDigit SPACE) with false by reflexivity.
      rewrite !andb_false_r. cbn [negb andb].
      apply IH; [cbn in Hn; lia | | left; reflexivity].
      apply noAdjacent_cons in Q. destruct Q as [_ Q].
      apply noAdjacent_cons in Q. apply Q.
    + destruct s as [|a r]; [reflexivity|].
      rewrite (split_pass isWord isDigit prev a r E).
      cbn [noDigitDigitWord]. rewrite (W a _ eq_refl). cbn [negb andb].
      apply noAdjacent_cons in Q. destruct Q as [_ Q].
      apply IH; [cbn in Hn; lia | exact Q | right].
      destruct r as [|b r']; [reflexivity|]. cbn in E. cbn. unfold wordDigit.
      destruct (isWord a && isDigit b); [discriminate | reflexivity].
Qed.

Lemma noDigitDigitWord_tail (o2 o1 : option ascii) (c : ascii) (r : string) :
  noDigitDigitWord o2 o1 (String c r) = true -> noDigitDigitWord o1 (Some c) r = true.
Proof. cbn. intros H. apply andb_prop in H. apply H. Qed.

(** Splitting after digits then leaves no digit before a word unit. *)
Lemma splitAfterDigit_digitWord (n : nat) (s : string) (p2 prev : option ascii) :
  String.length s <= n ->
  noDigitDigitWord p2 prev s = true ->
  joint digitWord prev (firstUnit s) = false \/ holds isDigit p2 = true ->
  noAdjacent digitWord prev (replaceFrom (adjacent isDigit isWord) spaced prev 0 s) = true.
Proof.
  revert s p2 prev. induction n as [|n IH]; intros s p2 prev Hn T V.
  - destruct s; [reflexivity | cbn in Hn; lia].
  - assert (W : forall c r, s = String c r -> joint digitWord prev (Some c) = false).
    { intros c r ->. destruct V as [V | V]; [exact V|].
      cbn [noDigitDigitWord] in T. apply andb_prop in T. destruct T as [T _].
      rewrite V in T. cbn in T. apply negb_true_iff in T.
      destruct prev as [p|]; [exact T | reflexivity]. }
    destruct (adjacent_cases isDigit isWord prev s) as [(a & b & r & -> & E) | E].
    + rewrite (split_match isDigit isWord prev a b r E).
      apply andb_prop in E. destruct E as [Ea Eb].
      apply noAdjacent_cons. split; [apply (W a _ eq_refl)|].
      apply noAdjacent_cons. split; [cbn; unfold digitWord; apply andb_false_r|].
      apply noAdjacent_cons. split; [reflexivity|].
      apply (IH r (Some a)); [cbn in Hn; lia | | right; exact Ea].
      apply noDigitDigitWord_tail in T. apply noDigitDigitWord_tail in T. exact T.
    + destruct s as [|a r]; [reflexivity|].
      rewrite (split_pass isDigit isWord prev a r E).
      apply noAdjacent_cons. split; [apply (W a _ eq_refl)|].
      apply (IH r prev); [cbn in Hn; lia | apply (noDigitDigitWord_tail _ _ _ _ T) | left].
      destruct r as [|b r']; [reflexivity|]. cbn in E. cbn. unfold digitWord.
      destruct (isDigit a && isWord b); [discriminate | reflexivity].
Qed.

(** *** Lines that hold more than digits

    What the sixth step leaves: every line that is not empty holds a unit
    that is neither a digit nor white space. *)

Lemma solidAhead_numeric (s : string) :
  solidAhead s = match numericToLineEnd s with Some _ => false | None => true end.
Proof.
  induction s as [|c r IH]; [reflexivity|]. cbn. rewrite IH.
  destruct (isLineTerminator c), (isDigit c || isSpace c), (numericToLineEnd r); reflexivity.
Qed.

Lemma numericToLineEnd_lineEnds (s : string) (k : nat) :
  numericToLineEnd s = Some k -> lineEnds (dropUnits k s) = true.
Proof.
  revert k. induction s as [|c r IH]; intros k H.
  - injection H as <-. reflexivity.
  - cbn in H.
    assert (X : (if isLineTerminator c then Some 0 else None) = Some k ->
                lineEnds (dropUnits k (String c r)) = true).
    { destruct (isLineTerminator c) eqn:L; [|discriminate]. intros [= <-]. exact L. }
    destruct (isDigit c || isSpace c); [|exact (X H)].
    destruct (numericToLineEnd r) as [j|]; [|exact (X H)].
    injection H as <-. apply IH. reflexivity.
Qed.

Lemma solidLines_cons (prev : option ascii) (c : ascii) (r : string) :
  solidLines prev (String c r) = true <->
  (atLineStart prev = true -> isLineTerminator c = false -> solidAhead (String c r) = true)
  /\ solidLines (Some c) r = true.
Proof.
  cbn [solidLines]. rewrite andb_true_iff.
  destruct (atLineStart prev), (isLineTerminator c); cbn [andb negb];
    split; intros [A B]; split; try exact B; try reflexivity;
    try (intros; discriminate); try (intros; exact A); try (apply A; reflexivity).
Qed.

Lemma solidLines_drop (k : nat) (s : string) (prev : option ascii) :
  solidLines prev s = true -> solidLines (lastUnit prev (takeUnits k s)) (dropUnits k s) = true.
Proof.
  revert s prev. induction k as [|k IH]; intros s prev H; [destruct s; exact H|].
  destruct s as [|c r]; [exact H|]. cbn [takeUnits dropUnits lastUnit].
  apply IH. apply solidLines_cons in H. apply H.
Qed.

(** Within a line the sixth step removes nothing. *)
Lemma dropNumberLines_ahead (s : string) (prev : option ascii) :
  atLineStart prev = false ->
  solidAhead (replaceFrom numberLine (const "") prev 0 s) = solidAhead s.
Proof.
  revert prev. induction s as [|c r IH]; intros prev H.
  - cbn. unfold numberLine. rewrite H. reflexivity.
  - rewrite replaceFrom_pass by (left; unfold numberLine; rewrite H; reflexivity).
    cbn [solidAhead]. destruct (isLineTerminator c) eqn:L; [reflexivity|].
    rewrite (IH (Some c) L). reflexivity.
Qed.

(** The sixth step leaves solid lines: [o] is the unit before the output,
    which differs from [prev] only when a line start is followed by what
    remains of a removed line. *)
Lemma dropNumberLines_solidLines (n : nat) (s : string) (prev o : option ascii) :
  String.length s <= n ->
  o = prev \/ (atLineStart o = true /\ lineEnds s = true) ->
  solidLines o (replaceFrom numberLine (const "") prev 0 s) = true.
Proof.
  revert s prev o. induction n as [|n IH]; intros s prev o Hn V.
  - destruct s; [|cbn in Hn; lia]. cbn. destruct (numberLine prev "") as [[|k]|]; reflexivity.
  - destruct (numberLine prev s) as [[|k]|] eqn:E.
    + destruct s as [|c r]; [cbn; rewrite E; reflexivity|].
      rewrite replaceFrom_pass by (right; split; [exact E | reflexivity]).
      apply solidLines_cons. split.
      * intros Lo Lc. destruct V as [-> | [_ V]]; [|cbn in V; congruence].
        unfold numberLine in E. rewrite Lo in E.
        apply numericToLineEnd_lineEnds in E. cbn in E. congruence.
      * apply IH; [cbn in Hn; lia | left; reflexivity].
    + unfold numberLine in E. destruct (atLineStart prev) eqn:L; [|discriminate].
      pose proof (numericToLineEnd_length _ _ E) as B.
      assert (E' : numberLine prev s = Some (S k)) by (unfold numberLine; rewrite L; exact E).
      rewrite (replaceFrom_match _ _ prev s k E' B). unfold const. cbn [append].
      apply IH; [rewrite length_dropUnits; lia|].
      right. split.
      * destruct V as [-> | [V _]]; [exact L | exact V].
      * apply numericToLineEnd_lineEnds. exact E.
    + destruct s as [|c r]; [cbn; rewrite E; reflexivity|].
      rewrite replaceFrom_pass by (left; exact E).
      apply solidLines_cons. split.
      * intros Lo Lc. destruct V as [-> | [_ V]]; [|cbn in V; congruence].
        unfold numberLine in E. rewrite Lo in E.
        cbn [solidAhead]. rewrite Lc.
        destruct (isDigit c || isSpace c) eqn:W; [|reflexivity].
        rewrite dropNumberLines_ahead by exact Lc.
        pose proof (solidAhead_numeric (String c r)) as X. rewrite E in X.
        cbn [solidAhead] in X. rewrite Lc, W in X. exact X.
      * apply IH; [cbn in Hn; lia | left; reflexivity].
Qed.

Lemma dropNumberLines_solid (s : string) : solidLines None (dropNumberLines s) = true.
Proof.
  unfold dropNumberLines, replaceAll.
  apply (dropNumberLines_solidLines (String.length s)); [lia | left; reflexivity].
Qed.

Lemma word_not_space (c : ascii) :
  isWord c = true -> isLineTerminator c = false /\ isSpace c = false.
Proof.
  destruct c as [[] [] [] [] [] [] [] []]; cbn; intros H; try discriminate H; split; reflexivity.
Qed.

(** Splitting words keeps lines solid. *)
Section SplittingLines.
Variables p q : ascii -> bool.
Hypothesis p_word : forall c, p c = true -> isWord c = true.
Hypothesis q_word : forall c, q c = true -> isWord c = true.

Lemma split_solidAhead (n : nat) (s : string) (prev : option ascii) :
  String.length s <= n ->
  solidAhead (replaceFrom (adjacent p q) spaced prev 0 s) = solidAhead s.
Proof.
  revert s prev. induction n as [|n IH]; intros s prev Hn.
  - destruct s; [reflexivity | cbn in Hn; lia].
  - destruct (adjacent_cases p q prev s) as [(a & b & r & -> & E) | E].
    + rewrite (split_match p q prev a b r E).
      apply andb_prop in E. destruct E as [Ea Eb].
      destruct (word_not_space a (p_word a Ea)) as [La Sa].
      destruct (word_not_space b (q_word b Eb)) as [Lb Sb].
      cbn [solidAhead]. rewrite La, Lb.
      replace (isLineTerminator SPACE) with false by reflexivity.
      replace (isDigit SPACE || isSpace SPACE) with true by reflexivity.
      rewrite IH by (cbn in Hn; lia). reflexivity.
    + destruct s as [|a r]; [reflexivity|].
      rewrite (split_pass p q prev a r E). cbn [solidAhead].
      rewrite IH by (cbn in Hn; lia). reflexivity.
Qed.

Lemma split_solidLines (n : nat) (s : string) (prev : option ascii) :
  String.length s <= n ->
  solidLines prev s = true ->
  solidLines prev (replaceFrom (adjacent p q) spaced prev 0 s) = true.
Proof.
  revert s prev. induction n as [|n IH]; intros s prev Hn H.
  - destruct s; [reflexivity | cbn in Hn; lia].
  - pose proof (split_solidAhead (S n) s prev Hn) as HA.
    destruct (adjacent_cases p q prev s) as [(a & b & r & -> & E) | E].
    + rewrite (split_match p q prev a b r E) in HA |- *.
      apply andb_prop in E. destruct E as [Ea Eb].
      destruct (word_not_space a (p_word a Ea)) as [La Sa].
      apply solidLines_cons in H. destruct H as [H0 H1].
      apply solidLines_cons in H1. destruct H1 as [_ H2].
      apply solidLines_cons. split; [intros Lo Lc; rewrite HA; apply H0; assumption|].
      apply solidLines_cons. split; [cbn [atLineStart]; congruence|].
      apply solidLines_cons. split; [cbn; discriminate|].
      apply IH; [cbn in Hn; lia | exact H2].
    + destruct s as [|a r]; [reflexivity|].
      rewrite (split_pass p q prev a r E) in HA |- *.
      apply solidLines_cons in H. destruct H as [H0 H1].
      apply solidLines_cons. split; [intros Lo Lc; rewrite HA; apply H0; assumption|].
      apply IH; [cbn in Hn; lia | exact H1].
Qed.
End SplittingLines.

(** *** Paragraph breaks *)

Lemma isLF_eq (c : ascii) : isLF c = true -> c = LF.
Proof. destruct c as [[] [] [] [] [] [] [] []]; cbn; intros H; try discriminate H; reflexivity. Qed.

Lemma isLF_space (c : ascii) : isLF c = true -> isSpace c = true.
Proof. intros H. rewrite (isLF_eq c H). reflexivity. Qed.

(** What [spaceToLF] finds ends in a line feed, and nothing behind it is
    found again. *)
Lemma spaceToLF_last (s : string) (k : nat) (o : option ascii) :
  spaceToLF s = Some k -> lastUnit o (takeUnits k s) = Some LF.
Proof.
  revert k o. induction s as [|c r IH]; intros k o H; [discriminate|].
  cbn in H. destruct (isSpace c); [|discriminate].
  destruct (spaceToLF r) as [j|] eqn:J.
  - injection H as <-. cbn [takeUnits lastUnit]. apply IH. reflexivity.
  - destruct (isLF c) eqn:L; [|discriminate]. injection H as <-.
    cbn. destruct r; rewrite (isLF_eq c L); reflexivity.
Qed.

Lemma spaceToLF_rest (s : string) (k : nat) :
  spaceToLF s = Some k -> spaceToLF (dropUnits k s) = None.
Proof.
  revert k. induction s as [|c r IH]; intros k H; [discriminate|].
  cbn in H. destruct (isSpace c); [|discriminate].
  destruct (spaceToLF r) as [j|] eqn:J.
  - injection H as <-. cbn [dropUnits]. apply IH. reflexivity.
  - destruct (isLF c); [|discriminate]. injection H as <-.
    cbn [dropUnits]. destruct r; exact J.
Qed.

Lemma paragraphBreak_cases (prev : option ascii) (s : string) :
  (exists r k, s = String LF r /\ spaceToLF r = Some k /\ paragraphBreak prev s = Some (S k)) \/
  (paragraphBreak prev s = None /\
   match s with
   | String c r => isLF c = true -> spaceToLF r = None
   | EmptyString => True
   end).
Proof.
  destruct s as [|c r]; [right; split; [reflexivity | exact I]|].
  cbn. destruct (isLF c) eqn:L.
  - destruct (spaceToLF r) as [k|] eqn:K.
    + left. exists r, k. rewrite (isLF_eq c L). auto.
    + right. split; [reflexivity | intros _; reflexivity].
  - right. split; [reflexivity | intros H; discriminate].
Qed.

Lemma paragraphBreak_step (prev : option ascii) (r : string) (k : nat) :
  spaceToLF r = Some k -> paragraphBreak prev (String LF r) = Some (S k) ->
  replaceFrom paragraphBreak (const NLNL) prev 0 (String LF r)
  = String LF (String LF (replaceFrom paragraphBreak (const NLNL) (Some LF) 0 (dropUnits k r))).
Proof.
  intros K E.
  assert (B : S k <= String.length (String LF r)).
  { apply spaceToLF_length in K. cbn. lia. }
  rewrite (replaceFrom_match _ _ prev _ k E B).
  cbn [takeUnits dropUnits lastUnit]. rewrite (spaceToLF_last r k (Some LF) K). reflexivity.
Qed.

Lemma paragraphs_keep_none (s : string) (prev : option ascii) :
  spaceToLF s = None ->
  spaceToLF (replaceFrom paragraphBreak (const NLNL) prev 0 s) = None.
Proof.
  revert prev. induction s as [|c r IH]; intros prev H; [reflexivity|].
  cbn in H. destruct (isSpace c) eqn:S.
  - destruct (spaceToLF r) eqn:J; [discriminate|].
    destruct (isLF c) eqn:L; [discriminate|].
    rewrite replaceFrom_pass by (left; cbn; rewrite L; reflexivity).
    cbn. rewrite S, (IH (Some c) eq_refl), L. reflexivity.
  - assert (L : isLF c = false).
    { destruct (isLF c) eqn:L; [|reflexivity]. rewrite (isLF_space c L) in S. discriminate. }
    rewrite replaceFrom_pass by (left; cbn; rewrite L; reflexivity).
    cbn. rewrite S. reflexivity.
Qed.

Lemma normalizeParagraphs_normalBreaks (n : nat) (s : string) (prev : option ascii) :
  String.length s <= n ->
  normalBreaks (replaceFrom paragraphBreak (const NLNL) prev 0 s) = true.
Proof.
  revert s prev. induction n as [|n IH]; intros s prev Hn.
  - destruct s; [reflexivity | cbn in Hn; lia].
  - destruct (paragraphBreak_cases prev s) as [(r & k & -> & K & E) | [E N]].
    + rewrite (paragraphBreak_step prev r k K E).
      pose proof (paragraphs_keep_none _ (Some LF) (spaceToLF_rest r k K)) as Z.
      cbn [normalBreaks]. replace (isLF LF) with true by reflexivity.
      cbn [spaceToLF]. replace (isSpace LF) with true by reflexivity.
      replace (isLF LF) with true by reflexivity. rewrite Z. cbn.
      apply IH. rewrite length_dropUnits. cbn in Hn. lia.
    + destruct s as [|c r]; [reflexivity|].
      rewrite replaceFrom_pass by (left; exact E).
      cbn [normalBreaks]. rewrite (IH r (Some c)) by (cbn in Hn; lia).
      destruct (isLF c); [|reflexivity].
      rewrite (paragraphs_keep_none r (Some c) (N eq_refl)). reflexivity.
Qed.

(** *** Trimming *)

Lemma trimStart_startsClean (s : string) : startsClean (trimStart s).
Proof.
  induction s as [|c r IH]; [exact I|]. cbn. destruct (isSpace c) eqn:E; [exact IH | exact E].
Qed.

Lemma trimEnd_cases (c : ascii) (r : string) :
  (trimEnd (String c r) = "" /\ trimEnd r = "" /\ isSpace c = true) \/
  (trimEnd (String c r) = String c (trimEnd r) /\ (trimEnd r = "" -> isSpace c = false)).
Proof.
  cbn. destruct (trimEnd r) eqn:E.
  - destruct (isSpace c); [left; auto | right; split; [reflexivity | reflexivity]].
  - right. split; [reflexivity | discriminate].
Qed.

Lemma trimEnd_endsCleanAfter (s : string) (prev : option ascii) :
  trimEnd s <> "" -> endsCleanAfter prev (trimEnd s).
Proof.
  revert prev. induction s as [|c r IH]; intros prev N; [contradiction N; reflexivity|].
  destruct (trimEnd_cases c r) as [(E & _) | (E & F)]; [congruence|].
  rewrite E. unfold endsCleanAfter. cbn [lastUnit].
  destruct (trimEnd r) as [|d t] eqn:T.
  - cbn. apply F. reflexivity.
  - apply (IH (Some c)). discriminate.
Qed.

Lemma trimEnd_endsClean (s : string) : endsClean (trimEnd s).
Proof.
  destruct (trimEnd s) eqn:E; [exact I|]. rewrite <- E. apply trimEnd_endsCleanAfter.
  rewrite E. discriminate.
Qed.

Lemma trimEnd_startsClean (s : string) : startsClean s -> startsClean (trimEnd s).
Proof.
  destruct s as [|c r]; [intros; exact I|]. intros H.
  destruct (trimEnd_cases c r) as [(_ & _ & E) | (E & _)].
  - cbn in H. congruence.
  - rewrite E. exact H.
Qed.

Lemma trimStart_clean (s : string) : startsClean s -> trimStart s = s.
Proof. destruct s as [|c r]; [reflexivity|]. cbn. intros ->. reflexivity. Qed.

Lemma trimEnd_clean (s : string) (prev : option ascii) :
  endsCleanAfter prev s -> trimEnd s = s.
Proof.
  revert prev. induction s as [|c r IH]; intros prev H; [reflexivity|].
  unfold endsCleanAfter in H. cbn [lastUnit] in H.
  cbn. rewrite (IH (Some c) H). destruct r; [|reflexivity].
  cbn in H. rewrite H. reflexivity.
Qed.

Lemma trim_clean (s : string) : startsClean s -> endsClean s -> trim s = s.
Proof. intros A B. unfold trim. rewrite (trimStart_clean s A). apply (trimEnd_clean s None B). Qed.

Lemma trimStart_noAdjacent (R : ascii -> ascii -> bool) (s : string) (o : option ascii) :
  noAdjacent R o s = true -> noAdjacent R None (trimStart s) = true.
Proof.
  revert o. induction s as [|c r IH]; intros o H; [reflexivity|].
  cbn [trimStart]. destruct (isSpace c).
  - apply noAdjacent_cons in H. apply (IH (Some c)). apply H.
  - apply (noAdjacent_weaken R o). exact H.
Qed.

Lemma trimEnd_noAdjacent (R : ascii -> ascii -> bool) (s : string) (o : option ascii) :
  noAdjacent R o s = true -> noAdjacent R o (trimEnd s) = true.
Proof.
  revert o. induction s as [|c r IH]; intros o H; [reflexivity|].
  apply noAdjacent_cons in H. destruct H as [H0 H1].
  destruct (trimEnd_cases c r) as [(E & _) | (E & _)]; rewrite E; [reflexivity|].
  apply noAdjacent_cons. split; [exact H0 | apply IH; exact H1].
Qed.

Lemma normalBreaks_tail (c : ascii) (r : string) :
  normalBreaks (String c r) = true -> normalBreaks r = true.
Proof. cbn. intros H. apply andb_prop in H. apply H. Qed.

Lemma trimStart_normalBreaks (s : string) :
  normalBreaks s = true -> normalBreaks (trimStart s) = true.
Proof.
  induction s as [|c r IH]; intros H; [reflexivity|].
  cbn [trimStart]. destruct (isSpace c); [|exact H].
  apply IH. apply (normalBreaks_tail c). exact H.
Qed.

Lemma trimEnd_spaceToLF (s : string) :
  trimEnd s = "" \/ spaceToLF (trimEnd s) = spaceToLF s.
Proof.
  induction s as [|c r IH]; [left; reflexivity|].
  destruct (trimEnd_cases c r) as [(E & _) | (E & F)]; [left; exact E|].
  right. rewrite E. destruct IH as [T | T].
  - rewrite T. specialize (F T). cbn. rewrite F. reflexivity.
  - cbn. rewrite T. reflexivity.
Qed.

Lemma trimEnd_normalBreaks (s : string) :
  normalBreaks s = true -> normalBreaks (trimEnd s) = true.
Proof.
  induction s as [|c r IH]; intros H; [reflexivity|].
  destruct (trimEnd_cases c r) as [(E & _) | (E & _)]; rewrite E; [reflexivity|].
  cbn [normalBreaks] in *. apply andb_prop in H. destruct H as [H0 H1].
  rewrite (IH H1), andb_true_r.
  destruct (isLF c); [|reflexivity].
  destruct (trimEnd_spaceToLF r) as [T | T]; [rewrite T; reflexivity | rewrite T; exact H0].
Qed.

(** *** Solid lines through the last steps *)

Lemma normalizeParagraphs_ahead (n : nat) (s : string) (prev : option ascii) :
  String.length s <= n ->
  solidAhead (replaceFrom paragraphBreak (const NLNL) prev 0 s) = solidAhead s.
Proof.
  revert s prev. induction n as [|n IH]; intros s prev Hn.
  - destruct s; [reflexivity | cbn in Hn; lia].
  - destruct (paragraphBreak_cases prev s) as [(r & k & -> & K & E) | [E _]].
    + rewrite (paragraphBreak_step prev r k K E). reflexivity.
    + destruct s as [|c r]; [reflexivity|].
      rewrite replaceFrom_pass by (left; exact E).
      cbn [solidAhead]. rewrite IH by (cbn in Hn; lia). reflexivity.
Qed.

Lemma normalizeParagraphs_solidLines (n : nat) (s : string) (prev : option ascii) :
  String.length s <= n ->
  solidLines prev s = true ->
  solidLines prev (replaceFrom paragraphBreak (const NLNL) prev 0 s) = true.
Proof.
  revert s prev. induction n as [|n IH]; intros s prev Hn H.
  - destruct s; [reflexivity | cbn in Hn; lia].
  - pose proof (normalizeParagraphs_ahead (S n) s prev Hn) as HA.
    destruct (paragraphBreak_cases prev s) as [(r & k & -> & K & E) | [E _]].
    + rewrite (paragraphBreak_step prev r k K E).
      apply solidLines_cons in H. destruct H as [_ H].
      apply solidLines_cons. split; [intros _ L; discriminate L|].
      apply solidLines_cons. split; [intros _ L; discriminate L|].
      apply IH; [rewrite length_dropUnits; cbn in Hn; lia|].
      pose proof (solidLines_drop k r (Some LF) H) as D.
      rewrite (spaceToLF_last r k (Some LF) K) in D. exact D.
    + destruct s as [|c r]; [reflexivity|].
      rewrite replaceFrom_pass in HA |- * by (left; exact E).
      apply solidLines_cons in H. destruct H as [H0 H1].
      apply solidLines_cons. split; [intros Lo Lc; rewrite HA; apply H0; assumption|].
      apply IH; [cbn in Hn; lia | exact H1].
Qed.

Lemma trimStart_solidLines (s : string) (prev : option ascii) :
  solidLines prev s = true ->
  (lineEnds s = false -> solidAhead s = true) ->
  solidLines None (trimStart s) = true.
Proof.
  revert prev. induction s as [|c r IH]; intros prev H G; [reflexivity|].
  apply solidLines_cons in H. destruct H as [H0 H1].
  cbn [trimStart]. destruct (isSpace c) eqn:S.
  - apply (IH (Some c) H1). intros Lr.
    destruct r as [|d r']; [discriminate Lr|]. cbn [lineEnds] in Lr.
    destruct (isLineTerminator c) eqn:L.
    + apply solidLines_cons in H1. apply H1; [exact L | exact Lr].
    + specialize (G L). cbn [solidAhead] in G. rewrite L, S, orb_true_r in G. exact G.
  - apply solidLines_cons. split; [intros _ L; apply G; exact L | exact H1].
Qed.

Lemma trimEnd_ahead (s : string) : solidAhead (trimEnd s) = solidAhead s.
Proof.
  induction s as [|c r IH]; [reflexivity|].
  destruct (trimEnd_cases c r) as [(E & T & S) | (E & _)]; rewrite E.
  - cbn [solidAhead]. rewrite <- IH, T, S, orb_true_r. cbn.
    destruct (isLineTerminator c); reflexivity.
  - cbn [solidAhead]. rewrite IH. reflexivity.
Qed.

Lemma trimEnd_solidLines (s : string) (prev : option ascii) :
  solidLines prev s = true -> solidLines prev (trimEnd s) = true.
Proof.
  revert prev. induction s as [|c r IH]; intros prev H; [reflexivity|].
  pose proof (trimEnd_ahead (String c r)) as HA.
  destruct (trimEnd_cases c r) as [(E & _) | (E & _)]; rewrite E in HA |- *; [reflexivity|].
  apply solidLines_cons in H. destruct H as [H0 H1].
  apply solidLines_cons. split; [intros Lo Lc; rewrite HA; apply H0; assumption|].
  apply IH. exact H1.
Qed.

Lemma trim_solidLines (s : string) : solidLines None s = true -> solidLines None (trim s) = true.
Proof.
  intros H. unfold trim. apply trimEnd_solidLines. apply (trimStart_solidLines s None H).
  intros L. destruct s as [|c r]; [discriminate L|].
  apply solidLines_cons in H. apply H; [reflexivity | exact L].
Qed.

(** *** Texts the normalizer leaves alone *)

Lemma noAdjacent_everywhere (R : ascii -> ascii -> bool) (s : string) (o : option ascii) :
  noAdjacent R o s = true ->
  everywhere (fun _ x => match x with
                         | String a (String b _) => R a b = false
                         | _ => True
                         end) o s.
Proof.
  revert o. induction s as [|c r IH]; intros o H; [split; exact I|].
  apply noAdjacent_cons in H. destruct H as [_ H]. split; [|apply IH; exact H].
  destruct r as [|b r']; [exact I|]. apply noAdjacent_cons in H. apply H.
Qed.

Lemma collapseBlanks_fixed (s : string) :
  noAdjacent blankPair None s = true -> collapseBlanks s = s.
Proof.
  intros H. apply replaceAll_stable.
  eapply everywhere_impl; [|apply noAdjacent_everywhere; exact H].
  cbn beta. intros p x Hx. apply silent_stable. unfold silent, atLeast.
  destruct x as [|a [|b r]]; cbn.
  - reflexivity.
  - destruct (isBlank a); reflexivity.
  - unfold blankPair in Hx. destruct (isBlank a); [|reflexivity].
    cbn in Hx. rewrite Hx. reflexivity.
Qed.

Lemma splitCamelCase_fixed (s : string) :
  noAdjacent camelPair None s = true -> splitCamelCase s = s.
Proof.
  intros H. apply replaceAll_stable.
  eapply everywhere_impl; [|apply noAdjacent_everywhere; exact H].
  cbn beta. intros p x Hx. apply silent_stable. unfold silent, adjacent.
  destruct x as [|a [|b r]]; [reflexivity | reflexivity |].
  unfold camelPair in Hx. rewrite Hx. reflexivity.
Qed.

Lemma normalBreaks_everywhere (s : string) (prev : option ascii) :
  normalBreaks s = true ->
  everywhere (fun _ x => match x with
                         | String c r =>
                             isLF c = true -> spaceToLF r = None \/ spaceToLF r = Some 1
                         | EmptyString => True
                         end) prev s.
Proof.
  revert prev. induction s as [|c r IH]; intros prev H; [split; exact I|].
  cbn [normalBreaks] in H. apply andb_prop in H. destruct H as [H0 H1].
  split; [|apply IH; exact H1].
  intros L. rewrite L in H0. destruct (spaceToLF r) as [k|]; [|left; reflexivity].
  apply Nat.eqb_eq in H0. subst k. right. reflexivity.
Qed.

Lemma spaceToLF_one (r : string) :
  spaceToLF r = Some 1 -> exists r', r = String LF r'.
Proof.
  intros H. pose proof (spaceToLF_last r 1 None H) as L.
  destruct r as [|c r']; [discriminate|]. cbn in L.
  destruct r'; cbn in L; injection L as ->; eexists; reflexivity.
Qed.

Lemma spaceToLF_two (c : ascii) (r : string) (k : nat) :
  isLF c = true -> spaceToLF r = Some k -> spaceToLF (String c r) = Some (S k).
Proof. intros L K. cbn. rewrite (isLF_space c L), K. reflexivity. Qed.

Lemma normalizeParagraphs_fixed (s : string) :
  normalBreaks s = true -> normalizeParagraphs s = s.
Proof.
  intros H. apply replaceAll_stable.
  eapply everywhere_impl; [|apply normalBreaks_everywhere; exact H].
  cbn beta. intros p x Hx. unfold stable.
  destruct (paragraphBreak_cases p x) as [(r & k & -> & K & E) | [E _]]; rewrite E; [|exact I].
  destruct (Hx eq_refl) as [N | N]; [congruence|].
  assert (k = 1) by congruence. subst k.
  destruct (spaceToLF_one r K) as (r' & ->). split; [cbn; lia | reflexivity].
Qed.

Lemma collapseNewlines_fixed (s : string) :
  normalBreaks s = true -> collapseNewlines s = s.
Proof.
  intros H. apply replaceAll_stable.
  eapply everywhere_impl; [|apply normalBreaks_everywhere; exact H].
  cbn beta. intros p x Hx. apply silent_stable. unfold silent, atLeast.
  destruct x as [|a [|b [|c r]]]; cbn.
  - reflexivity.
  - destruct (isLF a); reflexivity.
  - destruct (isLF a); [|reflexivity]. destruct (isLF b); reflexivity.
  - destruct (isLF a) eqn:A; [|reflexivity]. destruct (isLF b) eqn:B; [|reflexivity].
    destruct (isLF c) eqn:C; [|reflexivity]. exfalso.
    assert (K : exists k, spaceToLF (String c r) = Some (S k)).
    { cbn. rewrite (isLF_space c C), C. destruct (spaceToLF r); eexists; reflexivity. }
    destruct K as (k & K).
    pose proof (spaceToLF_two b _ _ B K) as K2.
    destruct (Hx eq_refl) as [N | N]; congruence.
Qed.

Lemma everywhere_and (P Q : option ascii -> string -> Prop) (prev : option ascii) (s : string) :
  everywhere P prev s -> everywhere Q prev s ->
  everywhere (fun p x => P p x /\ Q p x) prev s.
Proof.
  revert prev. induction s as [|c r IH]; intros prev; cbn.
  - intros [H _] [G _]. auto.
  - intros [H0 H1] [G0 G1]. split; [auto | apply IH; assumption].
Qed.

Lemma splitAfterDigit_fixed (s : string) :
  noAdjacent digitWord None s = true -> splitAfterDigit s = s.
Proof.
  intros H. apply replaceAll_stable.
  eapply everywhere_impl; [|apply noAdjacent_everywhere; exact H].
  cbn beta. intros p x Hx. apply silent_stable. unfold silent, adjacent.
  destruct x as [|a [|b r]]; [reflexivity | reflexivity |].
  unfold digitWord in Hx. rewrite Hx. reflexivity.
Qed.

Lemma splitBeforeDigit_fixed (s : string) :
  noAdjacent letterDigit None s = true -> noAdjacent digitWord None s = true ->
  splitBeforeDigit s = s.
Proof.
  intros H G. apply replaceAll_stable.
  eapply everywhere_impl;
    [|apply everywhere_and; [apply noAdjacent_everywhere; exact H
                            | apply noAdjacent_everywhere; exact G]].
  cbn beta. intros p x [Hx Gx]. apply silent_stable. unfold silent, adjacent.
  destruct x as [|a [|b r]]; [reflexivity | reflexivity |].
  unfold letterDigit, digitWord, isLetter in *.
  destruct (isWord a) eqn:Wa; [|reflexivity].
  destruct (isDigit b) eqn:Db; [|reflexivity]. exfalso.
  rewrite (isDigit_word b Db) in Gx.
  destruct (isDigit a); cbn in *; discriminate.
Qed.

Lemma spaceToLF_first (c : ascii) (r : string) :
  spaceToLF (String c r) = None -> isLF c = false.
Proof.
  cbn. destruct (isLF c) eqn:L; [|reflexivity]. rewrite (isLF_space c L).
  destruct (spaceToLF r); discriminate.
Qed.

Lemma spaceToLF_positive (s : string) : spaceToLF s <> Some 0.
Proof.
  destruct s as [|c r]; [discriminate|]. cbn.
  destruct (isSpace c); [|discriminate].
  destruct (spaceToLF r); [discriminate|]. destruct (isLF c); discriminate.
Qed.

(** On a normalized text the number-line pattern finds nothing but the
    empty text: a line is empty, and then the next is not, or solid. *)
Lemma numberLine_quiet (s : string) (prev : option ascii) :
  printableText (withPrev prev s) = true ->
  normalBreaks (withPrev prev s) = true ->
  solidLines prev s = true ->
  (prev = None -> startsClean s) ->
  endsCleanAfter prev s ->
  stable numberLine (const "") prev s.
Proof.
  intros A N SL Hs E. unfold stable, numberLine.
  destruct (atLineStart prev) eqn:L; [|exact I].
  destruct s as [|c r]; [cbn; split; [lia | reflexivity]|].
  apply solidLines_cons in SL. destruct SL as [S0 S1].
  destruct (isLineTerminator c) eqn:Lc.
  - assert (Ac : printableText (String c r) = true).
    { destruct prev; [apply printableText_cons in A; apply A | exact A]. }
    apply printableText_cons in Ac. destruct Ac as [Ac Ar].
    destruct (printable_facts c Ac) as (_ & Tc & _).
    assert (Lf : isLF c = true) by congruence.
    pose proof (isLF_space c Lf) as Sc.
    destruct prev as [p|]; [|specialize (Hs eq_refl); cbn in Hs; congruence].
    cbn [withPrev] in *. apply printableText_cons in A. destruct A as [Ap _].
    destruct (printable_facts p Ap) as (_ & Tp & _).
    cbn [atLineStart] in L. rewrite Tp in L.
    cbn [normalBreaks] in N. rewrite L in N. apply andb_prop in N. destruct N as [N _].
    cbn [spaceToLF] in N. rewrite Sc, Lf in N.
    destruct (spaceToLF r) as [j|] eqn:K.
    { apply Nat.eqb_eq in N. injection N as ->. destruct (spaceToLF_positive r K). }
    cbn [numericToLineEnd]. rewrite Lc, Sc, orb_true_r.
    destruct (numericToLineEnd r) as [j|] eqn:J; [exfalso | split; [lia | reflexivity]].
    destruct r as [|d r'].
    + unfold endsCleanAfter in E. cbn in E. congruence.
    + apply printableText_cons in Ar. destruct Ar as [Ad _].
      destruct (printable_facts d Ad) as (_ & Td & _).
      pose proof (spaceToLF_first d r' K) as Ld. rewrite <- Td in Ld.
      apply solidLines_cons in S1. destruct S1 as [S1 _].
      specialize (S1 Lc Ld). rewrite solidAhead_numeric, J in S1. discriminate.
  - specialize (S0 L eq_refl). rewrite solidAhead_numeric in S0.
    destruct (numericToLineEnd (String c r)); [discriminate | exact I].
Qed.

Lemma dropNumberLines_fixed_from (s : string) (prev : option ascii) :
  printableText (withPrev prev s) = true ->
  normalBreaks (withPrev prev s) = true ->
  solidLines prev s = true ->
  (prev = None -> startsClean s) ->
  endsCleanAfter prev s ->
  everywhere (stable numberLine (const "")) prev s.
Proof.
  revert prev. induction s as [|c r IH]; intros prev A N SL Hs E.
  - split; [apply numberLine_quiet; assumption | exact I].
  - split; [apply numberLine_quiet; assumption|].
    apply IH.
    + destruct prev; [apply printableText_cons in A; apply A | exact A].
    + destruct prev; [apply (normalBreaks_tail _ _ N) | exact N].
    + apply solidLines_cons in SL. apply SL.
    + discriminate.
    + exact E.
Qed.

Lemma dropNumberLines_fixed (s : string) :
  printableText s = true -> normalBreaks s = true -> solidLines None s = true ->
  startsClean s -> endsClean s ->
  dropNumberLines s = s.
Proof.
  intros A N SL Hs E. apply replaceAll_stable.
  apply dropNumberLines_fixed_from; auto.
Qed.

(** *** Idempotence on printable texts *)

Lemma pipeline_printable (text : string) :
  printableText text = true ->
  pipeline text
  = trim (normalizeParagraphs (splitAfterDigit (splitBeforeDigit (splitCamelCase
      (dropNumberLines (collapseBlanks (collapseNewlines text))))))).
Proof.
  intros A. unfold pipeline, wordsSplit, unprintableDropped.
  rewrite (unifyCRLF_printable text A), (unifyCR_printable text A).
  pose proof (collapseNewlines_printable text A) as A3.
  pose proof (collapseBlanks_printable _ A3) as A4.
  rewrite (dropUnprintable_printable _ A4). reflexivity.
Qed.

Ltac avoided := intros ?; split; first [reflexivity | apply andb_false_r].

Lemma word_not_blank (c : ascii) : isWord c = true -> isBlank c = false.
Proof. destruct c as [[] [] [] [] [] [] [] []]; cbn; intros H; try discriminate H; reflexivity. Qed.

Lemma lineTerminator_facts (c : ascii) :
  isLineTerminator c = true -> isBlank c = false /\ isDigit c = false.
Proof.
  destruct c as [[] [] [] [] [] [] [] []]; cbn; intros H; try discriminate H; split; reflexivity.
Qed.

Lemma harmless_split_avoided (R : ascii -> ascii -> bool) (p q : ascii -> bool) :
  avoids R SPACE -> harmless (adjacent p q) spaced R.
Proof. intros H. apply harmless_adjacent. intros a b _. split; apply H. Qed.

Lemma harmless_split_blank (p q : ascii -> bool) :
  (forall c, p c = true -> isWord c = true) -> (forall c, q c = true -> isWord c = true) ->
  harmless (adjacent p q) spaced blankPair.
Proof.
  intros P Q. apply harmless_adjacent. intros a b E.
  apply andb_prop in E. destruct E as [Ea Eb]. unfold blankPair.
  rewrite (word_not_blank a (P a Ea)), (word_not_blank b (Q b Eb)). split; reflexivity.
Qed.

Lemma trim_noAdjacent (R : ascii -> ascii -> bool) (s : string) :
  noAdjacent R None s = true -> noAdjacent R None (trim s) = true.
Proof. intros H. unfold trim. apply trimEnd_noAdjacent. apply (trimStart_noAdjacent _ _ None). exact H. Qed.

Lemma pipeline_normalized (text : string) :
  printableText text = true -> digitsApart text = true -> normalized (pipeline text).
Proof.
  intros A Q. unfold digitsApart in Q. rewrite (pipeline_printable text A).
  pose proof (collapseNewlines_printable text A) as A3.
  assert (Q3 : noAdjacent digitLetter None (collapseNewlines text) = true).
  { apply replaceAll_noAdjacent; [|exact Q].
    apply (harmless_atLeast digitLetter 3 isLF LF NL); [avoided | reflexivity]. }
  set (x3 := collapseNewlines text) in *.
  pose proof (collapseBlanks_printable x3 A3) as A4.
  assert (Q4 : noAdjacent digitLetter None (collapseBlanks x3) = true).
  { apply replaceAll_noAdjacent; [|exact Q3].
    apply (harmless_atLeast digitLetter 2 isBlank SPACE ""); [avoided | reflexivity]. }
  assert (B4 : noAdjacent blankPair None (collapseBlanks x3) = true).
  { apply (collapseBlanks_noAdjacent (String.length x3) x3 None None (le_n _) eq_refl). }
  set (x4 := collapseBlanks x3) in *.
  pose proof (dropNumberLines_printable x4 A4) as A6.
  assert (Q6 : noAdjacent digitLetter None (dropNumberLines x4) = true).
  { apply replaceAll_noAdjacent; [|exact Q4]. apply harmless_numberLine.
    intros a c L. unfold digitLetter. destruct (lineTerminator_facts a L) as [_ ->]. reflexivity. }
  assert (B6 : noAdjacent blankPair None (dropNumberLines x4) = true).
  { apply replaceAll_noAdjacent; [|exact B4]. apply harmless_numberLine.
    intros a c L. unfold blankPair. destruct (lineTerminator_facts a L) as [-> _]. reflexivity. }
  pose proof (dropNumberLines_solid x4) as L6.
  set (x6 := dropNumberLines x4) in *.
  pose proof (splitCamelCase_printable x6 A6) as A7.
  assert (Q7 : noAdjacent digitLetter None (splitCamelCase x6) = true).
  { apply replaceAll_noAdjacent; [|exact Q6]. apply harmless_split_avoided. avoided. }
  assert (B7 : noAdjacent blankPair None (splitCamelCase x6) = true).
  { apply replaceAll_noAdjacent; [|exact B6].
    apply harmless_split_blank; [apply isLower_word | apply isUpper_word]. }
  assert (C7 : noAdjacent camelPair None (splitCamelCase x6) = true).
  { apply (splitCamelCase_noAdjacent_camel (String.length x6) x6 None (le_n _) eq_refl). }
  assert (L7 : solidLines None (splitCamelCase x6) = true).
  { apply (split_solidLines isLower isUpper isLower_word isUpper_word
             (String.length x6) x6 None (le_n _) L6). }
  set (x7 := splitCamelCase x6) in *.
  pose proof (splitBeforeDigit_printable x7 A7) as A8.
  assert (B8 : noAdjacent blankPair None (splitBeforeDigit x7) = true).
  { apply replaceAll_noAdjacent; [|exact B7].
    apply harmless_split_blank; [auto | apply isDigit_word]. }
  assert (C8 : noAdjacent camelPair None (splitBeforeDigit x7) = true).
  { apply replaceAll_noAdjacent; [|exact C7]. apply harmless_split_avoided. avoided. }
  assert (D8 : noAdjacent letterDigit None (splitBeforeDigit x7) = true).
  { apply (splitBeforeDigit_letterDigit (String.length x7) x7 None (le_n _) eq_refl). }
  assert (W8 : noDigitDigitWord None None (splitBeforeDigit x7) = true).
  { apply (splitBeforeDigit_noDigitDigitWord (String.length x7) x7 None None (le_n _) Q7).
    left. reflexivity. }
  assert (L8 : solidLines None (splitBeforeDigit x7) = true).
  { apply (split_solidLines isWord isDigit (fun c H => H) isDigit_word
             (String.length x7) x7 None (le_n _) L7). }
  set (x8 := splitBeforeDigit x7) in *.
  pose proof (splitAfterDigit_printable x8 A8) as A9.
  assert (B9 : noAdjacent blankPair None (splitAfterDigit x8) = true).
  { apply replaceAll_noAdjacent; [|exact B8].
    apply harmless_split_blank; [apply isDigit_word | auto]. }
  assert (C9 : noAdjacent camelPair None (splitAfterDigit x8) = true).
  { apply replaceAll_noAdjacent; [|exact C8]. apply harmless_split_avoided. avoided. }
  assert (D9 : noAdjacent letterDigit None (splitAfterDigit x8) = true).
  { apply replaceAll_noAdjacent; [|exact D8]. apply harmless_split_avoided. avoided. }
  assert (E9 : noAdjacent digitWord None (splitAfterDigit x8) = true).
  { apply (splitAfterDigit_digitWord (String.length x8) x8 None None (le_n _) W8).
    left. reflexivity. }
  assert (L9 : solidLines None (splitAfterDigit x8) = true).
  { apply (split_solidLines isDigit isWord isDigit_word (fun c H => H)
             (String.length x8) x8 None (le_n _) L8). }
  set (x9 := splitAfterDigit x8) in *.
  pose proof (normalizeParagraphs_printable x9 A9) as A10.
  assert (B10 : noAdjacent blankPair None (normalizeParagraphs x9) = true).
  { apply replaceAll_noAdjacent; [|exact B9]. apply harmless_paragraphBreak. avoided. }
  assert (C10 : noAdjacent camelPair None (normalizeParagraphs x9) = true).
  { apply replaceAll_noAdjacent; [|exact C9]. apply harmless_paragraphBreak. avoided. }
  assert (D10 : noAdjacent letterDigit None (normalizeParagraphs x9) = true).
  { apply replaceAll_noAdjacent; [|exact D9]. apply harmless_paragraphBreak. avoided. }
  assert (E10 : noAdjacent digitWord None (normalizeParagraphs x9) = true).
  { apply replaceAll_noAdjacent; [|exact E9]. apply harmless_paragraphBreak. avoided. }
  assert (N10 : normalBreaks (normalizeParagraphs x9) = true).
  { apply (normalizeParagraphs_normalBreaks (String.length x9) x9 None (le_n _)). }
  assert (L10 : solidLines None (normalizeParagraphs x9) = true).
  { apply (normalizeParagraphs_solidLines (String.length x9) x9 None (le_n _) L9). }
  set (x10 := normalizeParagraphs x9) in *.
  constructor.
  - apply trim_printable. exact A10.
  - apply trim_noAdjacent. exact B10.
  - apply trim_noAdjacent. exact C10.
  - apply trim_noAdjacent. exact D10.
  - apply trim_noAdjacent. exact E10.
  - apply trimEnd_normalBreaks, trimStart_normalBreaks. exact N10.
  - apply trim_solidLines. exact L10.
  - apply trimEnd_startsClean, trimStart_startsClean.
  - apply trimEnd_endsClean.
Qed.

Lemma pipeline_fixed (s : string) : normalized s -> pipeline s = s.
Proof.
  intros [A B C D E N L S F]. rewrite (pipeline_printable s A).
  rewrite (collapseNewlines_fixed s N), (collapseBlanks_fixed s B).
  rewrite (dropNumberLines_fixed s A N L S F), (splitCamelCase_fixed s C).
  rewrite (splitBeforeDigit_fixed s D E), (splitAfterDigit_fixed s E).
  rewrite (normalizeParagraphs_fixed s N). apply trim_clean; assumption.
Qed.

(** Away from digits that touch a letter the normalizer is idempotent: on a
    text of printable ASCII characters and line feeds in which no digit is
    directly followed by a letter or an underscore, normalizing twice is
    normalizing once. *)
Theorem cleanExtractedText_idempotent_printable (text : string) :
  printableText text = true -> digitsApart text = true ->
  cleanExtractedText (cleanExtractedText text) = cleanExtractedText text.
Proof.
  intros A Q. rewrite !cleanExtractedText_steps. fold (pipeline text).
  destruct (String.eqb text "") eqn:E; [reflexivity|].
  fold (pipeline (pipeline text)).
  rewrite (pipeline_fixed _ (pipeline_normalized text A Q)).
  destruct (String.eqb (pipeline text) "") eqn:E'; [|reflexivity].
  apply String.eqb_eq in E'. symmetry. exact E'.
Qed.

Lemma cleanExtractedText_idempotent_printable_witness :
  printableText samplePrintableText = true /\ digitsApart samplePrintableText = true /\
  cleanExtractedText samplePrintableText
    = "Jane Doe" ++ NLNL ++ "senior Data Scientist at acme Corp, 2 0 1 9-2 1" ++ NLNL
      ++ "python 3, 5 years" /\
  cleanExtractedText (cleanExtractedText samplePrintableText)
    = cleanExtractedText samplePrintableText.
Proof.
  split; [reflexivity|]. split; [reflexivity|]. split; [reflexivity|].
  apply (cleanExtractedText_idempotent_printable samplePrintableText); reflexivity.
Defined.

(** C3: the normalizer is not idempotent.  The replacement that adds
    spaces between numbers and letters consumes both units of a match, so
    in "a 12b" it separates 1 from 2 and passes over 2b: "a12b" is
    normalized to "a 1 2b", where the digit 2 still touches the letter b,
    and only a second run yields "a 1 2 b". *)
Lemma cleanExtractedText_not_idempotent :
  cleanExtractedText "a12b" = "a 1 2b" /\
  cleanExtractedText (cleanExtractedText "a12b") = "a 1 2 b" /\
  cleanExtractedText (cleanExtractedText "a12b") <> cleanExtractedText "a12b".
Proof. repeat split; try reflexivity. discriminate. Qed.

(** ** Text normalizer: what every result looks like *)

Lemma dropUnprintable_printableText (s : string) (prev : option ascii) :
  printableText (replaceFrom (oneOf (fun c => negb (isPrintable c))) (const "") prev 0 s) = true.
Proof.
  revert prev. induction s as [|c r IH]; intros prev; [reflexivity|].
  cbn [replaceFrom oneOf]. destruct (isPrintable c) eqn:E; cbn [negb].
  - unfold printableText in *. cbn [allUnits]. rewrite E. apply IH.
  - unfold const. cbn [append]. apply IH.
Qed.

Lemma wordsSplit_printable (s : string) :
  printableText s = true -> printableText (wordsSplit s) = true.
Proof.
  intros A. unfold wordsSplit.
  apply splitAfterDigit_printable, splitBeforeDigit_printable, splitCamelCase_printable, A.
Qed.

Lemma cleanExtractedText_printableText (text : string) :
  printableText (cleanExtractedText text) = true.
Proof.
  rewrite cleanExtractedText_steps. destruct (String.eqb text ""); [reflexivity|].
  apply trim_printable, normalizeParagraphs_printable, wordsSplit_printable,
    dropNumberLines_printable.
  unfold unprintableDropped, dropUnprintable, replaceAll. apply dropUnprintable_printableText.
Qed.

(** X1: whatever the input, the normalized text holds only printable ASCII
    characters and line feeds. *)
Theorem cleanExtractedText_printable (text : string) :
  printableText (cleanExtractedText text) = true.
Proof. apply cleanExtractedText_printableText. Qed.

Lemma trim_ends (s : string) : startsClean (trim s) /\ endsClean (trim s).
Proof.
  unfold trim. split; [apply trimEnd_startsClean, trimStart_startsClean | apply trimEnd_endsClean].
Qed.

Lemma trim_idempotent (s : string) : trim (trim s) = trim s.
Proof. destruct (trim_ends s). apply trim_clean; assumption. Qed.

Lemma cleanExtractedText_ends (text : string) :
  startsClean (cleanExtractedText text) /\ endsClean (cleanExtractedText text).
Proof.
  rewrite cleanExtractedText_steps. destruct (String.eqb text ""); [split; exact I|].
  apply trim_ends.
Qed.

(** X2: the normalized text neither starts nor ends with white space:
    trimming it again changes nothing. *)
Theorem cleanExtractedText_trimmed (text : string) :
  startsClean (cleanExtractedText text) /\ endsClean (cleanExtractedText text) /\
  trim (cleanExtractedText text) = cleanExtractedText text.
Proof.
  destruct (cleanExtractedText_ends text) as [A B].
  split; [exact A|]. split; [exact B|]. apply trim_clean; assumption.
Qed.

Lemma normalBreaks_triple (s : string) :
  normalBreaks s = true -> includes s threeLineFeeds = false.
Proof.
  induction s as [|c r IH]; intros H; [reflexivity|].
  cbn [normalBreaks] in H. apply andb_prop in H. destruct H as [H0 H1].
  cbn [includes]. rewrite (IH H1), orb_false_r.
  destruct (startsWith (String c r) threeLineFeeds) eqn:E; [|reflexivity].
  exfalso. unfold threeLineFeeds in E.
  destruct r as [|a [|b r']]; cbn [startsWith] in E;
    try (rewrite ?andb_false_r in E; discriminate E).
  apply andb_prop in E. destruct E as [Ec E]. apply andb_prop in E. destruct E as [Ea E].
  apply andb_prop in E. destruct E as [Eb _].
  apply Ascii.eqb_eq in Ec, Ea, Eb. subst c a b.
  replace (isLF LF) with true in H0 by reflexivity.
  cbn [spaceToLF] in H0.
  replace (isSpace LF) with true in H0 by reflexivity.
  replace (isLF LF) with true in H0 by reflexivity.
  destruct (spaceToLF r') as [k|]; cbn in H0; discriminate H0.
Qed.

(** X3: in the normalized text the white space after a line feed never
    reaches a further line feed, except for one line feed right behind the
    first: paragraphs are separated by exactly one empty line, and three
    line feeds never stand in a row. *)
Theorem cleanExtractedText_breaks (text : string) :
  normalBreaks (cleanExtractedText text) = true /\
  includes (cleanExtractedText text) threeLineFeeds = false.
Proof.
  assert (H : normalBreaks (cleanExtractedText text) = true).
  { rewrite cleanExtractedText_steps. destruct (String.eqb text ""); [reflexivity|].
    unfold trim. apply trimEnd_normalBreaks, trimStart_normalBreaks.
    apply (normalizeParagraphs_normalBreaks (String.length _) _ None (le_n _)). }
  split; [exact H | apply normalBreaks_triple; exact H].
Qed.

(** X4: every line of the normalized text that is not empty holds a
    character that is neither a digit nor white space: lines of page
    numbers are gone. *)
Theorem cleanExtractedText_solidLines (text : string) :
  solidLines None (cleanExtractedText text) = true.
Proof.
  rewrite cleanExtractedText_steps. destruct (String.eqb text ""); [reflexivity|].
  apply trim_solidLines.
  apply (normalizeParagraphs_solidLines (String.length _) _ None (le_n _)).
  unfold wordsSplit.
  apply (split_solidLines isDigit isWord isDigit_word (fun c H => H)
           (String.length _) _ None (le_n _)).
  apply (split_solidLines isWord isDigit (fun c H => H) isDigit_word
           (String.length _) _ None (le_n _)).
  apply (split_solidLines isLower isUpper isLower_word isUpper_word
           (String.length _) _ None (le_n _)).
  apply dropNumberLines_solid.
Qed.

(** X5: in the normalized text no lower-case letter stands directly before
    an upper-case one, and no letter or underscore directly before a
    digit. *)
Theorem cleanExtractedText_split (text : string) :
  noAdjacent camelPair None (cleanExtractedText text) = true /\
  noAdjacent letterDigit None (cleanExtractedText text) = true.
Proof.
  rewrite cleanExtractedText_steps. destruct (String.eqb text ""); [split; reflexivity|].
  set (x6 := dropNumberLines (unprintableDropped text)). unfold wordsSplit.
  assert (C7 : noAdjacent camelPair None (splitCamelCase x6) = true).
  { apply (splitCamelCase_noAdjacent_camel (String.length x6) x6 None (le_n _) eq_refl). }
  set (x7 := splitCamelCase x6) in *.
  assert (C8 : noAdjacent camelPair None (splitBeforeDigit x7) = true).
  { apply replaceAll_noAdjacent; [|exact C7]. apply harmless_split_avoided. avoided. }
  assert (D8 : noAdjacent letterDigit None (splitBeforeDigit x7) = true).
  { apply (splitBeforeDigit_letterDigit (String.length x7) x7 None (le_n _) eq_refl). }
  set (x8 := splitBeforeDigit x7) in *.
  assert (C9 : noAdjacent camelPair None (splitAfterDigit x8) = true).
  { apply replaceAll_noAdjacent; [|exact C8]. apply harmless_split_avoided. avoided. }
  assert (D9 : noAdjacent letterDigit None (splitAfterDigit x8) = true).
  { apply replaceAll_noAdjacent; [|exact D8]. apply harmless_split_avoided. avoided. }
  set (x9 := splitAfterDigit x8) in *.
  split; apply trim_noAdjacent; (apply replaceAll_noAdjacent; [|assumption]);
    apply harmless_paragraphBreak; avoided.
Qed.

Lemma numericText_numericToLineEnd (s : string) :
  numericText s = true -> numericToLineEnd s = Some (String.length s).
Proof.
  induction s as [|c r IH]; intros H; [reflexivity|].
  unfold numericText in *. cbn [allUnits] in H. apply andb_prop in H. destruct H as [H0 H1].
  cbn [numericToLineEnd String.length]. rewrite H0, (IH H1). reflexivity.
Qed.

Lemma replaceFrom_skip_all (m : matcher) (s : string) (prev : option ascii) :
  replaceFrom m (const "") prev (String.length s) s = "".
Proof.
  revert prev. induction s as [|c r IH]; intros prev; [|apply IH].
  cbn. destruct (m prev "") as [[|k]|]; reflexivity.
Qed.

Lemma dropNumberLines_numericText (s : string) :
  numericText s = true -> dropNumberLines s = "".
Proof.
  intros H. unfold dropNumberLines, replaceAll.
  destruct s as [|c r]; [reflexivity|].
  pose proof (numericText_numericToLineEnd _ H) as E.
  cbn [replaceFrom]. unfold numberLine at 1. cbn [atLineStart]. rewrite E.
  cbn [String.length]. unfold const at 1. cbn [append]. apply replaceFrom_skip_all.
Qed.

Lemma replaceAll_numericText (m : matcher) (r s : string) :
  numericText r = true -> numericText s = true ->
  numericText (replaceAll m (const r) s) = true.
Proof. intros R A. apply replaceFrom_allUnits; [intros; exact R | exact A]. Qed.

(** X6: a text made of digits and white space only is normalized to the
    empty text. *)
Theorem cleanExtractedText_numericText (text : string) :
  numericText text = true -> cleanExtractedText text = "".
Proof.
  intros H. rewrite cleanExtractedText_steps. destruct (String.eqb text ""); [reflexivity|].
  assert (E : dropNumberLines (unprintableDropped text) = "").
  { apply dropNumberLines_numericText. unfold unprintableDropped.
    repeat (apply replaceAll_numericText; [reflexivity|]). exact H. }
  rewrite E. reflexivity.
Qed.

Lemma cleanExtractedText_numericText_witness :
  numericText pageNumbers = true /\ cleanExtractedText pageNumbers = "".
Proof.
  split; [reflexivity|]. apply (cleanExtractedText_numericText pageNumbers). reflexivity.
Defined.

(** X7: in the normalized form of a text of printable ASCII characters and
    line feeds no two blanks are adjacent. *)
Theorem cleanExtractedText_blanks (text : string) :
  printableText text = true ->
  noAdjacent blankPair None (cleanExtractedText text) = true.
Proof.
  intros A. rewrite cleanExtractedText_steps. destruct (String.eqb text ""); [reflexivity|].
  fold (pipeline text). rewrite (pipeline_printable text A).
  pose proof (collapseNewlines_printable text A) as A3.
  set (x3 := collapseNewlines text) in *.
  assert (B4 : noAdjacent blankPair None (collapseBlanks x3) = true).
  { apply (collapseBlanks_noAdjacent (String.length x3) x3 None None (le_n _) eq_refl). }
  set (x4 := collapseBlanks x3) in *.
  assert (B6 : noAdjacent blankPair None (dropNumberLines x4) = true).
  { apply replaceAll_noAdjacent; [|exact B4]. apply harmless_numberLine.
    intros a c L. unfold blankPair. destruct (lineTerminator_facts a L) as [-> _]. reflexivity. }
  set (x6 := dropNumberLines x4) in *.
  assert (B7 : noAdjacent blankPair None (splitCamelCase x6) = true).
  { apply replaceAll_noAdjacent; [|exact B6].
    apply harmless_split_blank; [apply isLower_word | apply isUpper_word]. }
  set (x7 := splitCamelCase x6) in *.
  assert (B8 : noAdjacent blankPair None (splitBeforeDigit x7) = true).
  { apply replaceAll_noAdjacent; [|exact B7].
    apply harmless_split_blank; [auto | apply isDigit_word]. }
  set (x8 := splitBeforeDigit x7) in *.
  assert (B9 : noAdjacent blankPair None (splitAfterDigit x8) = true).
  { apply replaceAll_noAdjacent; [|exact B8].
    apply harmless_split_blank; [apply isDigit_word | auto]. }
  set (x9 := splitAfterDigit x8) in *.
  apply trim_noAdjacent. apply replaceAll_noAdjacent; [|exact B9].
  apply harmless_paragraphBreak. avoided.
Qed.

Lemma cleanExtractedText_blanks_witness :
  printableText widelySpaced = true /\
  cleanExtractedText widelySpaced = "Jane Doe, senior engineer" /\
  noAdjacent blankPair None (cleanExtractedText widelySpaced) = true.
Proof.
  split; [reflexivity|]. split; [reflexivity|].
  apply (cleanExtractedText_blanks widelySpaced). reflexivity.
Defined.

(** ** PDF validation under any ceiling *)

Lemma decodeAscii_code (b : Byte.byte) :
  N_of_ascii (decodeAscii b) = N.land (Byte.to_N b) 127.
Proof. destruct b; reflexivity. Qed.

Lemma header_sevenBits (buffer : Buffer) :
  startsWith (toStringAscii buffer 0 8) "%PDF-" = true
  <-> sevenBits (firstn 5 buffer) = markerCodes.
Proof.
  rewrite header_test_iff. unfold sevenBits. split; intros H.
  - apply (f_equal (map N_of_ascii)) in H. rewrite map_map in H.
    rewrite (map_ext _ _ decodeAscii_code) in H. exact H.
  - apply (f_equal (map ascii_of_N)) in H. rewrite map_map in H. exact H.
Qed.

(** X28: under any ceiling a buffer is accepted exactly when it is not
    empty, its size in megabytes does not exceed the ceiling and its first
    five bytes, each with its high bit cleared, are the bytes of [%PDF-]:
    the header test does not see the high bits.  So a buffer accepted under
    one ceiling is accepted under every larger one. *)
Theorem validatePDFFile_ceiling (buffer : Buffer) (maxSizeMB larger : Q) :
  (valid (validatePDFFile buffer maxSizeMB) = true <->
   buffer <> [] /\
   (Qmake (Z.of_nat (List.length buffer)) bytesPerMB <= maxSizeMB)%Q /\
   sevenBits (firstn 5 buffer) = markerCodes) /\
  ((maxSizeMB <= larger)%Q ->
   valid (validatePDFFile buffer maxSizeMB) = true ->
   valid (validatePDFFile buffer larger) = true).
Proof.
  assert (C : forall m,
            valid (validatePDFFile buffer m) = true <->
            buffer <> [] /\
            (Qmake (Z.of_nat (List.length buffer)) bytesPerMB <= m)%Q /\
            sevenBits (firstn 5 buffer) = markerCodes).
  { intros m. rewrite <- header_sevenBits. unfold validatePDFFile.
    destruct buffer as [|b rest]; [cbn; split; [discriminate | intros [H _]; congruence]|].
    cbn [List.length Nat.eqb].
    destruct (Qle_bool (Qmake (Z.of_nat (S (List.length rest))) bytesPerMB) m) eqn:L;
      cbn [negb].
    - apply Qle_bool_iff in L.
      destruct (startsWith (toStringAscii (b :: rest) 0 8) "%PDF-"); cbn [negb valid].
      + split; [intros _; repeat split; [discriminate | exact L] | reflexivity].
      + split; [discriminate | intros (_ & _ & H); discriminate H].
    - cbn [valid]. split; [discriminate|]. intros (_ & H & _).
      apply Qle_bool_iff in H. congruence. }
  split; [apply C|].
  intros H V. apply C in V. destruct V as (N & S & P). apply C.
  split; [exact N|]. split; [|exact P]. apply (Qle_trans _ maxSizeMB); assumption.
Qed.

(** ** Role-insight enricher: further facts *)

(** X8: for every role and every analysis of the declared type the
    recommendation generator returns at most two recommendations, no two of
    them equal, and none exactly when the lower-cased category is not one of
    the six it knows: the cut to three never removes anything. *)
Theorem generateRoleSpecificRecommendations_bounded (role : JobRole) (analysis : ResumeAnalysis) :
  exists recs,
    generateRoleSpecificRecommendations typed role analysis = Ok recs /\
    List.length recs <= 2 /\ NoDup recs /\
    (recs = [] <-> ~ In (toLowerCase (category role)) knownCategories).
Proof.
  unfold generateRoleSpecificRecommendations. cbv zeta.
  rewrite !someMentions_typed, !someSection_typed.
  generalize (toLowerCase (category role)). intros c.
  assert (N : forall l, NoDup (firstn 3 (uniq l))) by (intros; apply firstn_NoDup, uniq_NoDup).
  unfold knownCategories.
  destruct (String.eqb c "technology") eqn:E1;
    [|destruct (String.eqb c "management") eqn:E2;
      [|destruct (String.eqb c "design") eqn:E3;
        [|destruct (String.eqb c "marketing") eqn:E4;
          [|destruct (String.eqb c "sales") eqn:E5;
            [|destruct (String.eqb c "analysis") eqn:E6]]]]];
    cbn [bind]; eexists; (split; [reflexivity|]); (split; [|split; [apply N|]]).
  - destruct (numLt _ _); cbn; lia.
  - apply String.eqb_eq in E1. subst c.
    split; [destruct (numLt _ _); discriminate | intros H; contradiction H; cbn; tauto].
  - destruct (existsb _ _); cbn; lia.
  - apply String.eqb_eq in E2. subst c.
    split; [destruct (existsb _ _); discriminate | intros H; contradiction H; cbn; tauto].
  - destruct (numLt _ _); cbn; lia.
  - apply String.eqb_eq in E3. subst c.
    split; [discriminate | intros H; contradiction H; cbn; tauto].
  - destruct (negb _); cbn; lia.
  - apply String.eqb_eq in E4. subst c.
    split; [discriminate | intros H; contradiction H; cbn; tauto].
  - cbn; lia.
  - apply String.eqb_eq in E5. subst c.
    split; [discriminate | intros H; contradiction H; cbn; tauto].
  - destruct (existsb _ _); cbn; lia.
  - apply String.eqb_eq in E6. subst c.
    split; [discriminate | intros H; contradiction H; cbn; tauto].
  - cbn. lia.
  - split; [intros _|reflexivity].
    apply String.eqb_neq in E1, E2, E3, E4, E5, E6.
    cbn. intros [H|[H|[H|[H|[H|[H|[]]]]]]]; congruence.
Qed.

(** X9: enrichment changes nothing but the list of missing skills and the
    list of recommendations, and these two only by appending. *)
Theorem enhanceAnalysisWithJobInsights_appends (analysis : ResumeAnalysis) (jobRole : string) :
  exists analysis' skills recs,
    enhanceAnalysisWithJobInsights typed analysis jobRole = Ok analysis' /\
    analysis'
    = withRecommendations
        (withMissingSkills analysis (missingSkills (keyFindings analysis) ++ skills))
        (recommendations (jobAlignment analysis) ++ recs) /\
    overallScore analysis' = overallScore analysis /\
    maxOverallScore analysis' = maxOverallScore analysis /\
    summary analysis' = summary analysis /\
    sections analysis' = sections analysis /\
    strengths (keyFindings analysis') = strengths (keyFindings analysis) /\
    majorIssues (keyFindings analysis') = majorIssues (keyFindings analysis) /\
    atsCompatibility (keyFindings analysis') = atsCompatibility (keyFindings analysis) /\
    improvementPriority (keyFindings analysis') = improvementPriority (keyFindings analysis) /\
    matchScore (jobAlignment analysis') = matchScore (jobAlignment analysis) /\
    relevantExperience (jobAlignment analysis') = relevantExperience (jobAlignment analysis) /\
    skillGaps (jobAlignment analysis') = skillGaps (jobAlignment analysis).
Proof.
  destruct (findRole jobRole) as [role|] eqn:F.
  - destruct (enhance_typed_found analysis jobRole role F) as (recs & E & _).
    exists (enriched analysis role recs), (filter (skillAbsent analysis) (commonSkills role)), recs.
    split; [exact E|]. repeat split.
  - exists analysis, [], []. split; [apply enhance_typed_none; exact F|].
    rewrite !app_nil_r. destruct analysis as [? ? ? ? [] []]. repeat split.
Qed.

Lemma filter_none {A : Type} (f : A -> bool) (l : list A) :
  (forall x, In x l -> f x = false) -> filter f l = [].
Proof.
  induction l as [|x l IH]; intros H; [reflexivity|].
  cbn. rewrite (H x (or_introl eq_refl)). apply IH. intros y Hy. apply H. right. exact Hy.
Qed.

Lemma skillsText_enriched (analysis : ResumeAnalysis) (role : JobRole) (recs : list string) :
  skillsText (enriched analysis role recs) = skillsText analysis.
Proof. reflexivity. Qed.

(** After enrichment no catalog skill of the role counts as absent. *)
Lemma skillAbsent_enriched (analysis : ResumeAnalysis) (role : JobRole) (recs : list string)
    (skill : string) :
  In skill (commonSkills role) -> skillAbsent (enriched analysis role recs) skill = false.
Proof.
  intros H. unfold skillAbsent at 1. rewrite skillsText_enriched.
  change (missingSkills (keyFindings (enriched analysis role recs)))
    with (missingSkills (keyFindings analysis)
            ++ filter (skillAbsent analysis) (commonSkills role))%list.
  rewrite existsb_app.
  destruct (skillAbsent analysis skill) eqn:E.
  - assert (X : existsb (fun missing => includes (toLowerCase missing) (toLowerCase skill))
                  (filter (skillAbsent analysis) (commonSkills role)) = true).
    { apply existsb_exists. exists skill. split; [|apply includes_refl].
      apply filter_In. split; assumption. }
    rewrite X, orb_true_r. apply andb_false_r.
  - unfold skillAbsent in E.
    destruct (includes (skillsText analysis) (toLowerCase skill)); [reflexivity|].
    cbn [negb andb] in E |- *. apply negb_false_iff in E. rewrite E. reflexivity.
Qed.

(** X10: enriching an enriched analysis for the same title appends no
    further missing skill. *)
Theorem enhanceAnalysisWithJobInsights_skills_once (analysis analysis' : ResumeAnalysis)
    (jobRole : string) :
  enhanceAnalysisWithJobInsights typed analysis jobRole = Ok analysis' ->
  exists analysis'',
    enhanceAnalysisWithJobInsights typed analysis' jobRole = Ok analysis'' /\
    missingSkills (keyFindings analysis'') = missingSkills (keyFindings analysis').
Proof.
  intros E. destruct (findRole jobRole) as [role|] eqn:F.
  - destruct (enhance_typed_found analysis jobRole role F) as (recs & E1 & _).
    rewrite E1 in E. injection E as <-.
    destruct (enhance_typed_found (enriched analysis role recs) jobRole role F)
      as (recs' & E2 & _).
    eexists. split; [exact E2|].
    change (missingSkills (keyFindings (enriched (enriched analysis role recs) role recs')))
      with (missingSkills (keyFindings (enriched analysis role recs))
              ++ filter (skillAbsent (enriched analysis role recs)) (commonSkills role))%list.
    rewrite filter_none; [apply app_nil_r|].
    intros skill H. apply skillAbsent_enriched. exact H.
  - rewrite (enhance_typed_none analysis jobRole F) in E. injection E as <-.
    exists analysis. split; [apply enhance_typed_none; exact F | reflexivity].
Qed.

Lemma enhanceAnalysisWithJobInsights_skills_once_witness :
  enhanceAnalysisWithJobInsights typed sampleAnalysis "Data Scientist" = Ok enrichedSample /\
  exists analysis'',
    enhanceAnalysisWithJobInsights typed enrichedSample "Data Scientist" = Ok analysis'' /\
    missingSkills (keyFindings analysis'')
    = ["Docker"; "Machine Learning"; "Statistics"; "Data Visualization"; "TensorFlow";
       "Pandas"; "Numpy"].
Proof.
  split; [reflexivity|].
  exact (enhanceAnalysisWithJobInsights_skills_once sampleAnalysis enrichedSample
           "Data Scientist" eq_refl).
Defined.

Lemma distinct_NoDup (l : list string) : distinct l = true -> NoDup l.
Proof.
  induction l as [|x l IH]; intros H; constructor.
  - cbn in H. apply andb_prop in H. destruct H as [H _]. apply negb_true_iff in H.
    intros X. assert (T : existsb (String.eqb x) l = true).
    { apply existsb_exists. exists x. split; [exact X | apply String.eqb_refl]. }
    congruence.
  - apply IH. cbn in H. apply andb_prop in H. apply H.
Qed.

Lemma catalog_skills_distinct (role : JobRole) :
  In role PREDEFINED_JOB_ROLES -> NoDup (commonSkills role).
Proof.
  intros H. apply distinct_NoDup.
  assert (A : forallb (fun r => distinct (commonSkills r)) PREDEFINED_JOB_ROLES = true)
    by (vm_compute; reflexivity).
  rewrite forallb_forall in A. apply A. exact H.
Qed.

(** X11: enrichment keeps the list of missing skills free of duplicates. *)
Theorem enhanceAnalysisWithJobInsights_distinct (analysis analysis' : ResumeAnalysis)
    (jobRole : string) :
  NoDup (missingSkills (keyFindings analysis)) ->
  enhanceAnalysisWithJobInsights typed analysis jobRole = Ok analysis' ->
  NoDup (missingSkills (keyFindings analysis')).
Proof.
  intros N E. destruct (findRole jobRole) as [role|] eqn:F.
  - destruct (enhance_typed_found analysis jobRole role F) as (recs & E1 & _).
    rewrite E1 in E. injection E as <-.
    change (missingSkills (keyFindings (enriched analysis role recs)))
      with (missingSkills (keyFindings analysis)
              ++ filter (skillAbsent analysis) (commonSkills role))%list.
    destruct (findRole_in_catalog _ _ F) as [Hin _].
    apply NoDup_app; [exact N | apply NoDup_filter, catalog_skills_distinct, Hin|].
    intros x Hx Hf. apply filter_In in Hf. destruct Hf as [_ Hf].
    unfold skillAbsent in Hf. apply andb_prop in Hf. destruct Hf as [_ Hf].
    apply negb_true_iff in Hf.
    assert (T : existsb (fun missing => includes (toLowerCase missing) (toLowerCase x))
                  (missingSkills (keyFindings analysis)) = true).
    { apply existsb_exists. exists x. split; [exact Hx | apply includes_refl]. }
    congruence.
  - rewrite (enhance_typed_none analysis jobRole F) in E. injection E as <-. exact N.
Qed.

Lemma enhanceAnalysisWithJobInsights_distinct_witness :
  NoDup (missingSkills (keyFindings sampleAnalysis)) /\
  enhanceAnalysisWithJobInsights typed sampleAnalysis "Data Scientist" = Ok enrichedSample /\
  NoDup ["Docker"; "Machine Learning"; "Statistics"; "Data Visualization"; "TensorFlow";
         "Pandas"; "Numpy"].
Proof.
  assert (N : NoDup (missingSkills (keyFindings sampleAnalysis))).
  { apply distinct_NoDup. reflexivity. }
  split; [exact N|]. split; [reflexivity|].
  exact (enhanceAnalysisWithJobInsights_distinct sampleAnalysis enrichedSample
           "Data Scientist" N eq_refl).
Defined.

(** ** Catalog lookup: every role is found *)

Ltac skip_other_titles jobRole H :=
  repeat match goal with
         | |- context [String.eqb ?a (toLowerCase jobRole)] =>
             let E := fresh "E" in
             destruct (String.eqb a (toLowerCase jobRole)) eqn:E;
             [first [reflexivity
                    | exfalso; apply String.eqb_eq in E; unfold slug in H;
                      rewrite <- E in H; vm_compute in H; discriminate H]
             | cbn [orb]]
         end.

(** X12: every role of the catalog is found by its own title, whatever the
    letter case, and by its own id: no entry hides another. *)
Theorem findRole_catalog (role : JobRole) (jobRole : string) :
  In role PREDEFINED_JOB_ROLES ->
  toLowerCase jobRole = toLowerCase (title role) \/ slug jobRole = id role ->
  findRole jobRole = Some role.
Proof.
  intros Hin H. unfold PREDEFINED_JOB_ROLES in Hin. cbn [In] in Hin.
  repeat (destruct Hin as [<- | Hin]); try contradiction;
    (destruct H as [H | H];
     [ unfold findRole, PREDEFINED_JOB_ROLES; cbn [find]; unfold matchesRole, slug;
       rewrite H; vm_compute; reflexivity
     | cbn [id] in H; unfold findRole, PREDEFINED_JOB_ROLES; cbn [find]; unfold matchesRole;
       rewrite H; cbn [id title]; skip_other_titles jobRole H; reflexivity ]).
Qed.

Lemma findRole_catalog_witness :
  In productManager PREDEFINED_JOB_ROLES /\
  findRole "PRODUCT manager" = Some productManager /\
  findRole "product-manager" = Some productManager.
Proof.
  assert (H : In productManager PREDEFINED_JOB_ROLES) by (right; left; reflexivity).
  split; [exact H|]. split.
  - apply (findRole_catalog productManager "PRODUCT manager" H). left. reflexivity.
  - apply (findRole_catalog productManager "product-manager" H). right. reflexivity.
Defined.

(** ** Quick score: further facts *)

Lemma isSpace_lowerChar (c : ascii) : isSpace (lowerChar c) = isSpace c.
Proof. destruct c as [[] [] [] [] [] [] [] []]; reflexivity. Qed.

Lemma spanLen_toLowerCase (s : string) :
  spanLen isSpace (toLowerCase s) = spanLen isSpace s.
Proof.
  induction s as [|c r IH]; [reflexivity|]. cbn. rewrite isSpace_lowerChar, IH. reflexivity.
Qed.

Lemma countFrom_toLowerCase (s : string) (prev prev' : option ascii) (skip : nat) :
  countFrom spaces prev skip (toLowerCase s) = countFrom spaces prev' skip s.
Proof.
  revert prev prev' skip. induction s as [|c r IH]; intros prev prev' skip.
  - destruct skip; reflexivity.
  - destruct skip as [|skip]; cbn [toLowerCase countFrom]; [|apply IH].
    unfold spaces, atLeast.
    change (String (lowerChar c) (toLowerCase r)) with (toLowerCase (String c r)).
    rewrite spanLen_toLowerCase.
    destruct (spanLen isSpace (String c r)) as [|k]; cbn [Nat.leb];
      [apply IH | f_equal; apply IH].
Qed.

Lemma splitLength_toLowerCase (s : string) : splitLength (toLowerCase s) = splitLength s.
Proof. unfold splitLength, countAll. f_equal. apply countFrom_toLowerCase. Qed.

Lemma generateQuickScore_lowered (s : string) :
  generateQuickScore (toLowerCase s) = generateQuickScore s.
Proof.
  unfold generateQuickScore. rewrite toLowerCase_idempotent, splitLength_toLowerCase. reflexivity.
Qed.

(** X13: the quick score does not depend on letter case: two texts with the
    same lower-cased form score alike. *)
Theorem generateQuickScore_caseInsensitive (a b : string) :
  toLowerCase a = toLowerCase b -> generateQuickScore a = generateQuickScore b.
Proof.
  intros H. rewrite <- (generateQuickScore_lowered a), <- (generateQuickScore_lowered b), H.
  reflexivity.
Qed.

Lemma generateQuickScore_caseInsensitive_witness :
  generateQuickScore "SKILLS: Sql, Excel. Email ME" = generateQuickScore "skills: SQL, excel. eMail me".
Proof. apply generateQuickScore_caseInsensitive. reflexivity. Defined.

(** X14: the quick score never exceeds 84, and a text with every feature of
    the rubric scores 84: the cap at 100 is never reached. *)
Theorem generateQuickScore_at_most_84 :
  (forall resumeContent, (generateQuickScore resumeContent <= 84)%Z) /\
  generateQuickScore completeResume = 84%Z.
Proof.
  split; [|vm_compute; reflexivity].
  intros resumeContent. unfold generateQuickScore. cbv zeta.
  pose proof (filter_length_le (fun keyword => includes (toLowerCase resumeContent) keyword)
                experienceKeywords) as Hm.
  change (List.length experienceKeywords) with 7 in Hm.
  apply Nat2Z.inj_le in Hm. revert Hm.
  generalize (Z.of_nat (List.length
    (filter (fun keyword => includes (toLowerCase resumeContent) keyword) experienceKeywords))).
  generalize (Z.of_nat (countAll technicalTerm (toLowerCase resumeContent))).
  intros skills matches Hm.
  repeat match goal with
         | |- context [if ?b then _ else _] => destruct b
         end; lia.
Qed.

(** ** Response normalizer: what it reads *)

Section NormalizerReads.
Variable NumberToString : JsNum -> string.
Variable StringToNumber : string -> JsNum.

Local Abbreviation validate := (validateAndStructureAnalysis NumberToString StringToNumber).

(** X15: the normalizer reads five members of the payload and nothing
    else: two payloads that agree on them are normalized alike, whatever
    other members they carry. *)
Theorem validateAndStructureAnalysis_reads (v v' : JsValue) :
  nullish v = false -> nullish v' = false ->
  (forall key, In key readMembers -> field v key = field v' key) ->
  validate v = validate v'.
Proof.
  intros N N' H. unfold validateAndStructureAnalysis.
  rewrite !(member_not_nullish v) by exact N. rewrite !(member_not_nullish v') by exact N'.
  rewrite <- !H by (cbn; tauto). reflexivity.
Qed.

(** X16: a payload other than [null] and [undefined] that has none of the
    five members is normalized to the default analysis: score 0 of 100,
    the default summary and empty lists. *)
Theorem validateAndStructureAnalysis_defaults (v : JsValue) :
  nullish v = false ->
  (forall key, In key readMembers -> field v key = JUndefined) ->
  validate v = Ok defaultAnalysis.
Proof.
  intros N H. unfold validateAndStructureAnalysis.
  rewrite !(member_not_nullish v) by exact N.
  rewrite !H by (cbn; tauto). reflexivity.
Qed.
End NormalizerReads.

Lemma validateAndStructureAnalysis_reads_witness :
  validateAndStructureAnalysis noNumberToString noStringToNumber barePayload
  = validateAndStructureAnalysis noNumberToString noStringToNumber paddedPayload.
Proof.
  apply validateAndStructureAnalysis_reads; [reflexivity | reflexivity|].
  intros key H. cbn in H.
  repeat (destruct H as [<- | H]; [reflexivity|]). contradiction.
Defined.

Lemma validateAndStructureAnalysis_defaults_witness :
  validateAndStructureAnalysis noNumberToString noStringToNumber
    (JObject [("result", JString "no analysis")]) = Ok defaultAnalysis /\
  validateAndStructureAnalysis noNumberToString noStringToNumber (JArray [JNull])
  = Ok defaultAnalysis.
Proof.
  split; apply validateAndStructureAnalysis_defaults; try reflexivity;
    intros key H; cbn in H;
    repeat (destruct H as [<- | H]; [reflexivity|]); contradiction.
Defined.

(** ** Analysis requester: outcomes *)

Lemma statusCodeOf_wrapped (message : string) :
  statusCodeOf ("Failed to analyze resume: " ++ message) = statusCodeOf message.
Proof.
  unfold statusCodeOf.
  assert (K : forall k, In k ["API key"; "too short"; "required"; "timeout"; "rate limit"] ->
                includes ("Failed to analyze resume: " ++ message) k = includes message k).
  { intros k H. cbn in H.
    repeat (destruct H as [<- | H]; [cbn; rewrite ?andb_false_r; reflexivity|]).
    contradiction. }
  rewrite !K by (cbn; tauto). reflexivity.
Qed.

Section RequesterOutcomes.
Variable NumberToString : JsNum -> string.
Variable StringToNumber : string -> JsNum.
Variable OPENAI_API_KEY : option string.
Variable RESUME_ANALYSIS_SYSTEM_PROMPT : string.
Variable ANALYSIS_INSTRUCTIONS : string.
Variable chatCompletion : string -> string -> Result (option string).
Variable JSON_parse : string -> Result JsValue.
Variable notAFunction : string -> string.

Local Abbreviation analyze :=
  (analyzeResume NumberToString StringToNumber OPENAI_API_KEY RESUME_ANALYSIS_SYSTEM_PROMPT
     ANALYSIS_INSTRUCTIONS chatCompletion JSON_parse notAFunction).
Local Abbreviation prompt := (createResumeAnalysisPrompt ANALYSIS_INSTRUCTIONS).

(** X17: whatever its inputs and whatever the service answers,
    [analyzeResume] sends at most one request, made of the system prompt
    and of the prompt built from its three arguments, and every error it
    rejects with is an [Error] whose message starts with
    "Failed to analyze resume: ". *)
Theorem analyzeResume_outcome (resumeInput : ResumeInput) (jobRole : string)
    (jobDescription : option string) (sent : Trace) :
  let outcome := analyze resumeInput jobRole jobDescription sent in
  (snd outcome = sent \/
   snd outcome
   = (sent ++ [(RESUME_ANALYSIS_SYSTEM_PROMPT,
                prompt (content resumeInput) jobRole jobDescription)])%list) /\
  (forall e, fst outcome = Throw e ->
     exists message, e = Error ("Failed to analyze resume: " ++ message)).
Proof.
  cbv zeta. unfold analyzeResume, tryCatch, callOpenAI, await, tryCatch, request, reject,
    settle, resolve.
  destruct (String.eqb (content resumeInput) ""
            || Nat.ltb (String.length (trim (content resumeInput))) 100);
    [split; [left; reflexivity | intros e [= <-]; eexists; reflexivity]|].
  destruct (String.eqb jobRole "" || Nat.eqb (String.length (trim jobRole)) 0);
    [split; [left; reflexivity | intros e [= <-]; eexists; reflexivity]|].
  destruct (negb (validateOpenAIKey OPENAI_API_KEY));
    [split; [left; reflexivity | intros e [= <-]; eexists; reflexivity]|].
  destruct (chatCompletion _ _) as [[r|]|e0]; cbn;
    try (split; [right; reflexivity | intros e [= <-]; eexists; reflexivity]).
  destruct (String.eqb r ""); cbn;
    [split; [right; reflexivity | intros e [= <-]; eexists; reflexivity]|].
  destruct (JSON_parse r) as [v|e0]; cbn;
    [|split; [right; reflexivity | intros e [= <-]; eexists; reflexivity]].
  destruct (validateAndStructureAnalysis _ _ v) as [a|e0]; cbn;
    [|split; [right; reflexivity | intros e [= <-]; eexists; reflexivity]].
  destruct (enhanceAnalysisWithJobInsights _ a jobRole) as [a'|e0]; cbn;
    split; try (right; reflexivity); try discriminate.
  intros e [= <-]. eexists. reflexivity.
Qed.

(** X18: with a valid text and role but no configured key,
    [analyzeResume] rejects without sending anything, and the route
    answers the rejection with status 503. *)
Theorem analyzeResume_without_key (resumeInput : ResumeInput) (jobRole : string)
    (jobDescription : option string) (sent : Trace) :
  100 <= String.length (trim (content resumeInput)) ->
  0 < String.length (trim jobRole) ->
  validateOpenAIKey OPENAI_API_KEY = false ->
  exists message,
    analyze resumeInput jobRole jobDescription sent = (Throw (Error message), sent) /\
    statusCodeOf message = 503.
Proof.
  intros Hc Hr Hk.
  assert (C : String.eqb (content resumeInput) "" = false).
  { destruct (content resumeInput); [cbn in Hc; lia | reflexivity]. }
  assert (J : String.eqb jobRole "" = false).
  { destruct jobRole; [cbn in Hr; lia | reflexivity]. }
  unfold analyzeResume, tryCatch, callOpenAI, await, tryCatch, reject.
  rewrite C, J, Hk. cbn [orb negb].
  destruct (Nat.ltb_spec (String.length (trim (content resumeInput))) 100); [lia|].
  destruct (Nat.eqb_spec (String.length (trim jobRole)) 0); [lia|].
  eexists. split; [reflexivity | vm_compute; reflexivity].
Qed.

(** X19: when the service fails, [analyzeResume] rejects with the
    service's message behind its prefix, after the one request, and the
    prefix does not change the status the route derives from the message. *)
Theorem analyzeResume_service_failure (resumeInput : ResumeInput) (jobRole : string)
    (jobDescription : option string) (sent : Trace) (e : JsError) :
  100 <= String.length (trim (content resumeInput)) ->
  0 < String.length (trim jobRole) ->
  validateOpenAIKey OPENAI_API_KEY = true ->
  chatCompletion RESUME_ANALYSIS_SYSTEM_PROMPT
    (prompt (content resumeInput) jobRole jobDescription) = Throw e ->
  analyze resumeInput jobRole jobDescription sent
  = (Throw (Error ("Failed to analyze resume: " ++ messageOf e)),
     (sent ++ [(RESUME_ANALYSIS_SYSTEM_PROMPT,
                prompt (content resumeInput) jobRole jobDescription)])%list) /\
  statusCodeOf ("Failed to analyze resume: " ++ messageOf e) = statusCodeOf (messageOf e).
Proof.
  intros Hc Hr Hk He. split; [|apply statusCodeOf_wrapped].
  assert (C : String.eqb (content resumeInput) "" = false).
  { destruct (content resumeInput); [cbn in Hc; lia | reflexivity]. }
  assert (J : String.eqb jobRole "" = false).
  { destruct jobRole; [cbn in Hr; lia | reflexivity]. }
  unfold analyzeResume, tryCatch, callOpenAI, await, tryCatch, request, reject.
  rewrite C, J, Hk, He. cbn [orb negb].
  destruct (Nat.ltb_spec (String.length (trim (content resumeInput))) 100); [lia|].
  destruct (Nat.eqb_spec (String.length (trim jobRole)) 0); [lia|].
  reflexivity.
Qed.

(** X20: with a valid text, a configured key and a role outside the
    catalog, a response that parses to a payload the normalizer accepts is
    resolved to exactly the normalized payload, after one request. *)
Theorem analyzeResume_resolves (resumeInput : ResumeInput) (jobRole : string)
    (jobDescription : option string) (sent : Trace) (response : string) (payload : JsValue)
    (analysis : ResumeAnalysisOf JsValue JsValue) :
  100 <= String.length (trim (content resumeInput)) ->
  0 < String.length (trim jobRole) ->
  validateOpenAIKey OPENAI_API_KEY = true ->
  chatCompletion RESUME_ANALYSIS_SYSTEM_PROMPT
    (prompt (content resumeInput) jobRole jobDescription) = Ok (Some response) ->
  response <> "" ->
  JSON_parse response = Ok payload ->
  validateAndStructureAnalysis NumberToString StringToNumber payload = Ok analysis ->
  findRole jobRole = None ->
  analyze resumeInput jobRole jobDescription sent
  = (Ok analysis,
     (sent ++ [(RESUME_ANALYSIS_SYSTEM_PROMPT,
                prompt (content resumeInput) jobRole jobDescription)])%list).
Proof.
  intros Hc Hr Hk He Hn Hp Hv Hf.
  assert (C : String.eqb (content resumeInput) "" = false).
  { destruct (content resumeInput); [cbn in Hc; lia | reflexivity]. }
  assert (J : String.eqb jobRole "" = false).
  { destruct jobRole; [cbn in Hr; lia | reflexivity]. }
  apply String.eqb_neq in Hn.
  unfold analyzeResume, tryCatch, callOpenAI, await, tryCatch, request, reject, settle, resolve.
  rewrite C, J, Hk, He. cbn [orb negb].
  destruct (Nat.ltb_spec (String.length (trim (content resumeInput))) 100); [lia|].
  destruct (Nat.eqb_spec (String.length (trim jobRole)) 0); [lia|].
  rewrite Hn, Hp. cbn. rewrite Hv. cbn.
  unfold enhanceAnalysisWithJobInsights. rewrite Hf. reflexivity.
Qed.
End RequesterOutcomes.

Lemma analyzeResume_without_key_witness :
  exists message,
    analyzeResume noNumberToString noStringToNumber None "system" "instructions"
      noService (fun _ => Ok (JObject [])) (fun _ => "") shortResume "Data Scientist" None []
    = (Throw (Error message), []) /\
    statusCodeOf message = 503.
Proof.
  apply (analyzeResume_without_key noNumberToString noStringToNumber None "system"
           "instructions" noService (fun _ => Ok (JObject [])) (fun _ => "") shortResume "Data Scientist"
           None []).
  - vm_compute. repeat constructor.
  - vm_compute. repeat constructor.
  - reflexivity.
Defined.

Lemma analyzeResume_service_failure_witness :
  analyzeResume noNumberToString noStringToNumber (Some "sk-test") "system" "instructions"
    timedOut (fun _ => Ok (JObject [])) (fun _ => "") shortResume "Data Scientist" None []
  = (Throw (Error "Failed to analyze resume: Request timeout after 60000ms"),
     [("system",
       createResumeAnalysisPrompt "instructions" (content shortResume) "Data Scientist" None)]) /\
  statusCodeOf "Failed to analyze resume: Request timeout after 60000ms" = 429.
Proof.
  destruct (analyzeResume_service_failure noNumberToString noStringToNumber (Some "sk-test")
              "system" "instructions" timedOut (fun _ => Ok (JObject [])) (fun _ => "") shortResume
              "Data Scientist" None [] (Error "Request timeout after 60000ms"))
    as [A B].
  - vm_compute. repeat constructor.
  - vm_compute. repeat constructor.
  - reflexivity.
  - reflexivity.
  - split; [exact A | reflexivity].
Defined.

Lemma analyzeResume_resolves_witness :
  analyzeResume noNumberToString noStringToNumber (Some "sk-test") "system" "instructions"
    emptyObject (fun _ => Ok (JObject [])) (fun _ => "") shortResume "Astronaut" None []
  = (Ok defaultAnalysis,
     [("system",
       createResumeAnalysisPrompt "instructions" (content shortResume) "Astronaut" None)]).
Proof.
  apply (analyzeResume_resolves noNumberToString noStringToNumber (Some "sk-test") "system"
           "instructions" emptyObject (fun _ => Ok (JObject [])) (fun _ => "") shortResume "Astronaut" None []
           "{}" (JObject []) defaultAnalysis).
  - vm_compute. repeat constructor.
  - vm_compute. repeat constructor.
  - reflexivity.
  - reflexivity.
  - discriminate.
  - reflexivity.
  - reflexivity.
  - reflexivity.
Defined.

(** ** Section extraction *)

Lemma push_pushed (key line : string) (content : Content) :
  NoDup (map fst content) -> In key (map fst content) ->
  push key line content = Ok (pushed key line content).
Proof.
  induction content as [|[k v] rest IH]; intros N H; [contradiction|].
  cbn [map fst] in N, H. inversion N as [|? ? Nk Nrest]; subst.
  cbn [push pushed map fst snd]. destruct (String.eqb k key) eqn:E.
  - apply String.eqb_eq in E. subst k.
    assert (X : map (fun entry : string * list string =>
                       (fst entry,
                        if String.eqb (fst entry) key then (snd entry ++ [line])%list
                        else snd entry)) rest = rest).
    { clear -Nk. induction rest as [|[k' v'] rest IH]; [reflexivity|].
      cbn [map fst snd]. cbn [map fst In] in Nk.
      destruct (String.eqb k' key) eqn:E; [apply String.eqb_eq in E; tauto|].
      rewrite IH by tauto. reflexivity. }
    rewrite X. reflexivity.
  - destruct H as [H|H]; [apply String.eqb_neq in E; congruence|].
    rewrite (IH Nrest H). reflexivity.
Qed.

Lemma pushed_keys (key line : string) (content : Content) :
  map fst (pushed key line content) = map fst content.
Proof. unfold pushed. rewrite map_map. reflexivity. Qed.

Lemma headerOf_key (line sectionName : string) :
  headerOf line = Some sectionName -> In sectionName sectionKeys.
Proof.
  unfold headerOf. intros H.
  destruct (find _ sectionPatterns) as [entry|] eqn:F; [|discriminate].
  injection H as <-. apply find_some in F. destruct F as [F _].
  apply (in_map fst) in F. cbn in F. cbn. tauto.
Qed.

(** The loop files every line that counts under its section. *)
Lemma collect_labelled (lines : list string) (currentSection : string) (content : Content) :
  map fst content = sectionKeys -> In currentSection sectionKeys ->
  collect lines currentSection content
  = Ok (map (fun entry =>
               (fst entry,
                (snd entry
                   ++ linesUnder (fst entry)
                        (labelled currentSection
                           (filter (fun line => negb (String.eqb line ""))
                                   (map trim lines))))%list))
            content).
Proof.
  revert currentSection content.
  induction lines as [|line rest IH]; intros cur content K C.
  - cbn. f_equal. rewrite <- (map_id content) at 1. apply map_ext.
    intros [k v]. cbn. rewrite app_nil_r. reflexivity.
  - cbn [collect map filter]. destruct (String.eqb (trim line) "") eqn:E; cbn [negb].
    + apply IH; assumption.
    + cbn [labelled]. destruct (headerOf (trim line)) as [sectionName|] eqn:H.
      * apply IH; [exact K | apply (headerOf_key _ _ H)].
      * rewrite push_pushed; [| |rewrite K; exact C].
        2:{ rewrite K. unfold sectionKeys.
            repeat (constructor; [cbn; intuition discriminate|]). constructor. }
        cbn [bind]. rewrite IH by (rewrite ?pushed_keys; assumption).
        f_equal. unfold pushed. rewrite map_map. apply map_ext.
        intros [k v]. cbn [fst snd]. f_equal. unfold linesUnder. cbn [filter fst].
        rewrite String.eqb_sym.
        destruct (String.eqb cur k); [|reflexivity].
        cbn [map snd]. rewrite <- app_assoc. reflexivity.
Qed.

Lemma lastUnit_append (a b : string) (o : option ascii) :
  lastUnit o (a ++ b) = lastUnit (lastUnit o a) b.
Proof. revert o. induction a as [|c a IH]; intros o; [reflexivity | apply IH]. Qed.

Lemma lastUnit_nonempty (s : string) (o o' : option ascii) :
  s <> "" -> lastUnit o s = lastUnit o' s.
Proof. destruct s; [congruence | reflexivity]. Qed.

Lemma trim_solidLine (s : string) : trim s <> "" -> solidLine (trim s).
Proof.
  intros H. split; [exact H|]. unfold trim. split.
  - apply trimEnd_startsClean, trimStart_startsClean.
  - apply trimEnd_endsClean.
Qed.

Lemma join_solid (lines : list string) :
  Forall solidLine lines -> lines <> [] -> solidLine (join NL lines).
Proof.
  induction lines as [|l rest IH]; intros F N; [congruence|].
  inversion F as [|? ? [Hn [Hs He]] Frest]; subst.
  destruct rest as [|l' rest']; [cbn; repeat split; assumption|].
  change (join NL (l :: l' :: rest')) with (l ++ NL ++ join NL (l' :: rest')).
  destruct (IH Frest ltac:(discriminate)) as [Jn [Js Je]].
  split; [destruct l; [congruence | discriminate]|]. split.
  - destruct l; [congruence | exact Hs].
  - unfold endsClean, endsCleanAfter in *. rewrite !lastUnit_append.
    rewrite (lastUnit_nonempty _ _ None Jn). exact Je.
Qed.

Lemma join_trimmed (lines : list string) :
  Forall solidLine lines -> trim (join NL lines) = join NL lines.
Proof.
  intros F. destruct lines as [|l rest]; [reflexivity|].
  destruct (join_solid (l :: rest) F ltac:(discriminate)) as [_ [Js Je]].
  apply trim_clean; assumption.
Qed.

Lemma trimmedLines_solid (text : string) : Forall solidLine (trimmedLines text).
Proof.
  unfold trimmedLines. apply Forall_forall. intros l H.
  apply filter_In in H. destruct H as [H E]. apply in_map_iff in H.
  destruct H as (x & <- & _). apply trim_solidLine.
  apply negb_true_iff in E. apply String.eqb_neq in E. exact E.
Qed.

Lemma labelled_solid (lines : list string) (currentSection key : string) :
  Forall solidLine lines -> Forall solidLine (linesUnder key (labelled currentSection lines)).
Proof.
  revert currentSection. induction lines as [|l rest IH]; intros cur F; [constructor|].
  inversion F as [|? ? Hl Frest]; subst. cbn [labelled].
  destruct (headerOf l); [apply IH; exact Frest|].
  unfold linesUnder. cbn [filter fst].
  destruct (String.eqb cur key); [cbn [map snd]; constructor; [exact Hl|]|]; apply IH; exact Frest.
Qed.

Lemma extractResumeSections_labelled (text : string) :
  extractResumeSections text
  = Ok (map (fun key =>
               (key, join NL (linesUnder key (labelled "other" (trimmedLines text)))))
            sectionKeys).
Proof.
  unfold extractResumeSections.
  rewrite collect_labelled by (cbn; tauto). cbn [bind]. f_equal.
  fold (trimmedLines text). unfold emptyContent, sectionKeys. cbn [map fst snd app].
  rewrite !join_trimmed by (apply labelled_solid, trimmedLines_solid). reflexivity.
Qed.

(** X21: section extraction never throws and returns the eight sections in
    their order; the text of each is made of the non-empty trimmed lines
    that follow a header of the section (for [other]: that precede every
    header), in the order of the text and joined by line feeds, the header
    lines themselves left out. *)
Theorem extractResumeSections_sections (text : string) :
  extractResumeSections text
  = Ok (map (fun key =>
               (key, join NL (linesUnder key (labelled "other" (trimmedLines text)))))
            sectionKeys).
Proof. apply extractResumeSections_labelled. Qed.

Lemma labelled_plain (lines : list string) (currentSection : string) :
  (forall line, In line lines -> headerOf line = None) ->
  labelled currentSection lines = map (fun line => (currentSection, line)) lines.
Proof.
  induction lines as [|l rest IH]; intros H; [reflexivity|].
  cbn [labelled map]. rewrite (H l (or_introl eq_refl)). f_equal.
  apply IH. intros x Hx. apply H. right. exact Hx.
Qed.

Lemma linesUnder_same (key : string) (lines : list string) :
  linesUnder key (map (fun line => (key, line)) lines) = lines.
Proof.
  unfold linesUnder. induction lines as [|l rest IH]; [reflexivity|].
  cbn [map filter fst]. rewrite String.eqb_refl. cbn [map snd]. f_equal. exact IH.
Qed.

Lemma linesUnder_other (key key' : string) (lines : list string) :
  String.eqb key' key = false ->
  linesUnder key (map (fun line => (key', line)) lines) = [].
Proof.
  intros E. unfold linesUnder. induction lines as [|l rest IH]; [reflexivity|].
  cbn [map filter fst]. rewrite E. exact IH.
Qed.

(** X22: a text without header lines is filed under [other] as a whole:
    its non-empty trimmed lines, joined by line feeds; the seven named
    sections are empty. *)
Theorem extractResumeSections_plain (text : string) :
  (forall line, In line (trimmedLines text) -> headerOf line = None) ->
  extractResumeSections text
  = Ok [("contact", ""); ("summary", ""); ("experience", ""); ("education", "");
        ("skills", ""); ("projects", ""); ("certifications", "");
        ("other", join NL (trimmedLines text))].
Proof.
  intros H. rewrite extractResumeSections_labelled, (labelled_plain _ _ H).
  unfold sectionKeys. cbn [map].
  rewrite linesUnder_same, !linesUnder_other by reflexivity. reflexivity.
Qed.

Lemma extractResumeSections_plain_witness :
  extractResumeSections plainNotes
  = Ok [("contact", ""); ("summary", ""); ("experience", ""); ("education", "");
        ("skills", ""); ("projects", ""); ("certifications", "");
        ("other", "Jane Doe" ++ NL ++ "Skills: Python, SQL" ++ NL ++ "Five years at Acme")].
Proof.
  apply (extractResumeSections_plain plainNotes).
  intros line H. cbn in H.
  repeat (destruct H as [<- | H]; [reflexivity|]). contradiction.
Defined.

Example extractResumeSections_sample :
  extractResumeSections sampleResume
  = Ok [("contact", ""); ("summary", "Engineer."); ("experience", "Acme 2019");
        ("education", ""); ("skills", "Python" ++ NL ++ "skills are great");
        ("projects", ""); ("certifications", "AWS" ++ NL ++ "PMP");
        ("other", "Jane Doe" ++ NL ++ "jane@example.com")].
Proof. vm_compute. reflexivity. Qed.

(** *** Headers whatever the letter case *)

Lemma lowerLetter_facts (c : ascii) :
  lowerChar (lowerLetter c) = lowerChar c /\
  isSpace (lowerLetter c) = isSpace c /\
  isLineTerminator (lowerLetter c) = isLineTerminator c /\
  Ascii.eqb (lowerLetter c) ":" = Ascii.eqb c ":".
Proof. destruct c as [[] [] [] [] [] [] [] []]; repeat split; reflexivity. Qed.

Lemma sameLetter_lowerLetter (c p : ascii) : sameLetter (lowerLetter c) p = sameLetter c p.
Proof. unfold sameLetter. destruct (lowerLetter_facts c) as [-> _]. reflexivity. Qed.

Lemma isSpace_lowerLetter (c : ascii) : isSpace (lowerLetter c) = isSpace c.
Proof. apply lowerLetter_facts. Qed.

Lemma afterWord_lowerLetters (w s : string) :
  afterWord w (lowerLetters s) = option_map lowerLetters (afterWord w s).
Proof.
  revert s. induction w as [|p w IH]; intros s; [reflexivity|].
  destruct s as [|c s]; [reflexivity|]. cbn [lowerLetters afterWord].
  rewrite sameLetter_lowerLetter. destruct (sameLetter c p); [apply IH | reflexivity].
Qed.

Lemma afterSpaces_lowerLetters (s : string) :
  afterSpaces (lowerLetters s) = map lowerLetters (afterSpaces s).
Proof.
  induction s as [|c r IH]; [reflexivity|]. cbn [lowerLetters afterSpaces].
  rewrite isSpace_lowerLetter. destruct (isSpace c); [|reflexivity].
  rewrite IH, map_app. reflexivity.
Qed.

Lemma afterToken_lowerLetters (t : Token) (s : string) :
  afterToken t (lowerLetters s) = map lowerLetters (afterToken t s).
Proof.
  destruct t as [w| |p]; cbn [afterToken].
  - rewrite afterWord_lowerLetters. destruct (afterWord w s); reflexivity.
  - apply afterSpaces_lowerLetters.
  - destruct s as [|c r]; [reflexivity|]. cbn [lowerLetters].
    rewrite sameLetter_lowerLetter. destruct (sameLetter c p); reflexivity.
Qed.

Lemma afterTokens_lowerLetters (tokens : list Token) (s : string) :
  afterTokens tokens (lowerLetters s) = map lowerLetters (afterTokens tokens s).
Proof.
  revert s. induction tokens as [|t rest IH]; intros s; [reflexivity|].
  cbn [afterTokens]. rewrite afterToken_lowerLetters.
  induction (afterToken t s) as [|x l IHl]; [reflexivity|].
  cbn [map flat_map]. rewrite IH, IHl, map_app. reflexivity.
Qed.

Lemma toLineEnd_lowerLetters (s : string) : toLineEnd (lowerLetters s) = toLineEnd s.
Proof.
  induction s as [|c r IH]; [reflexivity|]. cbn [lowerLetters toLineEnd].
  destruct (lowerLetter_facts c) as (_ & -> & -> & ->). rewrite IH. reflexivity.
Qed.

Lemma headerAt_lowerLetters (alternatives : Pattern) (prev prev' : option ascii) (s : string) :
  atLineStart prev' = atLineStart prev ->
  headerAt alternatives prev' (lowerLetters s) = headerAt alternatives prev s.
Proof.
  intros P. unfold headerAt. rewrite P. f_equal.
  induction alternatives as [|tokens rest IH]; [reflexivity|].
  cbn [existsb]. rewrite IH. f_equal.
  rewrite afterTokens_lowerLetters.
  induction (afterTokens tokens s) as [|x l IHl]; [reflexivity|].
  cbn [map existsb]. rewrite toLineEnd_lowerLetters, IHl. reflexivity.
Qed.

Lemma testPatternFrom_lowerLetters (alternatives : Pattern) (s : string)
    (prev prev' : option ascii) :
  atLineStart prev' = atLineStart prev ->
  testPatternFrom alternatives prev' (lowerLetters s) = testPatternFrom alternatives prev s.
Proof.
  revert prev prev'. induction s as [|c r IH]; intros prev prev' P.
  - cbn [lowerLetters testPatternFrom]. rewrite (headerAt_lowerLetters _ prev prev' "" P).
    reflexivity.
  - cbn [lowerLetters testPatternFrom].
    change (String (lowerLetter c) (lowerLetters r)) with (lowerLetters (String c r)).
    rewrite (headerAt_lowerLetters _ prev prev' _ P). f_equal.
    apply IH. cbn [atLineStart]. apply lowerLetter_facts.
Qed.

Lemma find_pointwise {A : Type} (f g : A -> bool) (l : list A) :
  (forall x, f x = g x) -> find f l = find g l.
Proof.
  intros H. induction l as [|x l IH]; [reflexivity|]. cbn. rewrite H, IH. reflexivity.
Qed.

Lemma headerOf_lowerLetters (line : string) : headerOf (lowerLetters line) = headerOf line.
Proof.
  unfold headerOf. f_equal. apply find_pointwise. intros entry.
  apply testPatternFrom_lowerLetters. reflexivity.
Qed.

(** X23: whether a line is a header, and of which section, does not depend
    on the case of its ASCII letters: two lines that differ only in the
    case of letters A-Z are headers of the same section, or both none. *)
Theorem headerOf_caseInsensitive (a b : string) :
  lowerLetters a = lowerLetters b -> headerOf a = headerOf b.
Proof.
  intros H. rewrite <- (headerOf_lowerLetters a), <- (headerOf_lowerLetters b), H.
  reflexivity.
Qed.

Lemma headerOf_caseInsensitive_witness :
  headerOf "WORK EXPERIENCE:" = Some "experience" /\
  headerOf "Work Experience:" = headerOf "WORK EXPERIENCE:".
Proof. split; [reflexivity|]. apply headerOf_caseInsensitive. reflexivity. Defined.

(** ** PDF parsing and the route [POST /api/parse-pdf] *)

Lemma errorMessageOf_known (error : Thrown) : In (errorMessageOf error) parseMessages.
Proof.
  destruct error as [message|]; cbn [errorMessageOf].
  - destruct (includes message "Invalid PDF"); [cbn; tauto|].
    destruct (includes message "password"); [cbn; tauto|].
    destruct (includes message "corrupted"); cbn; tauto.
  - cbn. tauto.
Qed.

Lemma blank_text (data : PdfData) :
  String.eqb (dataText data) "" || Nat.eqb (String.length (trim (dataText data))) 0
  = negb (hasText data).
Proof.
  unfold hasText. rewrite negb_involutive.
  destruct (dataText data); [reflexivity|]. cbn [String.eqb orb]. reflexivity.
Qed.

(** The parser returns in every case: a parse of the library's data, or a
    failure with one of the six messages. *)
Lemma parsePDFBuffer_cases (pdfParseModule : Outcome (Buffer -> Outcome PdfData))
    (buffer : Buffer) :
  (exists pdfParse data,
     pdfParseModule = Returned pdfParse /\ buffer <> [] /\
     pdfParse buffer = Returned data /\ hasText data = true /\
     parsePDFBuffer pdfParseModule buffer = Returned (parsed data)) \/
  (exists message,
     In message parseMessages /\
     parsePDFBuffer pdfParseModule buffer = Returned (failed message) /\
     forall pdfParse data,
       pdfParseModule = Returned pdfParse -> pdfParse buffer = Returned data ->
       buffer = [] \/ hasText data = false).
Proof.
  unfold parsePDFBuffer.
  destruct pdfParseModule as [pdfParse|t]; cbn [andThen catching].
  - destruct buffer as [|b buffer'].
    + right. eexists. split; [|split; [reflexivity | intros; left; reflexivity]].
      cbn. tauto.
    + cbn [List.length Nat.eqb].
      destruct (pdfParse (b :: buffer')) as [data|t] eqn:P; cbn [andThen catching].
      * rewrite blank_text. destruct (hasText data) eqn:T; cbn [negb].
        -- left. exists pdfParse, data. repeat split; try assumption. discriminate.
        -- right. eexists. split; [|split; [reflexivity|]]; [cbn; tauto|].
           intros f d [= <-] Q. rewrite P in Q. injection Q as <-. right. exact T.
      * right. exists (errorMessageOf t).
        split; [apply errorMessageOf_known|]. split; [reflexivity|].
        intros f d [= <-] Q. rewrite P in Q. discriminate.
  - right. exists (errorMessageOf t).
    split; [apply errorMessageOf_known|]. split; [reflexivity|]. intros f d Q. discriminate.
Qed.

Lemma hasText_trimmed (data : PdfData) :
  hasText data = true ->
  trim (dataText data) <> "" /\ trim (trim (dataText data)) = trim (dataText data).
Proof.
  unfold hasText. intros H. apply negb_true_iff in H. apply Nat.eqb_neq in H.
  split; [intros E; rewrite E in H; apply H; reflexivity | apply trim_idempotent].
Qed.

(** X24: [parsePDFBuffer] never throws, whatever the library does.  A
    result that succeeds carries a text that is not empty and is trimmed,
    and no error; one that fails carries no text and no metadata, and one of
    six fixed messages: the library's own message is never handed on. *)
Theorem parsePDFBuffer_returns (pdfParseModule : Outcome (Buffer -> Outcome PdfData))
    (buffer : Buffer) :
  exists result,
    parsePDFBuffer pdfParseModule buffer = Returned result /\
    ((success result = true /\ parseError result = None /\
      exists t, text result = Some t /\ t <> "" /\ trim t = t) \/
     (success result = false /\ text result = None /\ metadata result = None /\
      exists message, parseError result = Some message /\ In message parseMessages)).
Proof.
  destruct (parsePDFBuffer_cases pdfParseModule buffer)
    as [(f & data & _ & _ & _ & T & E) | (message & M & E & _)]; rewrite E; eexists;
    (split; [reflexivity|]).
  - left. split; [reflexivity|]. split; [reflexivity|].
    exists (trim (dataText data)). split; [reflexivity|]. apply hasText_trimmed. exact T.
  - right. repeat split. exists message. split; [reflexivity | exact M].
Qed.

(** X25: [parsePDFBuffer] succeeds exactly when the library loads, the
    buffer is not empty and the library returns a text that is not blank;
    the result then carries that text, trimmed, with the library's page
    count and document information. *)
Theorem parsePDFBuffer_succeeds (pdfParseModule : Outcome (Buffer -> Outcome PdfData))
    (buffer : Buffer) (result : PDFParseResult) :
  parsePDFBuffer pdfParseModule buffer = Returned result ->
  (success result = true <->
   exists pdfParse data,
     pdfParseModule = Returned pdfParse /\ buffer <> [] /\
     pdfParse buffer = Returned data /\ hasText data = true) /\
  (forall pdfParse data,
     pdfParseModule = Returned pdfParse -> pdfParse buffer = Returned data ->
     success result = true -> result = parsed data).
Proof.
  intros E.
  destruct (parsePDFBuffer_cases pdfParseModule buffer)
    as [(f & data & M & B & P & T & E') | (message & _ & E' & N)];
    rewrite E' in E; injection E as <-.
  - split.
    + split; [intros _; exists f, data; auto | reflexivity].
    + intros f' d' M' Q _. rewrite M in M'. injection M' as <-.
      rewrite P in Q. injection Q as <-. reflexivity.
  - split.
    + split; [discriminate|]. intros (f & d & M & B & P & T).
      destruct (N f d M P) as [X|X]; congruence.
    + intros f d _ _ X. discriminate X.
Qed.

Lemma parsePDFBuffer_succeeds_witness :
  success {| success := true; text := Some ("Jane Doe" ++ NL ++ "Engineer");
             parseError := None;
             metadata := Some {| pages := num 2; metadataInfo := JNull |} |} = true <->
  exists pdfParse data,
    twoPages = Returned pdfParse /\ pdfMagic <> [] /\
    pdfParse pdfMagic = Returned data /\ hasText data = true.
Proof.
  apply (parsePDFBuffer_succeeds twoPages pdfMagic). reflexivity.
Defined.

(** a buffer that is refused is refused with an error *)
Lemma validatePDFFile_refuses (buffer : Buffer) (maxSizeMB : Q) :
  valid (validatePDFFile buffer maxSizeMB) = false ->
  exists e, error (validatePDFFile buffer maxSizeMB) = Some e.
Proof.
  unfold validatePDFFile.
  destruct (Nat.eqb (List.length buffer) 0); [intros _; eexists; reflexivity|].
  destruct (negb (Qle_bool _ maxSizeMB)); [intros _; eexists; reflexivity|].
  destruct (negb (startsWith _ "%PDF-")); [intros _; eexists; reflexivity|].
  discriminate.
Qed.

Section RouteFacts.
Variable pdfParseModule : Outcome (Buffer -> Outcome PdfData).
Variable fromBase64 : string -> Buffer.
Variable destructuringMessage : JsValue -> string.

Local Abbreviation post := (POST pdfParseModule fromBase64 destructuringMessage).

(** X26: the route answers every request: with status 200 and a text,
    or with status 400 or 500 and an error in place of the text; the error
    of a 500 is a message, and 500 is answered only when the request body
    could not be read or is [null]. *)
Theorem POST_answers (requestJson : Outcome JsValue) :
  exists response,
    post requestJson = Returned response /\
    ((status response = 200 /\
      exists cleanedText filename meta,
        body response = Succeeded cleanedText filename meta) \/
     (status response = 400 /\ exists error, body response = Refused (Some error)) \/
     (status response = 500 /\
      (exists message, body response = Refused (Some (Message message))) /\
      ((exists thrown, requestJson = Raised thrown) \/
       (exists json, requestJson = Returned json /\ nullish json = true)))).
Proof.
  unfold POST. destruct requestJson as [json|thrown]; cbn [andThen catching].
  2:{ eexists. split; [reflexivity|]. right. right. cbn.
      split; [reflexivity|]. split; [eexists; reflexivity|]. left. eexists. reflexivity. }
  destruct (nullish json) eqn:N; cbn [andThen catching].
  { eexists. split; [reflexivity|]. right. right. cbn.
    split; [reflexivity|]. split; [eexists; reflexivity|]. right. exists json. auto. }
  assert (R : forall error : RouteError,
            exists response,
              Returned {| status := 400; body := Refused (Some error) |}
              = Returned response /\
              ((status response = 200 /\
                exists cleanedText filename meta,
                  body response = Succeeded cleanedText filename meta) \/
               (status response = 400 /\
                exists e, body response = Refused (Some e)) \/
               (status response = 500 /\
                (exists message, body response = Refused (Some (Message message))) /\
                ((exists thrown, @Returned JsValue json = Raised thrown) \/
                 (exists json', Returned json = Returned json' /\ nullish json' = true))))).
  { intros error. eexists. split; [reflexivity|]. right. left. cbn.
    split; [reflexivity | eexists; reflexivity]. }
  destruct (truthy (field json "fileData")); cbn [negb]; [|apply R].
  destruct (field json "fileData") as [| |b|n|data|items|props]; try apply R.
  destruct (valid (validatePDFFile _ _)) eqn:V; cbn [negb].
  2:{ destruct (validatePDFFile_refuses _ _ V) as [e ->]. apply R. }
  destruct (parsePDFBuffer_cases pdfParseModule (fromBase64 (stripDataPrefix data)))
    as [(f & d & _ & _ & _ & _ & E) | (message & _ & E & _)]; rewrite E;
    cbn [andThen catching success parsed failed negb parseError option_map]; [|apply R].
  match goal with
  | |- context [if ?c then _ else _] => destruct c
  end; [apply R|].
  eexists. split; [reflexivity|]. left. cbn. split; [reflexivity|].
  do 3 eexists. reflexivity.
Qed.

(** X27: a text the route hands out is the normalized form of what the
    library extracted from a buffer that passed the validation; it has at
    least 50 characters, all of them printable ASCII or line feeds, and is
    trimmed. *)
Theorem POST_succeeds (requestJson : Outcome JsValue) (code : nat) (cleanedText : string)
    (filename : JsValue) (meta : option Metadata) :
  post requestJson
  = Returned {| status := code; body := Succeeded cleanedText filename meta |} ->
  code = 200 /\
  50 <= String.length cleanedText /\
  printableText cleanedText = true /\
  trim cleanedText = cleanedText /\
  exists json fileData pdfParse data,
    requestJson = Returned json /\
    field json "fileData" = JString fileData /\
    valid (validatePDFFile (fromBase64 (stripDataPrefix fileData)) (inject_Z 10)) = true /\
    pdfParseModule = Returned pdfParse /\
    pdfParse (fromBase64 (stripDataPrefix fileData)) = Returned data /\
    cleanedText = cleanExtractedText (trim (dataText data)).
Proof.
  unfold POST. destruct requestJson as [json|thrown]; cbn [andThen catching];
    [|discriminate].
  destruct (nullish json) eqn:N; cbn [andThen catching]; [discriminate|].
  destruct (truthy (field json "fileData")); cbn [negb]; [|discriminate].
  destruct (field json "fileData") as [| |b|n|fileData|items|props] eqn:F; try discriminate.
  destruct (valid (validatePDFFile _ _)) eqn:V; cbn [negb]; [|discriminate].
  destruct (parsePDFBuffer_cases pdfParseModule (fromBase64 (stripDataPrefix fileData)))
    as [(f & d & M & _ & P & T & E) | (message & _ & E & _)]; rewrite E;
    cbn [andThen catching success parsed failed negb text]; [|discriminate].
  destruct (hasText_trimmed d T) as [Tn _]. apply String.eqb_neq in Tn. rewrite Tn.
  destruct (String.eqb (cleanExtractedText (trim (dataText d))) ""
            || Nat.ltb (String.length (cleanExtractedText (trim (dataText d)))) 50) eqn:L;
    [discriminate|].
  intros [= <- <- _ _]. apply orb_false_elim in L. destruct L as [_ L].
  apply Nat.ltb_ge in L.
  split; [reflexivity|]. split; [exact L|].
  split; [apply cleanExtractedText_printableText|].
  split; [destruct (cleanExtractedText_ends (trim (dataText d))); apply trim_clean; assumption|].
  exists json, fileData, f, d. repeat split; assumption.
Qed.
End RouteFacts.

Lemma POST_succeeds_witness :
  POST oneParagraph (fun _ => pdfMagic) (fun _ => "") (Returned sampleUpload)
  = Returned {| status := 200;
                body := Succeeded sampleCleaned (JString "cv.pdf")
                          (Some {| pages := num 1; metadataInfo := JNull |}) |} /\
  50 <= String.length sampleCleaned /\
  printableText sampleCleaned = true /\
  trim sampleCleaned = sampleCleaned.
Proof.
  split; [reflexivity|].
  destruct (POST_succeeds oneParagraph (fun _ => pdfMagic) (fun _ => "")
              (Returned sampleUpload) 200 sampleCleaned (JString "cv.pdf")
              (Some {| pages := num 1; metadataInfo := JNull |}) eq_refl)
    as (_ & A & B & C & _).
  repeat split; assumption.
Defined.

Lemma append_one_neq {A : Type} (l : list A) (x : A) : (l ++ [x])%list <> l.
Proof.
  intros H. apply (f_equal (@List.length A)) in H. rewrite length_app in H. cbn in H. lia.
Qed.

Section AnalyzeRouteFacts.
Variable NumberToString : JsNum -> string.
Variable StringToNumber : string -> JsNum.
Variable OPENAI_API_KEY : option string.
Variable RESUME_ANALYSIS_SYSTEM_PROMPT : string.
Variable ANALYSIS_INSTRUCTIONS : string.
Variable chatCompletion : string -> string -> Result (option string).
Variable JSON_parse : string -> Result JsValue.
Variable destructuringMessage : JsValue -> string.
Variable notAFunction : string -> string.
Variable processingTime : JsNum.
Variable reparse : Outcome (option JsValue).

Local Abbreviation analyzeResume' :=
  (analyzeResume NumberToString StringToNumber OPENAI_API_KEY RESUME_ANALYSIS_SYSTEM_PROMPT
     ANALYSIS_INSTRUCTIONS chatCompletion JSON_parse notAFunction).
Local Abbreviation analyze :=
  (AnalyzeRoute.analyze NumberToString StringToNumber OPENAI_API_KEY
     RESUME_ANALYSIS_SYSTEM_PROMPT ANALYSIS_INSTRUCTIONS chatCompletion JSON_parse
     notAFunction).
Local Abbreviation attempt :=
  (AnalyzeRoute.attempt NumberToString StringToNumber OPENAI_API_KEY
     RESUME_ANALYSIS_SYSTEM_PROMPT ANALYSIS_INSTRUCTIONS chatCompletion JSON_parse
     destructuringMessage notAFunction processingTime reparse).
Local Abbreviation post :=
  (AnalyzeRoute.POST NumberToString StringToNumber OPENAI_API_KEY
     RESUME_ANALYSIS_SYSTEM_PROMPT ANALYSIS_INSTRUCTIONS chatCompletion JSON_parse
     destructuringMessage notAFunction processingTime reparse).
Local Abbreviation prompt := (createResumeAnalysisPrompt ANALYSIS_INSTRUCTIONS).

(** [analyzeResume] sends nothing and rejects, or sends its one request,
    and this only for a text and a role it accepts and with a key *)
Lemma analyzeResume_sends (resumeInput : ResumeInput) (jobRole : string)
    (jobDescription : option string) (sent : Trace) :
  (snd (analyzeResume' resumeInput jobRole jobDescription sent) = sent /\
   exists e, fst (analyzeResume' resumeInput jobRole jobDescription sent) = Throw e) \/
  (snd (analyzeResume' resumeInput jobRole jobDescription sent)
   = (sent ++ [(RESUME_ANALYSIS_SYSTEM_PROMPT,
                prompt (content resumeInput) jobRole jobDescription)])%list /\
   100 <= String.length (trim (content resumeInput)) /\
   0 < String.length (trim jobRole) /\
   validateOpenAIKey OPENAI_API_KEY = true).
Proof.
  unfold analyzeResume, tryCatch, callOpenAI, await, tryCatch, request, reject,
    settle, resolve.
  destruct (String.eqb (content resumeInput) ""
            || Nat.ltb (String.length (trim (content resumeInput))) 100) eqn:E1;
    [left; split; [reflexivity | eexists; reflexivity]|].
  destruct (String.eqb jobRole "" || Nat.eqb (String.length (trim jobRole)) 0) eqn:E2;
    [left; split; [reflexivity | eexists; reflexivity]|].
  destruct (validateOpenAIKey OPENAI_API_KEY) eqn:E3; cbn [negb];
    [|left; split; [reflexivity | eexists; reflexivity]].
  apply orb_false_elim in E1. destruct E1 as [_ E1]. apply Nat.ltb_ge in E1.
  apply orb_false_elim in E2. destruct E2 as [_ E2]. apply Nat.eqb_neq in E2.
  right.
  assert (G : 100 <= String.length (trim (content resumeInput)) /\
              0 < String.length (trim jobRole) /\ true = true)
    by (repeat split; [exact E1 | lia]).
  destruct (chatCompletion _ _) as [[r|]|e0]; cbn; try (split; [reflexivity | exact G]).
  destruct (String.eqb r ""); cbn; [split; [reflexivity | exact G]|].
  destruct (JSON_parse r) as [v|e0]; cbn; [|split; [reflexivity | exact G]].
  destruct (validateAndStructureAnalysis _ _ v) as [a|e0]; cbn;
    [|split; [reflexivity | exact G]].
  destruct (enhanceAnalysisWithJobInsights _ a jobRole) as [a'|e0]; cbn;
    split; try reflexivity; exact G.
Qed.

(** the same of [analyze], as the route awaits it *)
Lemma analyze_sends (resumeInput : ResumeInput) (jobRole : string)
    (jobDescription : option string) (sent : Trace) :
  (snd (analyze resumeInput jobRole jobDescription sent) = sent /\
   exists message,
     fst (analyze resumeInput jobRole jobDescription sent) = Raised (AnError message)) \/
  (snd (analyze resumeInput jobRole jobDescription sent)
   = (sent ++ [(RESUME_ANALYSIS_SYSTEM_PROMPT,
                prompt (content resumeInput) jobRole jobDescription)])%list /\
   100 <= String.length (trim (content resumeInput)) /\
   0 < String.length (trim jobRole) /\
   validateOpenAIKey OPENAI_API_KEY = true /\
   forall t, fst (analyze resumeInput jobRole jobDescription sent) = Raised t ->
             exists message, t = AnError message).
Proof.
  unfold AnalyzeRoute.analyze.
  destruct (analyzeResume_sends resumeInput jobRole jobDescription sent)
    as [[A [e B]]|[A [B [C D]]]].
  - left. destruct (analyzeResume' resumeInput jobRole jobDescription sent) as [[a|e'] tr].
    + discriminate B.
    + cbn in *. split; [exact A | eexists; reflexivity].
  - right. destruct (analyzeResume' resumeInput jobRole jobDescription sent) as [[a|e'] tr];
      cbn in *; repeat split; auto.
    + discriminate.
    + intros t [= <-]. eexists. reflexivity.
Qed.

(** what the [try] block does: it answers or throws without a request,
    or hands a request that passed every check to [analyzeResume] *)
Lemma attempt_cases (requestJson : Outcome JsValue) (sent : Trace) :
  (snd (attempt requestJson sent) = sent /\
   match fst (attempt requestJson sent) with
   | Returned response =>
       (AnalyzeRoute.statusCode response = 400 \/ AnalyzeRoute.statusCode response = 503) /\
       (exists error, AnalyzeRoute.answer response = AnalyzeRoute.Rejected error None) /\
       (AnalyzeRoute.statusCode response = 503 <-> validateOpenAIKey OPENAI_API_KEY = false)
   | Raised _ => validateOpenAIKey OPENAI_API_KEY = true
   end) \/
  (exists json content role final jobDescription,
     validateOpenAIKey OPENAI_API_KEY = true /\
     requestJson = Returned json /\
     field (field json "resume") "content" = JString content /\
     100 <= String.length (trim content) /\
     field json "jobRole" = JString role /\
     0 < String.length (trim role) /\
     AnalyzeRoute.finalResumeContent reparse (field json "resume") content = JString final /\
     (20 <= generateQuickScore final)%Z /\
     ((nullish (field json "jobDescription") = true /\ jobDescription = None) \/
      (exists description,
         field json "jobDescription" = JString description /\
         jobDescription = Some (trim description))) /\
     attempt requestJson sent
     = match analyze (AnalyzeRoute.structuredResume (field json "resume") final)
               (trim role) jobDescription sent with
       | (Returned analysis, sent') =>
           (Returned {| AnalyzeRoute.statusCode := 200;
                        AnalyzeRoute.answer :=
                          AnalyzeRoute.Analyzed analysis processingTime |}, sent')
       | (Raised t, sent') => (Raised t, sent')
       end).
Proof.
  unfold AnalyzeRoute.attempt.
  destruct (validateOpenAIKey OPENAI_API_KEY) eqn:Hk; cbn [negb].
  2:{ left. cbn. split; [reflexivity|].
      split; [right; reflexivity|]. split; [eexists; reflexivity | tauto]. }
  assert (Q : forall error,
            snd (AnalyzeRoute.answered 400 error sent) = sent /\
            match fst (AnalyzeRoute.answered 400 error sent) with
            | Returned response =>
                (AnalyzeRoute.statusCode response = 400 \/
                 AnalyzeRoute.statusCode response = 503) /\
                (exists error, AnalyzeRoute.answer response = AnalyzeRoute.Rejected error None) /\
                (AnalyzeRoute.statusCode response = 503 <-> true = false)
            | Raised _ => true = true
            end).
  { intros error. cbn. split; [reflexivity|]. split; [left; reflexivity|].
    split; [eexists; reflexivity|]. split; discriminate. }
  assert (T : forall message,
            snd (@AnalyzeRoute.thrown AnalyzeRoute.AnalysisResponse message sent) = sent /\
            match fst (@AnalyzeRoute.thrown AnalyzeRoute.AnalysisResponse message sent) with
            | Returned response =>
                (AnalyzeRoute.statusCode response = 400 \/
                 AnalyzeRoute.statusCode response = 503) /\
                (exists error, AnalyzeRoute.answer response = AnalyzeRoute.Rejected error None) /\
                (AnalyzeRoute.statusCode response = 503 <-> true = false)
            | Raised _ => true = true
            end).
  { intros message. cbn. split; reflexivity. }
  destruct requestJson as [json|t]; [|left; cbn; split; reflexivity].
  destruct (nullish json) eqn:Hn; [left; apply T|].
  destruct (negb (truthy (field json "resume"))
            || negb (truthy (field (field json "resume") "content"))); [left; apply Q|].
  destruct (negb (truthy (field json "jobRole"))); [left; apply Q|].
  destruct (field json "jobRole") as [| |b|n|role|items|props] eqn:Hr; try (left; apply T).
  destruct (Nat.eqb_spec (String.length (trim role)) 0) as [Hz|Hz]; [left; apply Q|].
  destruct (field (field json "resume") "content") as [| |b|n|content|items|props] eqn:Hc;
    try (left; apply T).
  destruct (Nat.ltb_spec (String.length (trim content)) 100) as [Hl|Hl]; [left; apply Q|].
  destruct (AnalyzeRoute.finalResumeContent reparse (field json "resume") content)
    as [| |b|n|final|items|props] eqn:Hf; try (left; apply T).
  destruct (Z.ltb_spec (generateQuickScore final) 20) as [Hq|Hq]; [left; apply Q|].
  destruct (field json "jobDescription") as [| |b|n|description|items|props] eqn:Hd;
    try (left; apply T); right.
  - exists json, content, role, final, None.
    repeat split; auto; try lia. rewrite Hd. left. split; reflexivity.
  - exists json, content, role, final, None.
    repeat split; auto; try lia. rewrite Hd. left. split; reflexivity.
  - exists json, content, role, final, (Some (trim description)).
    repeat split; auto; try lia. rewrite Hd. right. exists description. split; reflexivity.
Qed.

(** X29: the route answers with one of five statuses; with 200 exactly
    when it hands out an analysis, and then exactly one request went to
    the service; without a configured key it answers 503 and sends
    nothing, whatever the request. *)
Theorem analyze_POST_statuses (requestJson : Outcome JsValue) (sent : Trace) :
  let response := fst (post requestJson sent) in
  let sent' := snd (post requestJson sent) in
  In (AnalyzeRoute.statusCode response) [200; 400; 429; 500; 503] /\
  (AnalyzeRoute.statusCode response = 200 <->
   exists analysis,
     AnalyzeRoute.answer response = AnalyzeRoute.Analyzed analysis processingTime) /\
  (AnalyzeRoute.statusCode response = 200 -> exists request, sent' = (sent ++ [request])%list) /\
  (validateOpenAIKey OPENAI_API_KEY = false ->
   AnalyzeRoute.statusCode response = 503 /\ sent' = sent).
Proof.
  cbv zeta. unfold AnalyzeRoute.POST.
  assert (S : forall message,
            In (statusCodeOf message) [200; 400; 429; 500; 503] /\
            statusCodeOf message <> 200 /\
            (validateOpenAIKey OPENAI_API_KEY = true -> True)).
  { intros message. unfold statusCodeOf.
    destruct (includes message "API key"); [cbn; intuition discriminate|].
    destruct (includes message "too short" || includes message "required");
      [cbn; intuition discriminate|].
    destruct (includes message "timeout" || includes message "rate limit");
      cbn; intuition discriminate. }
  destruct (attempt_cases requestJson sent) as [[A B]|C].
  - destruct (attempt requestJson sent) as [[response|[message|]] tr]; cbn in *.
    + destruct B as [B1 [[error B2] B3]]. rewrite B2.
      split; [destruct B1 as [->| ->]; cbn; tauto|].
      split; [split; [intros H; destruct B1 as [B1|B1]; rewrite B1 in H; discriminate
                     | intros [a H]; discriminate]|].
      split; [intros H; destruct B1 as [B1|B1]; rewrite B1 in H; discriminate|].
      intros Hk. split; [apply B3; exact Hk | exact A].
    + destruct (S message) as [S1 [S2 _]].
      split; [exact S1|]. split; [split; [tauto | intros [a H]; discriminate]|].
      split; [tauto|]. intros Hk. rewrite Hk in B. discriminate.
    + split; [tauto|]. split; [split; [discriminate | intros [a H]; discriminate]|].
      split; [discriminate|]. intros Hk. rewrite Hk in B. discriminate.
  - destruct C as (json & content & role & final & jd & Hk & _ & _ & _ & _ & _ & _ & _ & _ & E).
    rewrite E.
    destruct (analyze_sends (AnalyzeRoute.structuredResume (field json "resume") final)
                (trim role) jd sent) as [[A [m B]]|[A [_ [_ [_ B]]]]].
    + destruct (analyze _ _ _ sent) as [[a|t] tr]; cbn in *; [discriminate|].
      injection B as ->. destruct (S m) as [S1 [S2 _]].
      split; [exact S1|]. split; [split; [tauto | intros [a H]; discriminate]|].
      split; [tauto|]. intros Hk'. rewrite Hk' in Hk. discriminate.
    + destruct (analyze _ _ _ sent) as [[a|t] tr]; cbn in *.
      * split; [tauto|]. split; [split; [eexists; reflexivity | reflexivity]|].
        split; [intros _; eexists; exact A|]. intros Hk'. rewrite Hk' in Hk. discriminate.
      * destruct (B t eq_refl) as [m ->]. cbn. destruct (S m) as [S1 [S2 _]].
        split; [exact S1|]. split; [split; [tauto | intros [a H]; discriminate]|].
        split; [tauto|]. intros Hk'. rewrite Hk' in Hk. discriminate.
Qed.

(** X30: the route sends a request to the service only with a
    configured key and for a body with a content of at least 100 trimmed
    characters and a role that is not blank, when the text it settled on
    is a string of at least 100 trimmed characters whose quick score is at
    least 20; the one request then carries that text and the trimmed role
    and description. *)
Theorem analyze_POST_gate (requestJson : Outcome JsValue) (sent : Trace) :
  snd (post requestJson sent) <> sent ->
  validateOpenAIKey OPENAI_API_KEY = true /\
  exists json content role final jobDescription,
    requestJson = Returned json /\
    field (field json "resume") "content" = JString content /\
    100 <= String.length (trim content) /\
    field json "jobRole" = JString role /\
    0 < String.length (trim role) /\
    AnalyzeRoute.finalResumeContent reparse (field json "resume") content = JString final /\
    100 <= String.length (trim final) /\
    (20 <= generateQuickScore final)%Z /\
    ((nullish (field json "jobDescription") = true /\ jobDescription = None) \/
     (exists description,
        field json "jobDescription" = JString description /\
        jobDescription = Some (trim description))) /\
    snd (post requestJson sent)
    = (sent ++ [(RESUME_ANALYSIS_SYSTEM_PROMPT,
                 prompt final (trim role) jobDescription)])%list.
Proof.
  unfold AnalyzeRoute.POST. intros H.
  destruct (attempt_cases requestJson sent) as [[A B]|C].
  - exfalso. apply H.
    destruct (attempt requestJson sent) as [[response|[message|]] tr]; exact A.
  - destruct C as (json & body & role & final & jd & Hk & Hj & Hc & Hl & Hr & Hz & Hf
                   & Hq & Hd & E).
    split; [exact Hk|]. exists json, body, role, final, jd.
    rewrite E in H |- *.
    destruct (analyze_sends (AnalyzeRoute.structuredResume (field json "resume") final)
                (trim role) jd sent) as [[A [m B]]|[A [L _]]].
    + exfalso. apply H.
      destruct (analyze _ _ _ sent) as [[a|[message|]] tr]; exact A.
    + cbn [AnalyzeRoute.structuredResume content] in A, L.
      repeat split; auto.
      destruct (analyze _ _ _ sent) as [[a|[message|]] tr]; exact A.
Qed.
End AnalyzeRouteFacts.

Lemma analyze_POST_gate_witness :
  exists final jobDescription,
    (20 <= generateQuickScore final)%Z /\
    100 <= String.length (trim final) /\
    snd (AnalyzeRoute.POST noNumberToString noStringToNumber (Some "sk-test") "system"
           "instructions" emptyObject (fun _ => Ok (JObject [])) (fun _ => "") (fun _ => "")
           NaN (Raised NotAnError) (Returned completeRequest) [])
    = [("system", createResumeAnalysisPrompt "instructions" final "Astronaut" jobDescription)].
Proof.
  destruct (analyze_POST_gate noNumberToString noStringToNumber (Some "sk-test") "system"
              "instructions" emptyObject (fun _ => Ok (JObject [])) (fun _ => "")
              (fun _ => "") NaN (Raised NotAnError) (Returned completeRequest) [])
    as [_ (json & body & role & final & jd & Hj & Hc & Hl & Hr & Hz & Hf & Hl' & Hq & Hd & E)].
  - vm_compute. discriminate.
  - injection Hj as <-. cbn in Hr. injection Hr as <-.
    exists final, jd. split; [exact Hq|]. split; [exact Hl'|]. exact E.
Defined.
